(** * Kinetic particle cloud: hand tracker, store, config generator, renderer

    A shallow embedding of the TypeScript sources

    - [src/store.ts]: the zustand store, and the Gemini service
      [generateParticleConfig]
    - [src/components/WebcamHandTracker.tsx]: the per-video-frame tracker
    - the [Controls] component: prompt submission ([handleSubmit])
    - [src/components/Particles.tsx]: the per-rendered-frame physics

    JavaScript numbers are IEEE-754 binary64 values; they are embedded as
    Rocq's primitive [float], whose operations are specified by
    [SpecFloat] through the axioms of [FloatAxioms].  Objects used as
    dictionaries are [gmap string _]; [null] is [None].  The prompt, the
    one string whose characters the program inspects, is the list of its
    UTF-16 code units.

    Part I is the program, Part II the definitions the statements need,
    Part III a small theory of binary64 rounding (order embedding into the
    integers, monotonicity of multiplication and addition), Parts IV to
    VIII the properties of the tracker, the store and the renderer.
    Part IX extends the arithmetic to numbers of any sign; Parts X to XVI
    hold further properties of the tracker and its set-up, the store, the
    prompt, the renderer and the particle cloud, and of the tracker and the
    renderer together. *)

From Stdlib Require Import ZArith Bool List Lia Floats Ascii String.
From stdpp Require Import base option list gmap strings.

Set Warnings "-inexact-float".
Local Open Scope float_scope.

(* ===================================================================== *)
(** * Part I: the program                                                 *)
(* ===================================================================== *)

(** ** Host functions: [Math.*] and [THREE.MathUtils] *)

Module MathJS.

(** [Math.abs] *)
Definition Math_abs (x : float) : float := abs x.

(** [Math.min(a, b)]: NaN if either argument is NaN, [-0] below [+0]. *)
Definition Math_min (a b : float) : float :=
  if is_nan a || is_nan b then nan
  else if a <? b then a
  else if b <? a then b
  else match classify a with NZero => a | _ => b end.

(** [Math.max(a, b)]: NaN if either argument is NaN, [+0] above [-0]. *)
Definition Math_max (a b : float) : float :=
  if is_nan a || is_nan b then nan
  else if a <? b then b
  else if b <? a then a
  else match classify a with PZero => a | _ => b end.

(** [Math.hypot(a, b, c)], by the textbook formula.  ECMAScript leaves the
    precision of [Math.hypot] to the engine; the tracker below takes the
    distance function as a parameter and this is the instance used to run
    it. *)
Definition Math_hypot (a b c : float) : float := sqrt (a * a + b * b + c * c).

End MathJS.

Module MathUtils.
Import MathJS.

(** three.js: [clamp(value, min, max) = Math.max(min, Math.min(max, value))] *)
Definition clamp (value min max : float) : float :=
  Math_max min (Math_min max value).

(** three.js: [lerp(x, y, t) = (1 - t) * x + t * y] *)
Definition lerp (x y t : float) : float := (1 - t) * x + t * y.

End MathUtils.

(** ** Vectors *)

Record Vector2 := mkV2 { v2x : float; v2y : float }.
Record Vector3 := mkV3 { v3x : float; v3y : float; v3z : float }.

(** three.js [Vector3.lerp(v, alpha)]: [this.x += (v.x - this.x) * alpha] *)
Definition Vector3_lerp (this v : Vector3) (alpha : float) : Vector3 :=
  mkV3 (v3x this + (v3x v - v3x this) * alpha)
       (v3y this + (v3y v - v3y this) * alpha)
       (v3z this + (v3z v - v3z this) * alpha).

(** ** The store ([src/store.ts]) *)

Module Store.

(** [HandGesture = 'OPEN' | 'CLOSED' | 'NEUTRAL' | null]; [null] is [None]. *)
Inductive Gesture := OPEN | CLOSED | NEUTRAL.
Definition HandGesture := option Gesture.

(** A JSON scalar, as the fields of a configuration hold them. *)
Inductive jsval :=
| JNum (n : float)
| JStr (s : string)
| JBool (b : bool)
| JNull.

Record AppState := mkApp {
  handPosition : option Vector3;
  isHandDetected : bool;
  gesture : HandGesture;
  config : gmap string jsval;
  isConfiguring : bool;
  error : option string
}.

Definition DEFAULT_CONFIG : gmap string jsval :=
  <["color1" := JStr "#00ffff"]>
  (<["color2" := JStr "#ff00ff"]>
  (<["particleSize" := JNum 0.15]>
  (<["speed" := JNum 1.0]>
  (<["noiseScale" := JNum 1.0]>
  (<["interactionRadius" := JNum 2.0]>
  (<["particleCount" := JNum 8000]> ∅)))))).

Definition initial : AppState :=
  mkApp None false None DEFAULT_CONFIG false None.

Definition setHandPosition (pos : option Vector3) (s : AppState) : AppState :=
  mkApp pos (isHandDetected s) (gesture s) (config s) (isConfiguring s) (error s).
Definition setIsHandDetected (detected : bool) (s : AppState) : AppState :=
  mkApp (handPosition s) detected (gesture s) (config s) (isConfiguring s) (error s).
Definition setGesture (g : HandGesture) (s : AppState) : AppState :=
  mkApp (handPosition s) (isHandDetected s) g (config s) (isConfiguring s) (error s).
Definition setIsConfiguring (v : bool) (s : AppState) : AppState :=
  mkApp (handPosition s) (isHandDetected s) (gesture s) (config s) v (error s).
Definition setError (e : option string) (s : AppState) : AppState :=
  mkApp (handPosition s) (isHandDetected s) (gesture s) (config s) (isConfiguring s) e.

(** Object spread [{ ...a, ...b }]: the keys of [b] win. *)
Definition spread (a b : gmap string jsval) : gmap string jsval := b ∪ a.

(** [setConfig: (newConfig) => set((state) => ({ config: { ...state.config, ...newConfig } }))] *)
Definition setConfig (newConfig : gmap string jsval) (s : AppState) : AppState :=
  mkApp (handPosition s) (isHandDetected s) (gesture s)
        (spread (config s) newConfig) (isConfiguring s) (error s).

End Store.

(** ** The hand tracker ([src/components/WebcamHandTracker.tsx]) *)

Module Tracker.
Import Store.

(** A MediaPipe landmark [{x, y, z}]. *)
Record Landmark := mkLm { lmx : float; lmy : float; lmz : float }.

(** What one call of [predictWebcam] sees of the outside world. *)
Record VideoFrame := mkVideoFrame {
  ready : bool;                               (* handLandmarker && video *)
  currentTime : float;                        (* video.currentTime *)
  landmarks : option (list (list Landmark))   (* results.landmarks *)
}.

(** Store-passing computations that may throw (a [TypeError] on a
    property read of [undefined]); what was written before the throw
    stays written. *)
Definition M (A : Type) : Type := AppState -> option A * AppState.
Definition ret {A} (a : A) : M A := fun s => (Some a, s).
Definition bind {A B} (m : M A) (k : A -> M B) : M B :=
  fun s => match m s with
           | (Some a, s') => k a s'
           | (None, s') => (None, s')
           end.
Definition update (f : AppState -> AppState) : M unit := fun s => (Some tt, f s).
(** [xs[i]] followed by a property read: throws when out of range. *)
Definition index {A} (xs : list A) (i : nat) : M A := fun s => (xs !! i, s).

Declare Scope tracker_scope.
Notation "'let*' x ':=' m 'in' k" := (bind m (fun x => k))
  (at level 10, x name, m at level 100, k at level 200) : tracker_scope.
Notation "'do' m 'then' k" := (bind m (fun _ => k))
  (at level 10, m at level 100, k at level 200) : tracker_scope.
Local Open Scope tracker_scope.

Section WithHypot.
(** [Math.hypot] with three arguments. *)
Variable hypot : float -> float -> float -> float.

(** The closure [isFingerFolded(tipIdx, pipIdx)]. *)
Definition isFingerFolded (hand : list Landmark) (wrist : Landmark)
           (tipIdx pipIdx : nat) : M bool :=
  let* tip := index hand tipIdx in
  let* pip := index hand pipIdx in
  let distTip := hypot (lmx tip - lmx wrist) (lmy tip - lmy wrist) (lmz tip - lmz wrist) in
  let distPip := hypot (lmx pip - lmx wrist) (lmy pip - lmy wrist) (lmz pip - lmz wrist) in
  ret (distTip <? distPip).

(** [if (isFingerFolded(t, p)) foldedCount++] *)
Definition countIfFolded (hand : list Landmark) (wrist : Landmark)
           (tipIdx pipIdx : nat) (foldedCount : nat) : M nat :=
  let* b := isFingerFolded hand wrist tipIdx pipIdx in
  ret (if b then S foldedCount else foldedCount).

Definition classify (foldedCount : nat) : Gesture :=
  if (4 <=? foldedCount)%nat then CLOSED
  else if (foldedCount <=? 1)%nat then OPEN
  else NEUTRAL.

(** The branch of [predictWebcam] taken when a hand was found. *)
Definition handFound (hand : list Landmark) : M unit :=
  do update (setIsHandDetected true) then
  let* indexTip := index hand 8 in
  let x := (0.5 - lmx indexTip) * 10 in
  let y := (0.5 - lmy indexTip) * 8 in
  let z := lmz indexTip * -10 in
  do update (setHandPosition (Some (mkV3 x y z))) then
  let* wrist := index hand 0 in
  let* c1 := countIfFolded hand wrist 8 6 O in
  let* c2 := countIfFolded hand wrist 12 10 c1 in
  let* c3 := countIfFolded hand wrist 16 14 c2 in
  let* c4 := countIfFolded hand wrist 20 18 c3 in
  update (setGesture (Some (classify c4))).

(** The branch taken when no hand was found. *)
Definition handLost : M unit :=
  do update (setIsHandDetected false) then
  do update (setHandPosition None) then
  update (setGesture None).

(** [predictWebcam]; the result is the new [lastVideoTime]. *)
Definition predictWebcam (f : VideoFrame) (lastVideoTime : float) : M float :=
  if negb (ready f) then ret lastVideoTime
  else if negb (currentTime f =? lastVideoTime) then
    match landmarks f with
    | Some (hand :: _) => do handFound hand then ret (currentTime f)
    | _ => do handLost then ret (currentTime f)
    end
  else ret lastVideoTime.

(** The tracker run over a sequence of video frames, from
    [lastVideoTime = -1]; a throw stops the loop (no further
    [requestAnimationFrame]). *)
Fixpoint track (fs : list VideoFrame) (lastVideoTime : float) (s : AppState)
  : AppState :=
  match fs with
  | [] => s
  | f :: fs' =>
      match predictWebcam f lastVideoTime s with
      | (Some t, s') => track fs' t s'
      | (None, s') => s'
      end
  end.

End WithHypot.

(** The four (tip, PIP) landmark pairs: index, middle, ring, pinky. *)
Definition fingers : list (nat * nat) :=
  [(8, 6); (12, 10); (16, 14); (20, 18)]%nat.

End Tracker.

(** ** The config generator (the Gemini service and [Controls.handleSubmit]) *)

Module Controls.
Import Store.

(** What the remote call [ai.models.generateContent] does: it rejects, or
    it resolves to a response whose [text] may be undefined. *)
Inductive ApiOutcome :=
| Rejected
| Resolved (text : option string).

(** A JavaScript string is a sequence of UTF-16 code units.  The prompt is
    the one string of the program whose characters are looked at (by
    [trim]), so it is held as its code units; [''] is [[]]. *)
Definition JSString : Type := list N.

(** The local state of the [Controls] component. *)
Record Local := mkLocal { prompt : JSString; isLoading : bool }.

(** ECMAScript's general category Zs (Space_Separator), as of Unicode 6.3
    and later. *)
Definition isSpaceSeparator (c : N) : bool :=
  ((c =? 0x0020) || (c =? 0x00A0) || (c =? 0x1680)
   || ((0x2000 <=? c) && (c <=? 0x200A))
   || (c =? 0x202F) || (c =? 0x205F) || (c =? 0x3000))%N.

(** ECMAScript's WhiteSpace (TAB, VT, FF, ZWNBSP and Zs) and
    LineTerminator (LF, CR, LS, PS): what [trim] strips.  All of them are
    single code units. *)
Definition isWhiteSpace (c : N) : bool :=
  ((c =? 0x0009) || (c =? 0x000B) || (c =? 0x000C) || (c =? 0xFEFF)
   || isSpaceSeparator c
   || (c =? 0x000A) || (c =? 0x000D) || (c =? 0x2028) || (c =? 0x2029))%N.

(** [String.prototype.trimStart], [trimEnd] and [trim] *)
Fixpoint trimStart (s : JSString) : JSString :=
  match s with
  | c :: s' => if isWhiteSpace c then trimStart s' else s
  | [] => []
  end.
Definition trimEnd (s : JSString) : JSString := rev (trimStart (rev s)).
Definition trim (s : JSString) : JSString := trimEnd (trimStart s).

(** [!prompt.trim()]: of all strings only [''] is falsy. *)
Definition blank (s : JSString) : bool :=
  match trim s with [] => true | _ :: _ => false end.

Definition failure_message : string :=
  "Failed to generate config. Check API Key or try again.".

(** The error box of the panel: [if (!isOpen) return <button .../>] comes
    first, and in the open panel
    [{error && (<div ...><span>{error}</span></div>)}] renders the string
    unless [error] is [null] or ['']. *)
Definition errorBox (isOpen : bool) (s : AppState) : option string :=
  if isOpen then
    match error s with
    | Some e => if String.eqb e "" then None else Some e
    | None => None
    end
  else None.

Section WithParser.
(** [JSON.parse], on a response constrained to the object schema; [None]
    when it throws a [SyntaxError]. *)
Variable JSON_parse : string -> option (gmap string jsval).

(** [generateParticleConfig]; [None] when the promise rejects.  The
    [catch] block logs to the console and rethrows. *)
Definition generateParticleConfig (o : ApiOutcome) : option (gmap string jsval) :=
  match o with
  | Rejected => None
  | Resolved None => None
  | Resolved (Some text) =>
      if String.eqb text "" then None   (* [if (response.text)]: '' is falsy *)
      else JSON_parse text
  end.

(** [handleSubmit], run to completion against the outcome of the call. *)
Definition handleSubmit (o : ApiOutcome) (st : AppState * Local) : AppState * Local :=
  let '(s, l) := st in
  if blank (prompt l) then (s, l)
  else
    let l := mkLocal (prompt l) true in
    let s := setError None s in
    match generateParticleConfig o with
    | Some newConfig =>
        (setConfig newConfig s, mkLocal [] false)
    | None =>
        (setError (Some failure_message) s, mkLocal (prompt l) false)
    end.

End WithParser.

End Controls.

(** ** The particle renderer ([src/components/Particles.tsx]) *)

Module Particles.
Import MathJS MathUtils.

(** The shader uniforms that [useFrame] writes. *)
Record Uniforms := mkUniforms {
  uTime : float;
  uHandPos : Vector3;
  uInteractRadius : float;
  uHasHand : float;
  uExpansion : float
}.

(** The state that survives from one rendered frame to the next: the
    refs [momentum], [lastHandPos] and [currentScale], the rotation of
    the mesh and the uniforms of the material. *)
Record Renderer := mkRenderer {
  momentum : Vector2;
  lastHandPos : option Vector3;
  currentScale : float;
  rotation : Vector2;
  uniforms : Uniforms
}.

(** What one call of the [useFrame] callback reads. *)
Record Frame := mkFrame {
  elapsedTime : float;                    (* state.clock.elapsedTime *)
  handPosition : option Vector3;          (* store *)
  isHandDetected : bool;                  (* store *)
  gesture : Store.HandGesture;            (* store *)
  interactionRadius : float;              (* config.interactionRadius *)
  meshRef : bool;                         (* meshRef.current is not null *)
  materialRef : bool;                     (* materialRef.current is not null *)
  worldToLocal : Vector3 -> Vector3       (* meshRef.current.worldToLocal *)
}.

Definition initial (interactionRadius0 : float) : Renderer :=
  mkRenderer (mkV2 0 0) None 1.0 (mkV2 0 0)
             (mkUniforms 0 (mkV3 0 0 0) interactionRadius0 0.0 1.0).

Definition LERP_SPEED : float := 0.12.
Definition SENSITIVITY : float := 0.5.
Definition MOMENTUM_LERP : float := 0.15.
Definition FRICTION : float := 0.98.
Definition MAX_SPEED : float := 0.5.

(** The [switch] on the gesture. *)
Definition targetScale (isHandDetected : bool) (gesture : Store.HandGesture) : float :=
  if isHandDetected then
    match gesture with
    | Some Store.CLOSED => 0.4
    | Some Store.OPEN => 1.3
    | Some Store.NEUTRAL | None => 1.0
    end
  else 1.0.

(** [const zInfluence = clamp(1.0 + Math.abs(handPosition.z) * 0.5, 0.5, 3.0)] *)
Definition zInfluence (handZ : float) : float :=
  clamp (1.0 + Math_abs handZ * 0.5) 0.5 3.0.

(** [m *= FRICTION; if (Math.abs(m) < 0.0001) m = 0] *)
Definition decay (m : float) : float :=
  let m := m * FRICTION in
  if Math_abs m <? 0.0001 then 0 else m.

Definition with_uTime (t : float) (u : Uniforms) : Uniforms :=
  mkUniforms t (uHandPos u) (uInteractRadius u) (uHasHand u) (uExpansion u).
Definition with_uExpansion (e : float) (u : Uniforms) : Uniforms :=
  mkUniforms (uTime u) (uHandPos u) (uInteractRadius u) (uHasHand u) e.
Definition with_uHasHand (h : float) (u : Uniforms) : Uniforms :=
  mkUniforms (uTime u) (uHandPos u) (uInteractRadius u) h (uExpansion u).
Definition with_hand (p : Vector3) (radius : float) (u : Uniforms) : Uniforms :=
  mkUniforms (uTime u) p radius 1.0 (uExpansion u).

(** The body of the [useFrame] callback. *)
Definition useFrame (f : Frame) (r : Renderer) : Renderer :=
  let u := uniforms r in
  let u := if materialRef f then with_uTime (elapsedTime f) u else u in
  (* expansion *)
  let scale := lerp (currentScale r) (targetScale (isHandDetected f) (gesture f)) LERP_SPEED in
  let u := if materialRef f then with_uExpansion scale u else u in
  if meshRef f then
    (* rotation *)
    let '(m, last, u) :=
      match isHandDetected f, handPosition f with
      | true, Some hp =>
          let last := match lastHandPos r with Some l => l | None => hp end in
          let dx := v3x hp - v3x last in
          let dy := v3y hp - v3y last in
          let targetVelX := (- dy) * SENSITIVITY in
          let targetVelY := dx * SENSITIVITY in
          let mx := lerp (v2x (momentum r)) targetVelX MOMENTUM_LERP in
          let my := lerp (v2y (momentum r)) targetVelY MOMENTUM_LERP in
          let localHandPos := worldToLocal f hp in
          let u :=
            if materialRef f then
              with_hand (Vector3_lerp (uHandPos u) localHandPos 0.5)
                        (lerp (uInteractRadius u)
                              (interactionRadius f * zInfluence (v3z hp)) 0.1) u
            else u in
          (mkV2 mx my, Some hp, u)
      | _, _ =>
          let u := if materialRef f then with_uHasHand 0.0 u else u in
          (mkV2 (decay (v2x (momentum r))) (decay (v2y (momentum r))), None, u)
      end in
    let mx := clamp (v2x m) (- MAX_SPEED) MAX_SPEED in
    let my := clamp (v2y m) (- MAX_SPEED) MAX_SPEED in
    mkRenderer (mkV2 mx my) last scale
               (mkV2 (v2x (rotation r) + mx) (v2y (rotation r) + my)) u
  else
    mkRenderer (momentum r) (lastHandPos r) scale (rotation r) u.

(** The renderer run over a sequence of frames between which the
    configuration does not change. *)
Definition run (fs : list Frame) (r : Renderer) : Renderer :=
  fold_left (fun r f => useFrame f r) fs r.

(** The [useEffect] on [config], which React runs after a render in which
    the configuration has changed.  It copies the configuration into the
    uniforms of the material, if mounted: the two colours, the size, the
    speed, the noise scale and the interaction radius.  Of these only
    [uInteractRadius] is a uniform that [useFrame] writes as well. *)
Definition useEffect (materialRef : bool) (interactionRadius : float) (r : Renderer)
  : Renderer :=
  if materialRef then
    let u := uniforms r in
    mkRenderer (momentum r) (lastHandPos r) (currentScale r) (rotation r)
               (mkUniforms (uTime u) (uHandPos u) interactionRadius (uHasHand u)
                           (uExpansion u))
  else r.

(** What happens to the mounted component: a frame is rendered, or the
    configuration changes and the effect runs. *)
Inductive Event :=
| Rendered (f : Frame)
| ConfigChanged (materialRef : bool) (interactionRadius : float).

Definition step (r : Renderer) (e : Event) : Renderer :=
  match e with
  | Rendered f => useFrame f r
  | ConfigChanged materialRef interactionRadius => useEffect materialRef interactionRadius r
  end.

(** The renderer run over rendered frames and configuration changes. *)
Definition runEvents (es : list Event) (r : Renderer) : Renderer :=
  fold_left step es r.

(** [Vector2.length()]: [Math.sqrt(x * x + y * y)] *)
Definition Vector2_length (v : Vector2) : float :=
  sqrt (v2x v * v2x v + v2y v * v2y v).

End Particles.

(** ** The particle cloud ([useMemo] in [src/components/Particles.tsx]) *)

Module Cloud.

(** [Math.PI] *)
Definition Math_PI : float := 3.141592653589793.

(** [const theta = Math.random() * Math.PI * 2], for the value [u] drawn. *)
Definition theta (u : float) : float := u * Math_PI * 2.

(** The argument [(Math.random() * 2) - 1] of [Math.acos]. *)
Definition cosPhi (u : float) : float := (u * 2) - 1.

(** [const radius = 4 + Math.random() * 2] *)
Definition radius (u : float) : float := 4 + u * 2.

Section WithTrig.
(** [Math.sin], [Math.cos] and [Math.acos]: ECMAScript leaves their
    precision to the engine. *)
Variables Math_sin Math_cos Math_acos : float -> float.

(** The coordinates [x], [y], [z] computed for one particle from the
    three numbers drawn for it. *)
Definition point (u1 u2 u3 : float) : Vector3 :=
  let theta := theta u1 in
  let phi := Math_acos (cosPhi u2) in
  let radius := radius u3 in
  mkV3 (radius * Math_sin phi * Math_cos theta)
       (radius * Math_sin phi * Math_sin theta)
       (radius * Math_cos phi).

End WithTrig.

End Cloud.

(** ** Set-up of the tracker ([useEffect] in [WebcamHandTracker.tsx]) *)

Module Setup.
Import Store.

(** What the browser answers while the tracker is set up. *)
Record Browser := mkBrowser {
  visionLoads : bool;       (* FilesetResolver.forVisionTasks resolves *)
  landmarkerLoads : bool;   (* HandLandmarker.createFromOptions resolves *)
  hasMediaDevices : bool;   (* navigator.mediaDevices && ....getUserMedia *)
  cameraGranted : bool;     (* getUserMedia resolves *)
  videoMounted : bool       (* videoRef.current is not null *)
}.

(** The variables of the effect's closure, the component's [isLoaded], and
    what was asked of the browser. *)
Record Effect := mkEffect {
  isLoaded : bool;
  handLandmarker : bool;    (* handLandmarker is not null *)
  cameraRequested : bool;   (* getUserMedia was called *)
  streamOpen : bool;        (* getUserMedia resolved to a MediaStream *)
  video : bool              (* video is set: stream attached, listener added *)
}.

Definition initial : Effect := mkEffect false false false false false.

Definition load_error : string :=
  "Failed to load hand tracking. Please ensure your browser supports WebGPU/WebGL.".
Definition camera_error : string := "Camera access denied.".

(** [startWebcam], run to completion. *)
Definition startWebcam (b : Browser) (st : AppState * Effect) : AppState * Effect :=
  let '(s, e) := st in
  if hasMediaDevices b then
    let e := mkEffect (isLoaded e) (handLandmarker e) true (streamOpen e) (video e) in
    if cameraGranted b then
      let e := mkEffect (isLoaded e) (handLandmarker e) (cameraRequested e) true (video e) in
      if videoMounted b then
        (s, mkEffect (isLoaded e) (handLandmarker e) (cameraRequested e) (streamOpen e) true)
      else (s, e)
    else (setError (Some camera_error) s, e)
  else (s, e).

(** [setupMediaPipe], run to completion. *)
Definition setupMediaPipe (b : Browser) (st : AppState * Effect) : AppState * Effect :=
  let '(s, e) := st in
  if visionLoads b && landmarkerLoads b then
    startWebcam b
      (s, mkEffect true true (cameraRequested e) (streamOpen e) (video e))
  else (setError (Some load_error) s, e).

End Setup.

(* ===================================================================== *)
(** * Part II: definitions for the specifications                      *)
(* ===================================================================== *)

(** ** Binary64 values as integers

    Every finite binary64 value is a multiple of [2^-1074].  [ord] maps a
    float to that multiple, so that the order of floats is the order of
    integers; [rnd] is IEEE rounding to nearest, ties to even, on such
    scaled integers. *)

Local Open Scope Z_scope.

(** [v / 2^n] rounded to the nearest integer, ties to even. *)
Definition rne_div (v n : Z) : Z :=
  if n <=? 0 then v
  else
    let q := v / 2 ^ n in
    match v mod 2 ^ n ?= 2 ^ (n - 1) with
    | Lt => q
    | Gt => q + 1
    | Eq => if Z.even q then q else q + 1
    end.

(** After [n >= 1] shifts of [m]: the quotient, whether the remainder
    reaches one half, and whether it is neither zero nor one half. *)
Definition shr_inv (m n : Z) (r : shr_record) : Prop :=
  shr_m r = m / 2 ^ n /\
  shr_r r = (2 ^ (n - 1) <=? m mod 2 ^ n) /\
  shr_s r = negb ((m mod 2 ^ n) mod 2 ^ (n - 1) =? 0).

(** The place of the infinities: [2^1024], in units of [2^-1074]. *)
Definition INF : Z := 2 ^ 2098.

(** [rnd k v] rounds the non-negative number [v * 2^-(1074+k)] to the
    nearest binary64 value and returns it in units of [2^-1074]; a result
    of [INF] is an overflow. *)
Definition rnd (k v : Z) : Z :=
  let c := Z.max (Zdigits2 v - k - 53) 0 in
  Z.min (rne_div v (c + k) * 2 ^ c) INF.

(** The value of a float in units of [2^-1074]; infinities sit at [INF],
    just above the largest finite value. *)
Definition ord (x : spec_float) : Z :=
  match x with
  | S754_zero _ => 0
  | S754_infinity s => cond_Zopp s INF
  | S754_nan => 0
  | S754_finite s m e => cond_Zopp s (Zpos m * 2 ^ (e + 1074))
  end.

(** A positive finite [m * 2^e] in canonical form: the mantissa fills the
    53 bits unless the exponent is the least one. *)
Definition fin_ok (m : positive) (e : Z) : Prop :=
  Z.max (Zdigits2 (Zpos m) + e - 53) (-1074) = e /\ e <= 971.

(** [ord] on primitive floats. *)
Definition Ord (x : float) : Z := ord (Prim2SF x).

Local Close Scope Z_scope.

(** ** The tracker *)

(** A finger, given by its (tip, PIP) landmark indices, is folded when its
    tip is strictly closer to the wrist than its PIP joint. *)
Definition fingerFolded (hypot : float -> float -> float -> float)
           (hand : list Tracker.Landmark) (wrist : Tracker.Landmark)
           (finger : nat * nat) : bool :=
  match hand !! fst finger, hand !! snd finger with
  | Some tip, Some pip =>
      hypot (Tracker.lmx tip - Tracker.lmx wrist) (Tracker.lmy tip - Tracker.lmy wrist)
            (Tracker.lmz tip - Tracker.lmz wrist)
      <? hypot (Tracker.lmx pip - Tracker.lmx wrist) (Tracker.lmy pip - Tracker.lmy wrist)
               (Tracker.lmz pip - Tracker.lmz wrist)
  | _, _ => false
  end.

(** The number of folded fingers among [Tracker.fingers], counted
    directly rather than by the running counter of the code. *)
Definition foldedFingers (hypot : float -> float -> float -> float)
           (hand : list Tracker.Landmark) (wrist : Tracker.Landmark) : nat :=
  List.length (List.filter (fingerFolded hypot hand wrist) Tracker.fingers).

(** A video frame is well formed when the hand it reports, if any, has the
    21 landmarks of the MediaPipe hand model. *)
Definition wellFormed (f : Tracker.VideoFrame) : bool :=
  match Tracker.landmarks f with
  | Some (hand :: _) => (21 <=? List.length hand)%nat
  | _ => true
  end.

(** The three hand fields of the store agree: nothing is detected exactly
    when position and gesture are both null. *)
Definition handFieldsAgree (s : Store.AppState) : Prop :=
  Store.isHandDetected s = false <->
  (Store.handPosition s = None /\ Store.gesture s = None).

(** A frame in which the renderer sees no hand. *)
Definition noHand (f : Particles.Frame) : bool :=
  Particles.meshRef f && negb (Particles.isHandDetected f).

(** ** The renderer *)

(** What a frame without a hand does to one component of the momentum:
    friction, snap to zero, clamp. *)
Definition idle (m : float) : float :=
  MathUtils.clamp (Particles.decay m) (- Particles.MAX_SPEED) Particles.MAX_SPEED.

(** The same step on magnitudes, in units of [2^-1074]. *)
Definition zdecay (o : Z) : Z :=
  let p := rnd 1074 (o * Ord Particles.FRICTION) in
  if (p <? Ord 0.0001)%Z then 0%Z else Z.min p (Ord Particles.MAX_SPEED).

(** The depth influence factor on magnitudes: [o] is the magnitude of the
    hand's depth, in units of [2^-1074]. *)
Definition zinfluence (o : Z) : Z :=
  let half := if (o =? INF)%Z then INF else rnd 1074 (o * Ord 0.5) in
  Z.max (Ord 0.5) (Z.min (Ord 3.0) (rnd 0 (Ord 1.0 + half))).

(** The numbers a frame computes the momentum from are finite. *)
Definition finiteInputs (f : Particles.Frame) (r : Particles.Renderer) : bool :=
  is_finite (v2x (Particles.momentum r)) && is_finite (v2y (Particles.momentum r))
  && match Particles.handPosition f with
     | Some hp => is_finite (v3x hp) && is_finite (v3y hp)
     | None => true
     end
  && match Particles.lastHandPos r with
     | Some l => is_finite (v3x l) && is_finite (v3y l)
     | None => true
     end.

(** ** Concrete inputs *)

(** A hand with index and middle finger extended, ring and pinky folded. *)
Definition two_folded_hand : list Tracker.Landmark :=
  let lm x y := Tracker.mkLm x y 0 in
  [ lm 0.5 0.9;                                       (* 0: wrist *)
    lm 0.6 0.85; lm 0.65 0.8; lm 0.7 0.75; lm 0.75 0.7; (* thumb *)
    lm 0.55 0.6; lm 0.55 0.5; lm 0.55 0.4; lm 0.55 0.3; (* index: extended *)
    lm 0.5 0.6; lm 0.5 0.5; lm 0.5 0.4; lm 0.5 0.3;     (* middle: extended *)
    lm 0.45 0.6; lm 0.45 0.5; lm 0.45 0.62; lm 0.45 0.7; (* ring: folded *)
    lm 0.4 0.6; lm 0.4 0.55; lm 0.4 0.65; lm 0.4 0.72 ]. (* pinky: folded *)

(** The mocked response of the specification's end-to-end test:
    [{color1:"#0ff",color2:"#f0f",particleSize:0.2,speed:2.0,noiseScale:1.5}]. *)
Definition cyberpunk_rain : gmap string Store.jsval :=
  <["color1" := Store.JStr "#0ff"]>
  (<["color2" := Store.JStr "#f0f"]>
  (<["particleSize" := Store.JNum 0.2]>
  (<["speed" := Store.JNum 2.0]>
  (<["noiseScale" := Store.JNum 1.5]> ∅)))).

(** The gesture sequence [none, OPEN, OPEN, CLOSED, none] of the
    specification's end-to-end test, as frames. *)
Definition gestureFrame (hand : option Store.Gesture) : Particles.Frame :=
  match hand with
  | Some g => Particles.mkFrame 0 (Some (mkV3 0 0 0)) true (Some g) 2.0 true true (fun p => p)
  | None => Particles.mkFrame 0 None false None 2.0 true true (fun p => p)
  end.

(** A detected hand at [(x, y, 0)]. *)
Definition sweepFrame (x y : float) : Particles.Frame :=
  Particles.mkFrame 0 (Some (mkV3 x y 0)) true (Some Store.OPEN) 2.0 true true (fun p => p).

(** A renderer in mid-spin and the frames of a released hand. *)
Definition spinning : Particles.Renderer :=
  Particles.mkRenderer (mkV2 0.5 (-0.3)) None 1.0 (mkV2 0 0)
    (Particles.mkUniforms 0 (mkV3 0 0 0) 2.0 0.0 1.0).

Definition released (n : nat) : list Particles.Frame :=
  List.repeat (gestureFrame None) n.

(** A detected hand at depth [z]. *)
Definition depthFrame (z : float) : Particles.Frame :=
  Particles.mkFrame 0 (Some (mkV3 0 0 z)) true (Some Store.NEUTRAL) 2.0 true true (fun p => p).

(** ** Rounding of numbers of any sign *)

(** [rnd] extended to negative numbers by symmetry: IEEE rounding to
    nearest, ties to even, of any integer multiple of [2^-(1074+k)]. *)
Definition rndz (k v : Z) : Z := (Z.sgn v * rnd k (Z.abs v))%Z.

(** The largest finite binary64 value, in units of [2^-1074]. *)
Definition MAXF : Z := (INF - 2 ^ 2045)%Z.

(** [lerp] on integers: [ox] and [oy] are the operands and the result is
    the interpolated value, all in units of [2^-1074]. *)
Definition zlerp (t : float) (ox oy : Z) : Z :=
  rndz 0 (rndz 1074 (Ord (1 - t) * ox) + rndz 1074 (Ord t * oy)).

(** ** More about the tracker, the store and the renderer *)

(** The landmarks the tracker reads: the wrist, and the PIP joint and the
    tip of the index, middle, ring and pinky finger. *)
Definition readLandmarks : list nat := [0; 6; 8; 10; 12; 14; 16; 18; 20]%nat.

(** A sequence of responses merged into the store one after the other. *)
Definition mergeAll (cs : list (gmap string Store.jsval)) (s : Store.AppState)
  : Store.AppState :=
  fold_left (fun s c => Store.setConfig c s) cs s.

(** The renderer sees a hand: the detection flag is set and the position
    is not null. *)
Definition seesHand (f : Particles.Frame) : bool :=
  Particles.isHandDetected f
  && match Particles.handPosition f with Some _ => true | None => false end.

(** One frame of the blend toward a fixed target. *)
Definition settle (target s : float) : float :=
  MathUtils.lerp s target Particles.LERP_SPEED.

(** The hand has not moved since the previous frame, or it has just
    appeared. *)
Definition handStill (f : Particles.Frame) (r : Particles.Renderer) : bool :=
  match Particles.handPosition f, Particles.lastHandPos r with
  | Some hp, Some l =>
      (v3x l =? v3x hp) && (v3y l =? v3y hp)
  | Some _, None => true
  | None, _ => false
  end.

(** A float is not the negative zero. *)
Definition notNegZero (x : float) : bool :=
  match classify x with NZero => false | _ => true end.

(** A hand position inside the box to which the tracker maps the video
    image: x in [-5, 5], y in [-4, 4]. *)
Definition inView (p : Vector3) : bool :=
  (-5 <=? v3x p) && (v3x p <=? 5) && (-4 <=? v3y p) && (v3y p <=? 4).

(** The frame [f] with a hand detected at [hp]. *)
Definition withHand (hp : Vector3) (f : Particles.Frame) : Particles.Frame :=
  Particles.mkFrame (Particles.elapsedTime f) (Some hp) true (Particles.gesture f)
                    (Particles.interactionRadius f) (Particles.meshRef f)
                    (Particles.materialRef f) (Particles.worldToLocal f).

(** ** More concrete inputs *)

(** A hand of which only the first twelve landmarks were reported. *)
Definition short_hand : list Tracker.Landmark := firstn 12 two_folded_hand.

(** [two_folded_hand] with the tip of the thumb moved across the palm. *)
Definition thumb_tucked_hand : list Tracker.Landmark :=
  <[4%nat := Tracker.mkLm 0.45 0.65 0]> two_folded_hand.

(** The same hand with the index fingertip further right, lower and
    further from the camera. *)
Definition shifted_hand : list Tracker.Landmark :=
  <[8%nat := Tracker.mkLm 0.8 0.35 0.1]> two_folded_hand.

(** A renderer whose momentum has a NaN pitch component. *)
Definition broken : Particles.Renderer :=
  Particles.mkRenderer (mkV2 nan 0.25) None 1.0 (mkV2 0 0)
    (Particles.mkUniforms 0 (mkV3 0 0 0) 2.0 0.0 1.0).

(** ** From the store to the rendered frame *)

(** A rendered frame shows what the store holds: the component reads the
    hand fields through [useStore]. *)
Definition rendersStore (s : Store.AppState) (f : Particles.Frame) : Prop :=
  Particles.handPosition f = Store.handPosition s /\
  Particles.isHandDetected f = Store.isHandDetected s /\
  Particles.gesture f = Store.gesture s.

(** [two_folded_hand] with the index and the middle finger folded too: a
    fist. *)
Definition fist_hand : list Tracker.Landmark :=
  <[12%nat := Tracker.mkLm 0.5 0.7 0]> (<[8%nat := Tracker.mkLm 0.55 0.7 0]> two_folded_hand).

(** Sixty rendered frames showing the store after the tracker has seen
    [hand]. *)
Definition sixtyFramesOf (hand : list Tracker.Landmark) : list Particles.Frame :=
  let s := snd (Tracker.predictWebcam MathJS.Math_hypot
                  (Tracker.mkVideoFrame true 0 (Some [hand])) (-1) Store.initial) in
  List.repeat (Particles.mkFrame 0 (Store.handPosition s) (Store.isHandDetected s)
                 (Store.gesture s) 2.0 true true (fun p => p)) 60.

(** [n] rendered frames showing the store after the tracker has processed
    a video frame without a hand. *)
Definition framesAfterLoss (n : nat) : list Particles.Frame :=
  let s := snd (Tracker.predictWebcam MathJS.Math_hypot
                  (Tracker.mkVideoFrame true 0 None) (-1)
                  (Store.mkApp (Some (mkV3 1 2 3)) true (Some Store.OPEN)
                               Store.DEFAULT_CONFIG false None)) in
  List.repeat (Particles.mkFrame 0 (Store.handPosition s) (Store.isHandDetected s)
                 (Store.gesture s) 2.0 true true (fun p => p)) n.

(** ** The prompt *)

(** The code units of a string of ASCII characters. *)
Definition utf16 (s : string) : Controls.JSString :=
  map N_of_ascii (list_ascii_of_string s).

(** The code units that ECMAScript counts as white space or as line
    terminators: U+0009 to U+000D, U+0020, U+00A0, U+1680, U+2000 to
    U+200A, U+2028, U+2029, U+202F, U+205F, U+3000 and U+FEFF. *)
Definition whiteSpaceCodeUnits : list N :=
  [9; 10; 11; 12; 13; 32; 160; 5760;
   8192; 8193; 8194; 8195; 8196; 8197; 8198; 8199; 8200; 8201; 8202;
   8232; 8233; 8239; 8287; 12288; 65279]%N.

(** A prompt of a space, a no-break space, an ideographic space and a
    line feed. *)
Definition spaces_prompt : Controls.JSString := [0x20; 0xA0; 0x3000; 0x0A]%N.

(** ** Configuration changes *)

(** The frames of the events see no hand. *)
Definition unseenEvent (e : Particles.Event) : bool :=
  match e with
  | Particles.Rendered f => negb (seesHand f)
  | Particles.ConfigChanged _ _ => true
  end.

(** The interaction radius of the last configuration change that found the
    material mounted, [old] if there was none. *)
Definition lastConfigured (es : list Particles.Event) (old : float) : float :=
  fold_left (fun R e => match e with
                        | Particles.ConfigChanged true R' => R'
                        | _ => R
                        end) es old.

(** A response that asks for a negative interaction radius. *)
Definition antimatter : gmap string Store.jsval :=
  <["interactionRadius" := Store.JNum (-2)]> cyberpunk_rain.

(** A detected hand at depth [z] while the configured radius is [R]. *)
Definition radiusFrame (R z : float) : Particles.Frame :=
  Particles.mkFrame 0 (Some (mkV3 0 0 z)) true (Some Store.NEUTRAL) R true true (fun p => p).

(* ===================================================================== *)
(** * Part III: binary64 arithmetic                                    *)
(* ===================================================================== *)

Local Open Scope Z_scope.

(** ** Binary digits *)

Lemma digits2_pos_size (p : positive) : digits2_pos p = Pos.size p.
Proof. induction p; simpl; congruence. Qed.

Lemma Zdigits2_log2 (p : positive) : Zdigits2 (Zpos p) = Z.log2 (Zpos p) + 1.
Proof.
  simpl. rewrite digits2_pos_size. destruct p; simpl; lia.
Qed.

Lemma Zdigits2_bounds (v : Z) :
  0 < v -> 2 ^ (Zdigits2 v - 1) <= v < 2 ^ Zdigits2 v.
Proof.
  intros Hv. destruct v as [|p|p]; try lia.
  rewrite Zdigits2_log2.
  replace (Z.log2 (Z.pos p) + 1 - 1) with (Z.log2 (Z.pos p)) by lia.
  apply Z.log2_spec. lia.
Qed.

Lemma Zdigits2_unique (v d : Z) :
  2 ^ (d - 1) <= v < 2 ^ d -> 0 < v -> Zdigits2 v = d.
Proof.
  intros Hb Hv. destruct v as [|p|p]; try lia.
  rewrite Zdigits2_log2.
  assert (0 < d).
  { destruct (Z.ltb_spec 0 d); [assumption|].
    exfalso. destruct (Z.eqb_spec d 0).
    - subst. simpl in Hb. lia.
    - rewrite (Z.pow_neg_r 2 d) in Hb by lia. lia. }
  rewrite (Z.log2_unique (Z.pos p) (d - 1)); try lia.
  replace (Z.succ (d - 1)) with d by lia. exact Hb.
Qed.

Lemma Zdigits2_nonneg (v : Z) : 0 <= Zdigits2 v.
Proof. destruct v; simpl; lia. Qed.

Lemma Zdigits2_pos (v : Z) : 0 < v -> 0 < Zdigits2 v.
Proof. destruct v; simpl; lia. Qed.

Lemma Zdigits2_mono (v w : Z) : 0 <= v <= w -> Zdigits2 v <= Zdigits2 w.
Proof.
  intros [Hv Hvw].
  destruct (Z.eqb_spec v 0) as [->|Hv0]; [apply Zdigits2_nonneg|].
  assert (0 < v) by lia. assert (0 < w) by lia.
  pose proof (Zdigits2_bounds v ltac:(assumption)) as [Hlo _].
  pose proof (Zdigits2_bounds w ltac:(assumption)) as [_ Hhi].
  assert (2 ^ (Zdigits2 v - 1) < 2 ^ Zdigits2 w) by lia.
  apply Z.pow_lt_mono_r_iff in H1; try lia.
  apply Zdigits2_nonneg.
Qed.

Lemma Zdigits2_mul_pow2 (v j : Z) :
  0 < v -> 0 <= j -> Zdigits2 (v * 2 ^ j) = Zdigits2 v + j.
Proof.
  intros Hv Hj.
  pose proof (Zdigits2_bounds v Hv) as [Hlo Hhi].
  pose proof (Zdigits2_pos v Hv).
  apply Zdigits2_unique.
  - replace (Zdigits2 v + j - 1) with ((Zdigits2 v - 1) + j) by lia.
    rewrite !Z.pow_add_r by lia.
    assert (0 < 2 ^ j) by (apply Z.pow_pos_nonneg; lia). nia.
  - assert (0 < 2 ^ j) by (apply Z.pow_pos_nonneg; lia). nia.
Qed.

(** ** Nearest-even division by a power of two *)

Lemma rne_div_bounds (v n : Z) :
  0 <= n -> v / 2 ^ n <= rne_div v n <= v / 2 ^ n + 1.
Proof.
  intros Hn. unfold rne_div.
  destruct (Z.leb_spec n 0).
  - replace n with 0 by lia. rewrite Z.pow_0_r, Z.div_1_r. lia.
  - destruct (_ ?= _); [destruct (Z.even _)|..]; lia.
Qed.

Lemma rne_div_exact (v n : Z) :
  0 <= n -> v mod 2 ^ n = 0 -> rne_div v n = v / 2 ^ n.
Proof.
  intros Hn Hmod. unfold rne_div.
  destruct (Z.leb_spec n 0).
  - replace n with 0 by lia. rewrite Z.pow_0_r, Z.div_1_r. reflexivity.
  - rewrite Hmod.
    assert (0 < 2 ^ (n - 1)) by (apply Z.pow_pos_nonneg; lia).
    destruct (Z.compare_spec 0 (2 ^ (n - 1))); lia.
Qed.

Lemma rne_div_mul_pow2 (m n : Z) : 0 <= n -> rne_div (m * 2 ^ n) n = m.
Proof.
  intros Hn. rewrite rne_div_exact; try assumption.
  - apply Z.div_mul. apply Z.pow_nonzero; lia.
  - apply Z.mod_mul. apply Z.pow_nonzero; lia.
Qed.

Lemma rne_div_mono (v w n : Z) :
  0 <= n -> v <= w -> rne_div v n <= rne_div w n.
Proof.
  intros Hn Hvw. unfold rne_div.
  destruct (Z.leb_spec n 0); [assumption|].
  assert (Hp : 0 < 2 ^ n) by (apply Z.pow_pos_nonneg; lia).
  pose proof (Z.div_le_mono v w (2 ^ n) Hp Hvw) as Hq.
  pose proof (Z.mod_pos_bound v (2 ^ n) Hp) as Hrv.
  pose proof (Z.mod_pos_bound w (2 ^ n) Hp) as Hrw.
  pose proof (Z.div_mod v (2 ^ n) ltac:(lia)) as Ev.
  pose proof (Z.div_mod w (2 ^ n) ltac:(lia)) as Ew.
  destruct (Z.eqb_spec (v / 2 ^ n) (w / 2 ^ n)) as [E|NE].
  - rewrite E in *.
    assert (v mod 2 ^ n <= w mod 2 ^ n) by lia.
    destruct (Z.compare_spec (v mod 2 ^ n) (2 ^ (n - 1)));
      destruct (Z.compare_spec (w mod 2 ^ n) (2 ^ (n - 1)));
      destruct (Z.even (w / 2 ^ n)); lia.
  - assert (v / 2 ^ n + 1 <= w / 2 ^ n) by lia.
    destruct (_ ?= _); destruct (_ ?= _);
      destruct (Z.even (v / 2 ^ n)); destruct (Z.even (w / 2 ^ n)); lia.
Qed.

Lemma rne_div_shift (v n j : Z) :
  0 <= n -> 0 <= j -> rne_div (v * 2 ^ j) (n + j) = rne_div v n.
Proof.
  intros Hn Hj.
  destruct (Z.eqb_spec n 0) as [->|Hn0].
  - rewrite Z.add_0_l, rne_div_mul_pow2 by assumption. reflexivity.
  - unfold rne_div.
    destruct (Z.leb_spec (n + j) 0); [lia|].
    destruct (Z.leb_spec n 0); [lia|].
    assert (Hpj : 0 < 2 ^ j) by (apply Z.pow_pos_nonneg; lia).
    assert (Hpn : 0 < 2 ^ n) by (apply Z.pow_pos_nonneg; lia).
    rewrite Z.pow_add_r by lia.
    rewrite (Z.mul_comm (2 ^ n) (2 ^ j)).
    rewrite (Z.mul_comm v (2 ^ j)).
    rewrite Z.div_mul_cancel_l by lia.
    rewrite Z.mul_mod_distr_l by lia.
    replace (n + j - 1) with (j + (n - 1)) by lia.
    rewrite Z.pow_add_r by lia.
    rewrite <- Zmult_compare_compat_l by lia.
    reflexivity.
Qed.

Lemma rne_div_upper (v n : Z) :
  0 <= n -> rne_div v n * 2 ^ n <= v + 2 ^ n.
Proof.
  intros Hn.
  assert (Hp : 0 < 2 ^ n) by (apply Z.pow_pos_nonneg; lia).
  pose proof (rne_div_bounds v n Hn) as [_ Hhi].
  pose proof (Z.mul_div_le v (2 ^ n) Hp). nia.
Qed.

(** ** Right shifts with round and sticky bits *)

Lemma iter_pos_nat {A : Type} (f : A -> A) (p : positive) :
  forall x : A, SpecFloat.iter_pos f p x = @Nat.iter (Pos.to_nat p) A f x.
Proof.
  induction p as [p IH|p IH|]; intros x; cbn [SpecFloat.iter_pos].
  - rewrite !IH, Pos2Nat.inj_xI.
    replace (S (2 * Pos.to_nat p))%nat with (Pos.to_nat p + Pos.to_nat p + 1)%nat by lia.
    rewrite !Nat.iter_add. reflexivity.
  - rewrite !IH, Pos2Nat.inj_xO.
    replace (2 * Pos.to_nat p)%nat with (Pos.to_nat p + Pos.to_nat p)%nat by lia.
    rewrite Nat.iter_add. reflexivity.
  - reflexivity.
Qed.

Lemma shr_1_spec (r : shr_record) :
  0 <= shr_m r ->
  shr_1 r = Build_shr_record (shr_m r / 2) (Z.odd (shr_m r)) (shr_r r || shr_s r).
Proof.
  destruct r as [m r s]. simpl. intros Hm.
  rewrite <- Z.div2_div.
  destruct m as [|[p|p|]|]; try lia; reflexivity.
Qed.

Lemma shr_inv_first (m : Z) :
  0 <= m -> shr_inv m 1 (shr_1 (Build_shr_record m false false)).
Proof.
  intros Hm. rewrite shr_1_spec by assumption. simpl shr_m. simpl shr_r. simpl shr_s.
  unfold shr_inv. simpl shr_m. simpl shr_r. simpl shr_s.
  change (2 ^ 1) with 2. change (2 ^ (1 - 1)) with 1.
  rewrite Z.mod_1_r. split; [reflexivity|]. split; [|reflexivity].
  rewrite Zmod_odd. destruct (Z.odd m); reflexivity.
Qed.

Lemma shr_inv_step (m n : Z) (r : shr_record) :
  0 <= m -> 1 <= n -> shr_inv m n r -> shr_inv m (n + 1) (shr_1 r).
Proof.
  intros Hm Hn (Hq & Hr & Hs).
  assert (Hpn : 0 < 2 ^ n) by (apply Z.pow_pos_nonneg; lia).
  assert (Hph : 0 < 2 ^ (n - 1)) by (apply Z.pow_pos_nonneg; lia).
  assert (Hpow : 2 ^ n = 2 * 2 ^ (n - 1)).
  { replace n with (1 + (n - 1)) at 1 by lia. rewrite Z.pow_add_r by lia. reflexivity. }
  assert (Hq0 : 0 <= m / 2 ^ n) by (apply Z.div_pos; lia).
  rewrite shr_1_spec by (rewrite Hq; assumption).
  unfold shr_inv. simpl shr_m. simpl shr_r. simpl shr_s.
  replace (n + 1 - 1) with n by lia.
  assert (Hrem : m mod 2 ^ (n + 1) = m mod 2 ^ n + 2 ^ n * ((m / 2 ^ n) mod 2)).
  { rewrite Z.pow_add_r by lia. change (2 ^ 1) with 2.
    apply Z.rem_mul_r; lia. }
  pose proof (Z.mod_pos_bound m (2 ^ n) Hpn) as Hb.
  rewrite Hq, Hr, Hs. split; [|split].
  - rewrite Z.pow_add_r by lia. change (2 ^ 1) with 2.
    rewrite Z.div_div by lia. reflexivity.
  - rewrite Hrem, Zmod_odd.
    destruct (Z.odd (m / 2 ^ n)).
    + destruct (Z.leb_spec (2 ^ n) (m mod 2 ^ n + 2 ^ n * 1)); [reflexivity|lia].
    + destruct (Z.leb_spec (2 ^ n) (m mod 2 ^ n + 2 ^ n * 0)); [lia|reflexivity].
  - assert (Hx : (m mod 2 ^ n + 2 ^ n * ((m / 2 ^ n) mod 2)) mod 2 ^ n = m mod 2 ^ n).
    { rewrite (Z.mul_comm (2 ^ n)), Z.mod_add by lia. apply Z.mod_small. lia. }
    rewrite Hrem, Hx.
    destruct (Z.leb_spec (2 ^ (n - 1)) (m mod 2 ^ n)) as [Hge|Hlt]; simpl.
    + destruct (Z.eqb_spec (m mod 2 ^ n) 0); [lia|reflexivity].
    + rewrite (Z.mod_small (m mod 2 ^ n) (2 ^ (n - 1))) by lia. reflexivity.
Qed.

Lemma shr_inv_iter (m : Z) (k : nat) :
  0 <= m ->
  shr_inv m (Z.of_nat (S k))
    (@Nat.iter (S k) shr_record shr_1 (Build_shr_record m false false)).
Proof.
  intros Hm. induction k as [|k IH].
  - apply shr_inv_first. assumption.
  - replace (Z.of_nat (S (S k))) with (Z.of_nat (S k) + 1) by lia.
    change (@Nat.iter (S (S k)) shr_record shr_1 ?x)
      with (shr_1 (@Nat.iter (S k) shr_record shr_1 x)).
    apply shr_inv_step; try assumption. lia.
Qed.

Lemma round_shr_inv (m n : Z) (r : shr_record) :
  0 <= m -> 1 <= n -> shr_inv m n r ->
  round_nearest_even (shr_m r) (loc_of_shr_record r) = rne_div m n.
Proof.
  intros Hm Hn (Hq & Hr & Hs).
  assert (Hpn : 0 < 2 ^ n) by (apply Z.pow_pos_nonneg; lia).
  assert (Hph : 0 < 2 ^ (n - 1)) by (apply Z.pow_pos_nonneg; lia).
  assert (Hpow : 2 ^ n = 2 * 2 ^ (n - 1)).
  { replace n with (1 + (n - 1)) at 1 by lia. rewrite Z.pow_add_r by lia. reflexivity. }
  pose proof (Z.mod_pos_bound m (2 ^ n) Hpn) as Hb.
  unfold rne_div. destruct (Z.leb_spec n 0); [lia|].
  destruct r as [q rb sb]. cbn [shr_m shr_r shr_s loc_of_shr_record] in *. subst q.
  destruct (Z.compare_spec (m mod 2 ^ n) (2 ^ (n - 1))) as [E|L|G].
  - rewrite E, Z.mod_same in Hs by lia. rewrite E, Z.leb_refl in Hr.
    subst rb sb. reflexivity.
  - rewrite (Z.mod_small (m mod 2 ^ n) (2 ^ (n - 1))) in Hs by lia.
    destruct (Z.leb_spec (2 ^ (n - 1)) (m mod 2 ^ n)); [lia|].
    subst rb. destruct sb; reflexivity.
  - destruct (Z.leb_spec (2 ^ (n - 1)) (m mod 2 ^ n)); [|lia].
    assert ((m mod 2 ^ n) mod 2 ^ (n - 1) <> 0).
    { replace (m mod 2 ^ n) with ((m mod 2 ^ n - 2 ^ (n - 1)) + 1 * 2 ^ (n - 1)) by lia.
      rewrite Z.mod_add by lia.
      rewrite (Z.mod_small (m mod 2 ^ n - 2 ^ (n - 1)) (2 ^ (n - 1))) by lia. lia. }
    destruct (Z.eqb_spec ((m mod 2 ^ n) mod 2 ^ (n - 1)) 0); [lia|].
    subst rb sb. reflexivity.
Qed.

Lemma shr_round (m e n : Z) :
  0 <= m -> 0 <= n ->
  snd (shr (Build_shr_record m false false) e n) = e + n /\
  shr_m (fst (shr (Build_shr_record m false false) e n)) = m / 2 ^ n /\
  round_nearest_even
    (shr_m (fst (shr (Build_shr_record m false false) e n)))
    (loc_of_shr_record (fst (shr (Build_shr_record m false false) e n)))
  = rne_div m n.
Proof.
  intros Hm Hn. destruct n as [|p|p]; try lia.
  - simpl. rewrite Z.add_0_r, Z.div_1_r. auto.
  - unfold shr. simpl fst. simpl snd. rewrite iter_pos_nat.
    destruct (Pos2Nat.is_succ p) as [k Hk]. rewrite Hk.
    pose proof (shr_inv_iter m k Hm) as Hinv.
    replace (Z.of_nat (S k)) with (Z.pos p) in Hinv by lia.
    split; [reflexivity|]. split; [apply Hinv|].
    apply round_shr_inv; try assumption. lia.
Qed.

(** ** Rounding to binary64, on scaled integers *)

Lemma div_pow2_lt (v a n : Z) :
  0 <= a -> 0 <= n -> v < 2 ^ (a + n) -> v / 2 ^ n < 2 ^ a.
Proof.
  intros Ha Hn Hv.
  apply Z.div_lt_upper_bound; [apply Z.pow_pos_nonneg; lia|].
  rewrite <- Z.pow_add_r by lia. rewrite Z.add_comm. exact Hv.
Qed.

Lemma div_pow2_ge (v a n : Z) :
  0 <= a -> 0 <= n -> 2 ^ (a + n) <= v -> 2 ^ a <= v / 2 ^ n.
Proof.
  intros Ha Hn Hv.
  apply Z.div_le_lower_bound; [apply Z.pow_pos_nonneg; lia|].
  rewrite <- Z.pow_add_r by lia. rewrite Z.add_comm. exact Hv.
Qed.

Lemma rne_div_zero (n : Z) : rne_div 0 n = 0.
Proof.
  unfold rne_div. destruct (Z.leb_spec n 0); [reflexivity|].
  rewrite Z.mod_0_l, Z.div_0_l by (apply Z.pow_nonzero; lia).
  assert (0 < 2 ^ (n - 1)) by (apply Z.pow_pos_nonneg; lia).
  destruct (Z.compare_spec 0 (2 ^ (n - 1))); lia.
Qed.

Lemma rne_div_nonneg (v n : Z) : 0 <= v -> 0 <= n -> 0 <= rne_div v n.
Proof.
  intros Hv Hn. pose proof (rne_div_bounds v n Hn) as [Hlo _].
  assert (0 <= v / 2 ^ n) by (apply Z.div_pos; [lia|apply Z.pow_pos_nonneg; lia]).
  lia.
Qed.

Lemma rnd_zero (k : Z) : 0 <= k -> rnd k 0 = 0.
Proof.
  intros Hk. unfold rnd. rewrite rne_div_zero. reflexivity.
Qed.

Lemma rnd_nonneg (k v : Z) : 0 <= k -> 0 <= v -> 0 <= rnd k v.
Proof.
  intros Hk Hv. unfold rnd.
  set (c := Z.max (Zdigits2 v - k - 53) 0).
  assert (0 <= rne_div v (c + k)) by (apply rne_div_nonneg; lia).
  assert (0 < 2 ^ c) by (apply Z.pow_pos_nonneg; lia).
  assert (0 < INF) by reflexivity. nia.
Qed.

Lemma rnd_le_INF (k v : Z) : rnd k v <= INF.
Proof. unfold rnd. lia. Qed.

Lemma rnd_mono (k v w : Z) :
  0 <= k -> 0 <= v <= w -> rnd k v <= rnd k w.
Proof.
  intros Hk [Hv Hvw]. unfold rnd.
  pose proof (Zdigits2_mono v w (conj Hv Hvw)) as Hd.
  set (c1 := Z.max (Zdigits2 v - k - 53) 0).
  set (c2 := Z.max (Zdigits2 w - k - 53) 0).
  apply Z.min_le_compat_r.
  destruct (Z.eqb_spec c1 c2) as [E|NE].
  - rewrite E. apply Z.mul_le_mono_nonneg_r.
    + apply Z.pow_nonneg. lia.
    + apply rne_div_mono; lia.
  - assert (Hc : c1 < c2) by lia.
    assert (Hc2 : c2 = Zdigits2 w - k - 53) by lia.
    assert (Hw : 0 < w) by (destruct w; simpl in *; lia).
    (* the larger one is at least 2^(52+c2) *)
    assert (Hbig : 2 ^ (52 + c2) <= rne_div w (c2 + k) * 2 ^ c2).
    { pose proof (Zdigits2_bounds w Hw) as [Hlo _].
      pose proof (rne_div_bounds w (c2 + k) ltac:(lia)) as [Hq _].
      assert (2 ^ 52 <= w / 2 ^ (c2 + k)).
      { apply div_pow2_ge; try lia.
        replace (52 + (c2 + k)) with (Zdigits2 w - 1) by lia. exact Hlo. }
      rewrite Z.pow_add_r by lia.
      apply Z.mul_le_mono_nonneg_r; [apply Z.pow_nonneg|]; lia. }
    (* the smaller one is at most 2^(53+c1) *)
    assert (Hsmall : rne_div v (c1 + k) * 2 ^ c1 <= 2 ^ (53 + c1)).
    { rewrite Z.pow_add_r by lia.
      apply Z.mul_le_mono_nonneg_r; [apply Z.pow_nonneg; lia|].
      destruct (Z.eqb_spec v 0) as [->|Hv0].
      - rewrite rne_div_zero. apply Z.pow_nonneg. lia.
      - pose proof (Zdigits2_bounds v ltac:(lia)) as [_ Hhi].
        pose proof (rne_div_bounds v (c1 + k) ltac:(lia)) as [_ Hq].
        assert (v / 2 ^ (c1 + k) < 2 ^ 53).
        { apply div_pow2_lt; try lia.
          eapply Z.lt_le_trans; [exact Hhi|].
          apply Z.pow_le_mono_r; lia. }
        lia. }
    assert (2 ^ (53 + c1) <= 2 ^ (52 + c2)) by (apply Z.pow_le_mono_r; lia).
    lia.
Qed.

(** A representable value is its own rounding. *)
Lemma rnd_id (k m c : Z) :
  0 <= k -> 0 < m -> 0 <= c ->
  Z.max (Zdigits2 m + c - 53) 0 = c ->
  m * 2 ^ c < INF ->
  rnd k (m * 2 ^ c * 2 ^ k) = m * 2 ^ c.
Proof.
  intros Hk Hm Hc Hcan Hfin. unfold rnd.
  rewrite <- Z.mul_assoc, <- Z.pow_add_r by lia.
  rewrite Zdigits2_mul_pow2 by lia.
  replace (Zdigits2 m + (c + k) - k - 53) with (Zdigits2 m + c - 53) by lia.
  rewrite Hcan, rne_div_mul_pow2 by lia. lia.
Qed.

(** ** The order embedding of binary64 into the integers *)

Lemma valid_finite (s : bool) (m : positive) (e : Z) :
  valid_binary (S754_finite s m e) = true <-> fin_ok m e.
Proof.
  unfold fin_ok. simpl valid_binary. unfold bounded, canonical_mantissa, fexp, SpecFloat.emin.
  unfold prec, emax. simpl Zdigits2.
  rewrite andb_true_iff, Z.eqb_eq, Z.leb_le.
  change (3 - 1024 - 53) with (-1074). change (1024 - 53) with 971. reflexivity.
Qed.

Lemma fin_bounds (m : positive) (e : Z) :
  fin_ok m e ->
  -1074 <= e /\ Zpos m < 2 ^ 53 /\ (-1074 < e -> 2 ^ 52 <= Zpos m) /\
  0 < Zpos m * 2 ^ (e + 1074) < INF.
Proof.
  intros [Hcan He].
  pose proof (Zdigits2_bounds (Zpos m) ltac:(lia)) as [Hlo Hhi].
  assert (Hd : Zdigits2 (Zpos m) <= 53) by lia.
  assert (Hm : Zpos m < 2 ^ 53).
  { eapply Z.lt_le_trans; [exact Hhi|]. apply Z.pow_le_mono_r; lia. }
  assert (Hp : 0 < 2 ^ (e + 1074)) by (apply Z.pow_pos_nonneg; lia).
  split; [lia|]. split; [exact Hm|]. split.
  - intros He'. assert (Zdigits2 (Zpos m) = 53) by lia.
    replace 52 with (Zdigits2 (Zpos m) - 1) by lia. exact Hlo.
  - split; [lia|].
    assert (2 ^ (e + 1074) <= 2 ^ 2045) by (apply Z.pow_le_mono_r; lia).
    unfold INF. change (2 ^ 2098) with (2 ^ 53 * 2 ^ 2045).
    assert (0 < 2 ^ 2045) by reflexivity.
    nia.
Qed.

Lemma pos_compare (m1 m2 : positive) (e1 e2 : Z) :
  fin_ok m1 e1 -> fin_ok m2 e2 ->
  match e1 ?= e2 with
  | Lt => Lt
  | Gt => Gt
  | Eq => Pos.compare_cont Eq m1 m2
  end = (Zpos m1 * 2 ^ (e1 + 1074) ?= Zpos m2 * 2 ^ (e2 + 1074)).
Proof.
  intros H1 H2.
  pose proof (fin_bounds m1 e1 H1) as (He1 & Hm1 & Hn1 & _).
  pose proof (fin_bounds m2 e2 H2) as (He2 & Hm2 & Hn2 & _).
  destruct (Z.compare_spec e1 e2) as [E|L|G].
  - subst e2. change (Pos.compare_cont Eq m1 m2) with (Zpos m1 ?= Zpos m2).
    assert (0 < 2 ^ (e1 + 1074)) by (apply Z.pow_pos_nonneg; lia).
    apply Zmult_compare_compat_r. lia.
  - symmetry. apply Z.compare_lt_iff.
    assert (2 ^ (e2 + 1074) = 2 ^ (e2 - e1) * 2 ^ (e1 + 1074)).
    { rewrite <- Z.pow_add_r by lia. f_equal. lia. }
    assert (2 ^ 1 <= 2 ^ (e2 - e1)) by (apply Z.pow_le_mono_r; lia).
    assert (0 < 2 ^ (e1 + 1074)) by (apply Z.pow_pos_nonneg; lia).
    specialize (Hn2 ltac:(lia)). change (2 ^ 53) with (2 * 2 ^ 52) in *.
    change (2 ^ 1) with 2 in *. nia.
  - symmetry. apply Z.compare_gt_iff.
    assert (2 ^ (e1 + 1074) = 2 ^ (e1 - e2) * 2 ^ (e2 + 1074)).
    { rewrite <- Z.pow_add_r by lia. f_equal. lia. }
    assert (2 ^ 1 <= 2 ^ (e1 - e2)) by (apply Z.pow_le_mono_r; lia).
    assert (0 < 2 ^ (e2 + 1074)) by (apply Z.pow_pos_nonneg; lia).
    specialize (Hn1 ltac:(lia)). change (2 ^ 53) with (2 * 2 ^ 52) in *.
    change (2 ^ 1) with 2 in *. nia.
Qed.

Lemma compare_ord (x y : spec_float) :
  valid_binary x = true -> valid_binary y = true ->
  x <> S754_nan -> y <> S754_nan ->
  SFcompare x y = Some (ord x ?= ord y).
Proof.
  intros Vx Vy Nx Ny.
  assert (HI : 0 < INF) by reflexivity.
  destruct x as [sx|sx| |sx mx ex]; try congruence;
    destruct y as [sy|sy| |sy my ey]; try congruence;
    try (apply valid_finite in Vx; pose proof (fin_bounds _ _ Vx) as (_ & _ & _ & Bx));
    try (apply valid_finite in Vy; pose proof (fin_bounds _ _ Vy) as (_ & _ & _ & By));
    cbn [SFcompare ord].
  all: try (destruct sx; destruct sy; cbn [cond_Zopp]; f_equal; symmetry;
            first [ apply Z.compare_eq_iff; lia
                  | apply Z.compare_lt_iff; lia
                  | apply Z.compare_gt_iff; lia ]).
  all: try (destruct sx; cbn [cond_Zopp]; f_equal; symmetry;
            first [ apply Z.compare_eq_iff; lia
                  | apply Z.compare_lt_iff; lia
                  | apply Z.compare_gt_iff; lia ]).
  all: try (destruct sy; cbn [cond_Zopp]; f_equal; symmetry;
            first [ apply Z.compare_eq_iff; lia
                  | apply Z.compare_lt_iff; lia
                  | apply Z.compare_gt_iff; lia ]).
  (* finite against finite *)
  destruct sx, sy; cbn [cond_Zopp]; f_equal.
  - rewrite Z.compare_opp, <- (pos_compare my mx ey ex Vy Vx).
    rewrite (Z.compare_antisym ey ex).
    destruct (ey ?= ex); try reflexivity. simpl CompOpp.
    rewrite (Pos.compare_cont_antisym mx my Eq). reflexivity.
  - symmetry. apply Z.compare_lt_iff. lia.
  - symmetry. apply Z.compare_gt_iff. lia.
  - apply pos_compare; assumption.
Qed.

(** ** [binary_round_aux] computes [rnd] *)

Lemma fexp_eq (z : Z) : fexp prec emax z = Z.max (z - 53) (-1074).
Proof. reflexivity. Qed.

Lemma pow2_split (a b : Z) : 0 <= a -> 0 <= b -> 2 ^ (a + b) = 2 ^ a * 2 ^ b.
Proof. intros. apply Z.pow_add_r; assumption. Qed.

(** The second normalisation step of [binary_round_aux], on a rounded
    mantissa [q] at the canonical exponent [c]. *)
Lemma round_stage2 (s : bool) (q c : Z) :
  -1074 <= c ->
  (2 ^ 52 <= q <= 2 ^ 53) \/ (c = -1074 /\ 0 <= q <= 2 ^ 52) ->
  let n2 := fexp prec emax (Zdigits2 q + c) - c in
  let r :=
    match q / 2 ^ n2 with
    | Z0 => S754_zero s
    | Zpos m => if c + n2 <=? emax - prec then S754_finite s m (c + n2)
                else S754_infinity s
    | Zneg _ => S754_nan
    end in
  0 <= n2 /\ valid_binary r = true /\ r <> S754_nan /\
  ord r = cond_Zopp s (Z.min (q * 2 ^ (c + 1074)) INF).
Proof.
  intros Hc Hq n2 r. subst r n2. rewrite fexp_eq.
  change (emax - prec) with 971.
  assert (HI : 0 < INF) by reflexivity.
  assert (Hpc : 0 < 2 ^ (c + 1074)) by (apply Z.pow_pos_nonneg; lia).
  destruct (Z.eqb_spec q 0) as [->|Hq0].
  { (* a subnormal rounded to zero *)
    change (Zdigits2 0) with 0.
    assert (c = -1074) by (destruct Hq as [[? _]|[? _]]; [|assumption];
                           exfalso; assert (0 < 2 ^ 52) by reflexivity; lia).
    subst c. simpl. repeat split; try discriminate. destruct s; reflexivity. }
  assert (Hqpos : 0 < q).
  { destruct Hq as [[? _]|[_ ?]]; [|lia]. assert (0 < 2 ^ 52) by reflexivity. lia. }
  destruct (Z.eqb_spec q (2 ^ 53)) as [E53|N53].
  { (* the mantissa overflowed into the next binade *)
    assert (Hd : Zdigits2 q = 54) by (rewrite E53; reflexivity).
    rewrite Hd. replace (Z.max (54 + c - 53) (-1074) - c) with 1 by lia.
    rewrite E53. change (2 ^ 53 / 2 ^ 1) with (Zpos (2 ^ 52)).
    split; [lia|].
    destruct (Z.leb_spec (c + 1) 971) as [Hle|Hgt].
    - assert (Hok : fin_ok (2 ^ 52) (c + 1)).
      { split; [|assumption]. change (Zdigits2 (Z.pos (2 ^ 52))) with 53. lia. }
      split; [apply valid_finite; exact Hok|]. split; [discriminate|].
      pose proof (fin_bounds _ _ Hok) as (_ & _ & _ & Hb).
      cbn [ord]. f_equal.
      replace (c + 1 + 1074) with (1 + (c + 1074)) in * by lia.
      rewrite pow2_split in * by lia.
      change (Z.pos (2 ^ 52)) with (2 ^ 52) in *. change (2 ^ 53) with (2 ^ 52 * 2 ^ 1).
      lia.
    - split; [reflexivity|]. split; [discriminate|].
      cbn [ord]. f_equal.
      assert (2 ^ 2045 <= 2 ^ (c + 1074)) by (apply Z.pow_le_mono_r; lia).
      assert (INF <= 2 ^ 53 * 2 ^ (c + 1074)).
      { unfold INF. change (2 ^ 2098) with (2 ^ 53 * 2 ^ 2045).
        apply Z.mul_le_mono_nonneg_l; [apply Z.pow_nonneg|]; lia. }
      lia. }
  (* the mantissa stays *)
  assert (Hq53 : q < 2 ^ 53).
  { destruct Hq as [[_ ?]|[_ [_ ?]]]; [lia|]. assert (2 ^ 52 < 2 ^ 53) by reflexivity. lia. }
  pose proof (Zdigits2_bounds q Hqpos) as [Hlo Hhi].
  assert (Hd53 : Zdigits2 q <= 53).
  { destruct (Z.leb_spec (Zdigits2 q) 53); [assumption|]. exfalso.
    assert (2 ^ 53 <= 2 ^ (Zdigits2 q - 1)) by (apply Z.pow_le_mono_r; lia). lia. }
  assert (Hcan : Z.max (Zdigits2 q + c - 53) (-1074) = c).
  { destruct Hq as [[Hge _]|[-> _]]; [|lia].
    assert (53 <= Zdigits2 q); [|lia].
    destruct (Z.leb_spec 53 (Zdigits2 q)); [assumption|]. exfalso.
    assert (2 ^ Zdigits2 q <= 2 ^ 52) by (apply Z.pow_le_mono_r; lia). lia. }
  rewrite Hcan, Z.sub_diag, Z.pow_0_r, Z.div_1_r, Z.add_0_r.
  split; [lia|].
  destruct q as [|m|m]; try lia.
  destruct (Z.leb_spec c 971) as [Hle|Hgt].
  - assert (Hok : fin_ok m c) by (split; assumption).
    split; [apply valid_finite; exact Hok|]. split; [discriminate|].
    pose proof (fin_bounds _ _ Hok) as (_ & _ & _ & Hb).
    cbn [ord]. f_equal. lia.
  - split; [reflexivity|]. split; [discriminate|].
    cbn [ord]. f_equal.
    assert (2 ^ 52 <= Z.pos m) by (destruct Hq as [[? _]|[? _]]; [assumption|lia]).
    assert (2 ^ 2046 <= 2 ^ (c + 1074)) by (apply Z.pow_le_mono_r; lia).
    assert (INF <= Z.pos m * 2 ^ (c + 1074)).
    { unfold INF. change (2 ^ 2098) with (2 ^ 52 * 2 ^ 2046).
      apply Z.mul_le_mono_nonneg; lia. }
    lia.
Qed.

Lemma binary_round_aux_ord (s : bool) (P : positive) (E k : Z) :
  0 <= k -> 0 <= E + 1074 + k ->
  E <= fexp prec emax (Zdigits2 (Zpos P) + E) ->
  let r := binary_round_aux prec emax s (Zpos P) E loc_Exact in
  valid_binary r = true /\ r <> S754_nan /\
  ord r = cond_Zopp s (rnd k (Zpos P * 2 ^ (E + 1074 + k))).
Proof.
  intros Hk Hj Hal r. subst r.
  pose proof (Zdigits2_bounds (Zpos P) ltac:(lia)) as [Hlo Hhi].
  pose proof (Zdigits2_pos (Zpos P) ltac:(lia)) as Hdpos.
  remember (Zdigits2 (Zpos P)) as d eqn:Hd.
  remember (fexp prec emax (d + E)) as c eqn:Hc.
  assert (Hceq : c = Z.max (d + E - 53) (-1074)) by (rewrite Hc; reflexivity).
  unfold binary_round_aux, shr_fexp. rewrite <- Hd, <- Hc. cbn [shr_record_of_loc].
  pose proof (shr_round (Zpos P) E (c - E) ltac:(lia) ltac:(lia)) as (H1 & H2 & H3).
  destruct (shr {| shr_m := Zpos P; shr_r := false; shr_s := false |} E (c - E))
    as [mrs' e'].
  cbn [fst snd] in H1, H2, H3. subst e'. rewrite H3.
  replace (E + (c - E)) with c by lia.
  pose proof (rne_div_bounds (Zpos P) (c - E) ltac:(lia)) as [Hq1 Hq2].
  remember (rne_div (Zpos P) (c - E)) as q eqn:Hq.
  assert (Hqb : (2 ^ 52 <= q <= 2 ^ 53) \/ (c = -1074 /\ 0 <= q <= 2 ^ 52)).
  { destruct (Z.leb_spec (-1074) (d + E - 53)) as [Hn|Hsub].
    - left. assert (Hn1 : c - E = d - 53) by lia. rewrite Hn1 in *.
      assert (2 ^ 52 <= Zpos P / 2 ^ (d - 53)).
      { apply div_pow2_ge; try lia. replace (52 + (d - 53)) with (d - 1) by lia. exact Hlo. }
      assert (Zpos P / 2 ^ (d - 53) < 2 ^ 53).
      { apply div_pow2_lt; try lia. replace (53 + (d - 53)) with d by lia. exact Hhi. }
      lia.
    - right. assert (Hc' : c = -1074) by lia. split; [exact Hc'|].
      assert (0 <= Zpos P / 2 ^ (c - E)).
      { apply Z.div_pos; [lia|apply Z.pow_pos_nonneg; lia]. }
      assert (Zpos P / 2 ^ (c - E) < 2 ^ 52).
      { apply div_pow2_lt; try lia.
        eapply Z.lt_le_trans; [exact Hhi|]. apply Z.pow_le_mono_r; lia. }
      lia. }
  pose proof (round_stage2 s q c ltac:(lia) Hqb) as (Hn2 & Hv & Hnn & Hord).
  cbv zeta in Hn2, Hv, Hnn, Hord.
  assert (Hq0 : 0 <= q).
  { destruct Hqb as [[? _]|[_ [? _]]]; [|assumption].
    assert (0 < 2 ^ 52) by reflexivity. lia. }
  pose proof (shr_round q c (fexp prec emax (Zdigits2 q + c) - c) Hq0 Hn2) as (G1 & G2 & _).
  destruct (shr {| shr_m := q; shr_r := false; shr_s := false |} c
                (fexp prec emax (Zdigits2 q + c) - c)) as [mrs'' e''].
  cbn [fst snd] in G1, G2. subst e''. rewrite G2.
  split; [exact Hv|]. split; [exact Hnn|].
  rewrite Hord. f_equal. unfold rnd.
  rewrite Zdigits2_mul_pow2 by lia. rewrite <- Hd.
  replace (Z.max (d + (E + 1074 + k) - k - 53) 0) with (c + 1074) by lia.
  replace (c + 1074 + k) with ((c - E) + (E + 1074 + k)) by lia.
  rewrite rne_div_shift by lia. rewrite <- Hq. reflexivity.
Qed.

Lemma rnd_overflow (k v : Z) : 0 <= k -> INF * 2 ^ k <= v -> rnd k v = INF.
Proof.
  intros Hk Hv. unfold rnd.
  assert (HI : 0 < INF) by reflexivity.
  assert (Hpk : 0 < 2 ^ k) by (apply Z.pow_pos_nonneg; lia).
  assert (Hvpos : 0 < v) by nia.
  pose proof (Zdigits2_bounds v Hvpos) as [Hlo Hhi].
  assert (Hd : 2098 + k < Zdigits2 v).
  { destruct (Z.ltb_spec (2098 + k) (Zdigits2 v)); [assumption|]. exfalso.
    assert (2 ^ Zdigits2 v <= 2 ^ (2098 + k)).
    { apply Z.pow_le_mono_r; lia. }
    rewrite pow2_split in H0 by lia. fold INF in H0. lia. }
  replace (Z.max (Zdigits2 v - k - 53) 0) with (Zdigits2 v - k - 53) by lia.
  replace (Zdigits2 v - k - 53 + k) with (Zdigits2 v - 53) by lia.
  pose proof (rne_div_bounds v (Zdigits2 v - 53) ltac:(lia)) as [Hq _].
  assert (2 ^ 52 <= v / 2 ^ (Zdigits2 v - 53)).
  { apply div_pow2_ge; try lia.
    replace (52 + (Zdigits2 v - 53)) with (Zdigits2 v - 1) by lia. exact Hlo. }
  assert (INF <= rne_div v (Zdigits2 v - 53) * 2 ^ (Zdigits2 v - k - 53)); [|lia].
  assert (2 ^ 2046 <= 2 ^ (Zdigits2 v - k - 53)) by (apply Z.pow_le_mono_r; lia).
  unfold INF. change (2 ^ 2098) with (2 ^ 52 * 2 ^ 2046).
  apply Z.mul_le_mono_nonneg; lia.
Qed.

Lemma rnd_fin (k : Z) (m : positive) (e : Z) :
  0 <= k -> fin_ok m e ->
  rnd k (Zpos m * 2 ^ (e + 1074) * 2 ^ k) = Zpos m * 2 ^ (e + 1074).
Proof.
  intros Hk Hok. pose proof (fin_bounds m e Hok) as (He & _ & _ & Hb).
  destruct Hok as [Hcan _].
  apply rnd_id; try lia.
Qed.

(** ** Multiplication and addition *)

Lemma SFmul_finite (sx sy : bool) (mx my : positive) (ex ey : Z) :
  fin_ok mx ex -> fin_ok my ey ->
  let r := SFmul prec emax (S754_finite sx mx ex) (S754_finite sy my ey) in
  valid_binary r = true /\ r <> S754_nan /\
  ord r = cond_Zopp (xorb sx sy)
            (rnd 1074 ((Zpos mx * 2 ^ (ex + 1074)) * (Zpos my * 2 ^ (ey + 1074)))).
Proof.
  intros Hx Hy r. subst r. cbn [SFmul].
  pose proof (fin_bounds mx ex Hx) as (Hex & Hmx & Hnx & _).
  pose proof (fin_bounds my ey Hy) as (Hey & Hmy & Hny & _).
  assert (Hal : ex + ey <= fexp prec emax (Zdigits2 (Zpos (mx * my)) + (ex + ey))).
  { rewrite fexp_eq.
    destruct (Z.leb_spec (ex + ey) (-1074)); [lia|].
    assert (2 ^ 52 <= Zpos (mx * my)).
    { rewrite Pos2Z.inj_mul.
      destruct (Z.ltb_spec (-1074) ex).
      - specialize (Hnx ltac:(lia)). nia.
      - specialize (Hny ltac:(lia)). nia. }
    pose proof (Zdigits2_mono (2 ^ 52) (Zpos (mx * my)) ltac:(lia)) as Hd.
    change (Zdigits2 (2 ^ 52)) with 53 in Hd. lia. }
  pose proof (binary_round_aux_ord (xorb sx sy) (mx * my) (ex + ey) 1074
                ltac:(lia) ltac:(lia) Hal) as (Hv & Hn & Ho).
  split; [exact Hv|]. split; [exact Hn|].
  rewrite Ho. f_equal. f_equal.
  rewrite Pos2Z.inj_mul.
  replace (ex + ey + 1074 + 1074) with ((ex + 1074) + (ey + 1074)) by lia.
  rewrite pow2_split by lia. ring.
Qed.

Lemma Zpos_iter_xO (m d : positive) :
  Zpos (Pos.iter xO m d) = Zpos m * 2 ^ Zpos d.
Proof.
  induction d as [|d IH] using Pos.peano_ind.
  - simpl. lia.
  - rewrite Pos.iter_succ, Pos2Z.inj_xO, IH, Pos2Z.inj_succ, Z.pow_succ_r by lia. ring.
Qed.

Lemma shl_align_spec (m : positive) (e e' : Z) :
  let r := shl_align m e e' in
  snd r = Z.min e e' /\ Zpos (fst r) = Zpos m * 2 ^ (e - Z.min e e').
Proof.
  unfold shl_align. destruct (e' - e) as [|d|d] eqn:Hd; cbn [fst snd].
  - replace (Z.min e e') with e by lia. rewrite Z.sub_diag. split; lia.
  - replace (Z.min e e') with e by lia. rewrite Z.sub_diag. split; lia.
  - replace (Z.min e e') with e' by lia. split; [reflexivity|].
    rewrite Zpos_iter_xO. f_equal. f_equal. lia.
Qed.

Lemma binary_round_ord (s : bool) (p : positive) (e : Z) :
  -1074 <= e ->
  let r := binary_round prec emax s p e in
  valid_binary r = true /\ r <> S754_nan /\
  ord r = cond_Zopp s (rnd 0 (Zpos p * 2 ^ (e + 1074))).
Proof.
  intros He r. subst r. unfold binary_round.
  change (Zpos (digits2_pos p)) with (Zdigits2 (Zpos p)).
  pose proof (shl_align_spec p e (fexp prec emax (Zdigits2 (Zpos p) + e))) as [Hs Hf].
  cbv zeta in Hs, Hf.
  destruct (shl_align p e (fexp prec emax (Zdigits2 (Zpos p) + e))) as [mz ez].
  cbn [fst snd] in Hs, Hf.
  rewrite fexp_eq in Hs, Hf.
  assert (Hez : -1074 <= ez) by lia.
  assert (Hal : ez <= fexp prec emax (Zdigits2 (Zpos mz) + ez)).
  { rewrite fexp_eq, Hf, Zdigits2_mul_pow2 by lia. lia. }
  pose proof (binary_round_aux_ord s mz ez 0 ltac:(lia) ltac:(lia) Hal) as (Hv & Hn & Ho).
  split; [exact Hv|]. split; [exact Hn|].
  rewrite Ho. f_equal. f_equal. rewrite Hf, Z.add_0_r.
  rewrite <- Z.mul_assoc, <- pow2_split by lia. f_equal. f_equal. lia.
Qed.

Lemma SFadd_finite_pos (mx my : positive) (ex ey : Z) :
  fin_ok mx ex -> fin_ok my ey ->
  let r := SFadd prec emax (S754_finite false mx ex) (S754_finite false my ey) in
  valid_binary r = true /\ r <> S754_nan /\
  ord r = rnd 0 (Zpos mx * 2 ^ (ex + 1074) + Zpos my * 2 ^ (ey + 1074)).
Proof.
  intros Hx Hy r. subst r. cbn [SFadd cond_Zopp].
  pose proof (fin_bounds mx ex Hx) as (Hex & _).
  pose proof (fin_bounds my ey Hy) as (Hey & _).
  pose proof (shl_align_spec mx ex (Z.min ex ey)) as [_ Hfx].
  pose proof (shl_align_spec my ey (Z.min ex ey)) as [_ Hfy].
  cbv zeta in Hfx, Hfy.
  replace (Z.min ex (Z.min ex ey)) with (Z.min ex ey) in Hfx by lia.
  replace (Z.min ey (Z.min ex ey)) with (Z.min ex ey) in Hfy by lia.
  rewrite <- Pos2Z.inj_add. cbn [binary_normalize].
  pose proof (binary_round_ord false
                (fst (shl_align mx ex (Z.min ex ey)) + fst (shl_align my ey (Z.min ex ey)))
                (Z.min ex ey) ltac:(lia)) as (Hv & Hn & Ho).
  split; [exact Hv|]. split; [exact Hn|].
  rewrite Ho. cbn [cond_Zopp]. f_equal.
  rewrite Pos2Z.inj_add, Hfx, Hfy, Z.mul_add_distr_r.
  rewrite <- !Z.mul_assoc, <- !pow2_split by lia.
  f_equal; f_equal; f_equal; lia.
Qed.

(** ** Primitive floats through the embedding *)

Lemma SFcompare_refl (x : spec_float) :
  x <> S754_nan -> SFcompare x x = Some Eq.
Proof.
  destruct x as [s|s| |s m e]; try congruence; intros _; simpl.
  - reflexivity.
  - destruct s; reflexivity.
  - rewrite Z.compare_refl.
    change (Pos.compare_cont Eq m m) with (Pos.compare m m).
    rewrite Pos.compare_refl. destruct s; reflexivity.
Qed.

Lemma is_nan_false (x : float) : is_nan x = false <-> Prim2SF x <> S754_nan.
Proof.
  unfold is_nan. rewrite FloatAxioms.eqb_spec. unfold SFeqb. split.
  - intros H E. rewrite E in H. discriminate.
  - intros H. rewrite SFcompare_refl by assumption. reflexivity.
Qed.

Lemma compare_Ord (x y : float) :
  is_nan x = false -> is_nan y = false ->
  SFcompare (Prim2SF x) (Prim2SF y) = Some (Ord x ?= Ord y).
Proof.
  intros Hx Hy. apply compare_ord; try apply Prim2SF_valid; apply is_nan_false; assumption.
Qed.

Lemma ltb_Ord (x y : float) :
  is_nan x = false -> is_nan y = false -> (x <? y)%float = (Ord x <? Ord y).
Proof.
  intros Hx Hy. rewrite FloatAxioms.ltb_spec. unfold SFltb. rewrite compare_Ord by assumption.
  unfold Z.ltb. destruct (Ord x ?= Ord y); reflexivity.
Qed.

Lemma leb_Ord (x y : float) :
  is_nan x = false -> is_nan y = false -> (x <=? y)%float = (Ord x <=? Ord y).
Proof.
  intros Hx Hy. rewrite FloatAxioms.leb_spec. unfold SFleb. rewrite compare_Ord by assumption.
  unfold Z.leb. destruct (Ord x ?= Ord y); reflexivity.
Qed.

Lemma Ord_bounds (x : float) : - INF <= Ord x <= INF.
Proof.
  unfold Ord. pose proof (Prim2SF_valid x) as Hv.
  assert (0 < INF) by reflexivity.
  destruct (Prim2SF x) as [s|s| |s m e]; cbn [ord]; try lia.
  - destruct s; cbn [cond_Zopp]; lia.
  - apply valid_finite in Hv. pose proof (fin_bounds m e Hv) as (_ & _ & _ & Hb).
    destruct s; cbn [cond_Zopp]; lia.
Qed.

Lemma abs_nan (x : float) : is_nan (abs x) = is_nan x.
Proof.
  destruct (is_nan x) eqn:Hx.
  - destruct (is_nan (abs x)) eqn:Ha; [reflexivity|].
    apply is_nan_false in Ha. rewrite FloatAxioms.abs_spec in Ha.
    destruct (Prim2SF x) eqn:E; try (exfalso; apply Ha; reflexivity).
    all: assert (is_nan x = false) by (apply is_nan_false; rewrite E; discriminate);
      congruence.
  - apply is_nan_false. apply is_nan_false in Hx. rewrite FloatAxioms.abs_spec.
    destruct (Prim2SF x); try discriminate. congruence.
Qed.

Lemma abs_Ord (x : float) : Ord (abs x) = Z.abs (Ord x).
Proof.
  unfold Ord. rewrite FloatAxioms.abs_spec. pose proof (Prim2SF_valid x) as Hv.
  assert (0 < INF) by reflexivity.
  destruct (Prim2SF x) as [s|s| |s m e]; cbn [SFabs ord cond_Zopp]; try lia.
  - destruct s; cbn [cond_Zopp]; lia.
  - apply valid_finite in Hv. pose proof (fin_bounds m e Hv) as (_ & _ & _ & Hb).
    destruct s; cbn [cond_Zopp]; lia.
Qed.

(** Multiplication of finite numbers. *)
Lemma mul_Ord (x y : float) :
  is_nan x = false -> is_nan y = false ->
  Z.abs (Ord x) < INF -> Z.abs (Ord y) < INF ->
  is_nan (x * y)%float = false /\
  Ord (x * y)%float
  = Z.sgn (Ord x) * Z.sgn (Ord y) * rnd 1074 (Z.abs (Ord x) * Z.abs (Ord y)).
Proof.
  intros Nx Ny Fx Fy. rewrite is_nan_false in *. unfold Ord in *.
  rewrite FloatAxioms.mul_spec. unfold SF64mul.
  pose proof (Prim2SF_valid x) as Vx. pose proof (Prim2SF_valid y) as Vy.
  assert (HI : 0 < INF) by reflexivity.
  destruct (Prim2SF x) as [sx|sx| |sx mx ex]; try congruence;
    destruct (Prim2SF y) as [sy|sy| |sy my ey]; try congruence;
    try (exfalso; destruct sx; cbn [ord cond_Zopp] in Fx; lia);
    try (exfalso; destruct sy; cbn [ord cond_Zopp] in Fy; lia).
  - cbn [SFmul ord]. split; [discriminate|]. rewrite rnd_zero; lia.
  - cbn [SFmul ord]. split; [discriminate|]. lia.
  - cbn [SFmul ord]. split; [discriminate|]. lia.
  - apply valid_finite in Vx, Vy.
    pose proof (SFmul_finite sx sy mx my ex ey Vx Vy) as (_ & Hn & Ho).
    cbv zeta in Hn, Ho. split; [exact Hn|]. rewrite Ho.
    pose proof (fin_bounds mx ex Vx) as (_ & _ & _ & Bx).
    pose proof (fin_bounds my ey Vy) as (_ & _ & _ & By).
    cbn [ord].
    destruct sx, sy; cbn [cond_Zopp xorb];
      rewrite ?Z.abs_opp, ?Z.sgn_opp, !Z.abs_eq, !Z.sgn_pos by lia; lia.
Qed.

(** An infinity times a positive number. *)
Lemma mul_Ord_inf (x y : float) :
  is_nan x = false -> is_nan y = false ->
  Z.abs (Ord x) = INF -> 0 < Ord y ->
  is_nan (x * y)%float = false /\ Ord (x * y)%float = Ord x.
Proof.
  intros Nx Ny Fx Py. rewrite is_nan_false in *. unfold Ord in *.
  rewrite FloatAxioms.mul_spec. unfold SF64mul.
  pose proof (Prim2SF_valid x) as Vx. pose proof (Prim2SF_valid y) as Vy.
  assert (HI : 0 < INF) by reflexivity.
  destruct (Prim2SF x) as [sx|sx| |sx mx ex]; try congruence.
  - cbn [ord] in Fx. lia.
  - destruct (Prim2SF y) as [sy|sy| |sy my ey]; try congruence.
    + cbn [ord] in Py. lia.
    + destruct sy; cbn [ord cond_Zopp] in Py; [lia|].
      cbn [SFmul]. rewrite xorb_false_r. split; [discriminate|reflexivity].
    + apply valid_finite in Vy. pose proof (fin_bounds my ey Vy) as (_ & _ & _ & By).
      destruct sy; cbn [ord cond_Zopp] in Py; [lia|].
      cbn [SFmul]. rewrite xorb_false_r. split; [discriminate|reflexivity].
  - apply valid_finite in Vx. pose proof (fin_bounds mx ex Vx) as (_ & _ & _ & Bx).
    destruct sx; cbn [ord cond_Zopp] in Fx; lia.
Qed.

(** Addition of non-negative numbers. *)
Lemma add_Ord (x y : float) :
  is_nan x = false -> is_nan y = false ->
  0 <= Ord x -> 0 <= Ord y ->
  is_nan (x + y)%float = false /\
  Ord (x + y)%float = rnd 0 (Ord x + Ord y).
Proof.
  intros Nx Ny Px Py. rewrite is_nan_false in *. unfold Ord in *.
  rewrite FloatAxioms.add_spec. unfold SF64add.
  pose proof (Prim2SF_valid x) as Vx. pose proof (Prim2SF_valid y) as Vy.
  assert (HI : 0 < INF) by reflexivity.
  assert (Hinf : forall v, 0 <= v -> rnd 0 (INF + v) = INF).
  { intros v Hv. apply rnd_overflow; lia. }
  assert (Hinf' : forall v, 0 <= v -> rnd 0 (v + INF) = INF).
  { intros v Hv. apply rnd_overflow; lia. }
  assert (Hfin : forall m e, fin_ok m e ->
                   rnd 0 (Zpos m * 2 ^ (e + 1074)) = Zpos m * 2 ^ (e + 1074)).
  { intros m e Hok. pose proof (rnd_fin 0 m e ltac:(lia) Hok) as H.
    rewrite Z.pow_0_r, Z.mul_1_r in H. exact H. }
  destruct (Prim2SF x) as [sx|sx| |sx mx ex]; try congruence;
    destruct (Prim2SF y) as [sy|sy| |sy my ey]; try congruence;
    try (apply valid_finite in Vx; pose proof (fin_bounds _ _ Vx) as (_ & _ & _ & Bx));
    try (apply valid_finite in Vy; pose proof (fin_bounds _ _ Vy) as (_ & _ & _ & By));
    try (destruct sx; cbn [ord cond_Zopp] in Px; try lia);
    try (destruct sy; cbn [ord cond_Zopp] in Py; try lia);
    cbn [SFadd ord cond_Zopp];
    try (split; [discriminate|]);
    rewrite ?Z.add_0_l, ?Z.add_0_r, ?Hfin, ?Hinf, ?Hinf', ?rnd_zero by (assumption || lia);
    try reflexivity.
  pose proof (SFadd_finite_pos mx my ex ey Vx Vy) as (_ & Hn & Ho).
  cbv zeta in Hn, Ho. split; [exact Hn|exact Ho].
Qed.

Local Close Scope Z_scope.

(* ===================================================================== *)
(** * Part IV: the hand tracker                                          *)
(* ===================================================================== *)

Section TrackerFacts.
Import Store Tracker.
Variable hypot : float -> float -> float -> float.

Lemma classify_cases (n : nat) :
  ((4 <= n)%nat -> Tracker.classify n = CLOSED) /\
  ((n <= 1)%nat -> Tracker.classify n = OPEN) /\
  ((2 <= n <= 3)%nat -> Tracker.classify n = NEUTRAL).
Proof.
  unfold Tracker.classify.
  destruct (Nat.leb_spec 4 n), (Nat.leb_spec n 1);
    repeat split; intros; try reflexivity; lia.
Qed.

Lemma foldedFingers_le (hand : list Landmark) (wrist : Landmark) :
  (foldedFingers hypot hand wrist <= 4)%nat.
Proof.
  unfold foldedFingers.
  etransitivity; [apply List.filter_length_le|]. reflexivity.
Qed.

(** With 21 landmarks no index read throws, and the sequential counter of
    the code ends at the number of folded fingers. *)
Lemma handFound_ok (hand : list Landmark) (s : AppState) :
  (21 <= List.length hand)%nat ->
  exists wrist tip,
    hand !! 0%nat = Some wrist /\ hand !! 8%nat = Some tip /\
    handFound hypot hand s =
      (Some tt,
       setGesture (Some (Tracker.classify (foldedFingers hypot hand wrist)))
         (setHandPosition
            (Some (mkV3 ((0.5 - lmx tip) * 10) ((0.5 - lmy tip) * 8) (lmz tip * -10)))
            (setIsHandDetected true s))).
Proof.
  intros Hlen.
  do 21 (destruct hand as [|? hand]; [simpl in Hlen; lia|]).
  eexists _, _. split; [reflexivity|]. split; [reflexivity|].
  unfold handFound, countIfFolded, isFingerFolded, foldedFingers, fingerFolded,
    fingers, bind, index, update, ret; simpl.
  repeat match goal with |- context [if ?b then _ else _] => destruct b end;
    reflexivity.
Qed.

Lemma handLost_ok (s : AppState) :
  handLost s =
    (Some tt, setGesture None (setHandPosition None (setIsHandDetected false s))).
Proof. reflexivity. Qed.

Lemma predictWebcam_agree (f : VideoFrame) (t : float) (s : AppState) :
  wellFormed f = true -> handFieldsAgree s ->
  handFieldsAgree (snd (predictWebcam hypot f t s)).
Proof.
  intros Hwf Hs. unfold predictWebcam.
  destruct (ready f); simpl; [|exact Hs].
  destruct (currentTime f =? t); simpl; [exact Hs|].
  unfold wellFormed in Hwf.
  destruct (landmarks f) as [[|hand rest]|]; unfold bind.
  - rewrite handLost_ok. simpl. split; auto.
  - apply Nat.leb_le in Hwf.
    destruct (handFound_ok hand s Hwf) as (wrist & tip & _ & _ & ->). simpl.
    split; [discriminate | intros [? _]; discriminate].
  - rewrite handLost_ok. simpl. split; auto.
Qed.

Lemma track_agree (fs : list VideoFrame) :
  forall (t : float) (s : AppState),
    forallb wellFormed fs = true -> handFieldsAgree s ->
    handFieldsAgree (track hypot fs t s).
Proof.
  induction fs as [|f fs IH]; intros t s Hwf Hs; simpl; [exact Hs|].
  simpl in Hwf. apply andb_true_iff in Hwf as [Hf Hfs].
  pose proof (predictWebcam_agree f t s Hf Hs) as Hstep.
  destruct (predictWebcam hypot f t s) as [[t'|] s']; simpl in Hstep.
  - apply IH; assumption.
  - exact Hstep.
Qed.

End TrackerFacts.

(** C1: for a detected hand (21 landmarks) the tracker stores the gesture
    decided by the number [n] of the four fingers (index, middle, ring,
    pinky; no thumb) whose tip is strictly closer to the wrist than their
    PIP joint: CLOSED when [n >= 4] (all four, as [n <= 4]), OPEN when
    [n <= 1], NEUTRAL when [n] is 2 or 3. *)
Theorem gesture_by_folded_count
        (hypot : float -> float -> float -> float)
        (f : Tracker.VideoFrame) (t : float) (s : Store.AppState)
        (hand : list Tracker.Landmark) (rest : list (list Tracker.Landmark)) :
  Tracker.ready f = true ->
  (Tracker.currentTime f =? t) = false ->
  Tracker.landmarks f = Some (hand :: rest) ->
  (21 <= List.length hand)%nat ->
  exists wrist,
    hand !! 0%nat = Some wrist /\
    let n := foldedFingers hypot hand wrist in
    let out := Tracker.predictWebcam hypot f t s in
    fst out = Some (Tracker.currentTime f) /\
    Store.isHandDetected (snd out) = true /\
    (n <= 4)%nat /\
    ((4 <= n)%nat -> Store.gesture (snd out) = Some Store.CLOSED) /\
    ((n <= 1)%nat -> Store.gesture (snd out) = Some Store.OPEN) /\
    ((2 <= n <= 3)%nat -> Store.gesture (snd out) = Some Store.NEUTRAL).
Proof.
  intros Hready Htime Hlm Hlen.
  destruct (handFound_ok hypot hand s Hlen) as (wrist & tip & Hw & _ & Hrun).
  exists wrist. split; [exact Hw|].
  unfold Tracker.predictWebcam. rewrite Hready, Htime, Hlm. simpl.
  unfold Tracker.bind. rewrite Hrun. simpl.
  destruct (classify_cases (foldedFingers hypot hand wrist)) as (Hc & Ho & Hn).
  pose proof (foldedFingers_le hypot hand wrist) as Hle.
  repeat split; intros; f_equal; auto.
Qed.

Lemma gesture_by_folded_count_witness :
  exists wrist,
    two_folded_hand !! 0%nat = Some wrist /\
    let n := foldedFingers MathJS.Math_hypot two_folded_hand wrist in
    let out := Tracker.predictWebcam MathJS.Math_hypot
                 (Tracker.mkVideoFrame true 0 (Some [two_folded_hand])) (-1) Store.initial in
    fst out = Some 0 /\
    Store.isHandDetected (snd out) = true /\
    (n <= 4)%nat /\
    ((4 <= n)%nat -> Store.gesture (snd out) = Some Store.CLOSED) /\
    ((n <= 1)%nat -> Store.gesture (snd out) = Some Store.OPEN) /\
    ((2 <= n <= 3)%nat -> Store.gesture (snd out) = Some Store.NEUTRAL).
Proof.
  apply (gesture_by_folded_count MathJS.Math_hypot
           (Tracker.mkVideoFrame true 0 (Some [two_folded_hand])) (-1) Store.initial
           two_folded_hand []).
  - reflexivity.
  - reflexivity.
  - reflexivity.
  - vm_compute. lia.
Defined.

Example two_folded_hand_is_neutral :
  Store.gesture (snd (Tracker.predictWebcam MathJS.Math_hypot
                        (Tracker.mkVideoFrame true 0 (Some [two_folded_hand])) (-1)
                        Store.initial))
  = Some Store.NEUTRAL.
Proof. vm_compute. reflexivity. Qed.

(** C8: a processed video frame without a hand clears position, detection
    flag and gesture; and every tracker step (on well-formed frames) keeps
    the three hand fields in agreement: the flag is false exactly when
    position and gesture are both null. *)
Theorem no_hand_clears_hand_fields (hypot : float -> float -> float -> float) :
  (forall (f : Tracker.VideoFrame) (t : float) (s : Store.AppState),
      Tracker.ready f = true ->
      (Tracker.currentTime f =? t) = false ->
      (Tracker.landmarks f = None \/ Tracker.landmarks f = Some []) ->
      let s' := snd (Tracker.predictWebcam hypot f t s) in
      Store.handPosition s' = None /\
      Store.isHandDetected s' = false /\
      Store.gesture s' = None) /\
  (forall (f : Tracker.VideoFrame) (t : float) (s : Store.AppState),
      wellFormed f = true -> handFieldsAgree s ->
      handFieldsAgree (snd (Tracker.predictWebcam hypot f t s))) /\
  (forall (fs : list Tracker.VideoFrame),
      forallb wellFormed fs = true ->
      handFieldsAgree (Tracker.track hypot fs (-1) Store.initial)).
Proof.
  split; [|split].
  - intros f t s Hready Htime Hlm. unfold Tracker.predictWebcam.
    rewrite Hready, Htime. simpl.
    destruct Hlm as [-> | ->]; unfold Tracker.bind; rewrite handLost_ok;
      simpl; auto.
  - apply predictWebcam_agree.
  - intros fs Hwf. apply track_agree; [exact Hwf|].
    split; [intros _; split; reflexivity | reflexivity].
Qed.

Lemma no_hand_clears_hand_fields_witness :
  (let s' := snd (Tracker.predictWebcam MathJS.Math_hypot
                    (Tracker.mkVideoFrame true 1 (Some [])) 0
                    (Store.mkApp (Some (mkV3 1 2 3)) true (Some Store.OPEN)
                                 Store.DEFAULT_CONFIG false None)) in
   Store.handPosition s' = None /\
   Store.isHandDetected s' = false /\
   Store.gesture s' = None) /\
  handFieldsAgree
    (Tracker.track MathJS.Math_hypot
       [Tracker.mkVideoFrame true 0 (Some [two_folded_hand]);
        Tracker.mkVideoFrame true 1 None] (-1) Store.initial).
Proof.
  split.
  - apply (proj1 (no_hand_clears_hand_fields MathJS.Math_hypot)).
    + reflexivity.
    + reflexivity.
    + right. reflexivity.
  - apply (proj2 (proj2 (no_hand_clears_hand_fields MathJS.Math_hypot))).
    vm_compute. reflexivity.
Defined.

(* ===================================================================== *)
(** * Part V: the store and the config generator                         *)
(* ===================================================================== *)

Lemma lookup_spread (a b : gmap string Store.jsval) (k : string) :
  Store.spread a b !! k = match b !! k with Some v => Some v | None => a !! k end.
Proof.
  unfold Store.spread. rewrite lookup_union. destruct (b !! k), (a !! k); reflexivity.
Qed.

Lemma generateParticleConfig_fails
      (JSON_parse : string -> option (gmap string Store.jsval)) (o : Controls.ApiOutcome) :
  Controls.generateParticleConfig JSON_parse o = None <->
  (o = Controls.Rejected \/
   o = Controls.Resolved None \/
   o = Controls.Resolved (Some ""%string) \/
   exists text, o = Controls.Resolved (Some text) /\ JSON_parse text = None).
Proof.
  split.
  - destruct o as [|[text|]]; simpl; auto.
    destruct (String.eqb_spec text ""); [subst; auto|].
    intros H. right. right. right. exists text. auto.
  - intros [-> | [-> | [-> | (text & -> & H)]]]; simpl; auto.
    destruct (String.eqb text ""); auto.
Qed.

(** C3: [setConfig] merges a partial response into the configuration: a
    field absent from the response keeps its prior value, a field present
    in it takes the value of the response; [handleSubmit] stores exactly
    this merge when the prompt is one that [trim] does not empty and the
    generation succeeds. *)
Theorem setConfig_merges_response
        (JSON_parse : string -> option (gmap string Store.jsval))
        (s : Store.AppState) (newConfig : gmap string Store.jsval) :
  (forall k : string,
      newConfig !! k = None ->
      Store.config (Store.setConfig newConfig s) !! k = Store.config s !! k) /\
  (forall (k : string) (v : Store.jsval),
      newConfig !! k = Some v ->
      Store.config (Store.setConfig newConfig s) !! k = Some v) /\
  (forall (o : Controls.ApiOutcome) (l : Controls.Local),
      Controls.blank (Controls.prompt l) = false ->
      Controls.generateParticleConfig JSON_parse o = Some newConfig ->
      Store.config (fst (Controls.handleSubmit JSON_parse o (s, l)))
      = Store.config (Store.setConfig newConfig s)).
Proof.
  split; [|split].
  - intros k Hk. simpl. rewrite lookup_spread, Hk. reflexivity.
  - intros k v Hk. simpl. rewrite lookup_spread, Hk. reflexivity.
  - intros o l Hb Hgen. unfold Controls.handleSubmit. rewrite Hb, Hgen. reflexivity.
Qed.

Lemma setConfig_merges_response_witness :
  Store.config (Store.setConfig cyberpunk_rain Store.initial) !! "interactionRadius"
  = Store.config Store.initial !! "interactionRadius" /\
  Store.config (Store.setConfig cyberpunk_rain Store.initial) !! "particleCount"
  = Store.config Store.initial !! "particleCount" /\
  Store.config (Store.setConfig cyberpunk_rain Store.initial) !! "speed"
  = Some (Store.JNum 2.0) /\
  Store.config (fst (Controls.handleSubmit (fun _ => Some cyberpunk_rain)
                       (Controls.Resolved (Some "{}"%string))
                       (Store.initial, Controls.mkLocal (utf16 "Cyberpunk Rain") false)))
  = Store.config (Store.setConfig cyberpunk_rain Store.initial).
Proof.
  pose proof (setConfig_merges_response (fun _ => Some cyberpunk_rain)
                Store.initial cyberpunk_rain) as (Habsent & Hpresent & Hsubmit).
  split; [|split; [|split]].
  - apply Habsent. reflexivity.
  - apply Habsent. reflexivity.
  - apply Hpresent. reflexivity.
  - apply Hsubmit; reflexivity.
Defined.

(** C4: when the generation fails (the request rejects, the response has
    no text, or [JSON.parse] throws) the stored configuration is unchanged
    and the store's error is the string "Failed to generate config. Check
    API Key or try again.", which the error box of the open panel then
    shows;
    nothing else of the store changes and the prompt is kept for a
    resubmission. *)
Theorem failed_generation_keeps_config
        (JSON_parse : string -> option (gmap string Store.jsval))
        (o : Controls.ApiOutcome) (s : Store.AppState) (l : Controls.Local) :
  Controls.blank (Controls.prompt l) = false ->
  (o = Controls.Rejected \/
   o = Controls.Resolved None \/
   o = Controls.Resolved (Some ""%string) \/
   exists text, o = Controls.Resolved (Some text) /\ JSON_parse text = None) ->
  let out := Controls.handleSubmit JSON_parse o (s, l) in
  let message := "Failed to generate config. Check API Key or try again."%string in
  Store.config (fst out) = Store.config s /\
  Store.error (fst out) = Some message /\
  Controls.errorBox true (fst out) = Some message /\
  fst out = Store.mkApp (Store.handPosition s) (Store.isHandDetected s) (Store.gesture s)
                        (Store.config s) (Store.isConfiguring s) (Some message) /\
  snd out = Controls.mkLocal (Controls.prompt l) false.
Proof.
  intros Hb Hfail. apply generateParticleConfig_fails in Hfail.
  unfold Controls.handleSubmit. rewrite Hb, Hfail. simpl.
  repeat split.
Qed.

Lemma failed_generation_keeps_config_witness :
  let out := Controls.handleSubmit (fun _ => None)
               (Controls.Resolved (Some "not json"%string))
               (Store.initial, Controls.mkLocal (utf16 "Mars Dust") false) in
  let message := "Failed to generate config. Check API Key or try again."%string in
  Store.config (fst out) = Store.DEFAULT_CONFIG /\
  Store.error (fst out) = Some message /\
  Controls.errorBox true (fst out) = Some message /\
  fst out = Store.mkApp None false None Store.DEFAULT_CONFIG false (Some message) /\
  snd out = Controls.mkLocal (utf16 "Mars Dust") false.
Proof.
  apply (failed_generation_keeps_config (fun _ => None)
           (Controls.Resolved (Some "not json"%string))
           Store.initial (Controls.mkLocal (utf16 "Mars Dust") false)).
  - reflexivity.
  - right. right. right. exists "not json"%string. split; reflexivity.
Defined.

(* ===================================================================== *)
(** * Part VI: the renderer, scale smoothing                              *)
(* ===================================================================== *)

Lemma currentScale_useFrame (f : Particles.Frame) (r : Particles.Renderer) :
  Particles.currentScale (Particles.useFrame f r)
  = MathUtils.lerp (Particles.currentScale r)
      (Particles.targetScale (Particles.isHandDetected f) (Particles.gesture f))
      Particles.LERP_SPEED.
Proof.
  unfold Particles.useFrame.
  destruct (Particles.meshRef f); [|reflexivity].
  destruct (Particles.isHandDetected f), (Particles.handPosition f); reflexivity.
Qed.

Lemma uExpansion_useFrame (f : Particles.Frame) (r : Particles.Renderer) :
  Particles.materialRef f = true ->
  Particles.uExpansion (Particles.uniforms (Particles.useFrame f r))
  = Particles.currentScale (Particles.useFrame f r).
Proof.
  intros Hm. unfold Particles.useFrame. rewrite Hm.
  destruct (Particles.meshRef f); [|reflexivity].
  destruct (Particles.isHandDetected f), (Particles.handPosition f); reflexivity.
Qed.

(** C5: on every frame the target scale is 0.4 for a detected CLOSED hand,
    1.3 for a detected OPEN hand and 1.0 otherwise (NEUTRAL, null, or no
    hand), and the new current scale is the three.js [lerp] of the old one
    toward that target with factor 0.12. *)
Theorem scale_blends_toward_gesture_target
        (f : Particles.Frame) (r : Particles.Renderer) :
  let target :=
    match Particles.isHandDetected f, Particles.gesture f with
    | true, Some Store.CLOSED => 0.4
    | true, Some Store.OPEN => 1.3
    | true, Some Store.NEUTRAL => 1.0
    | true, None => 1.0
    | false, _ => 1.0
    end in
  Particles.currentScale (Particles.useFrame f r)
  = (1 - 0.12) * Particles.currentScale r + 0.12 * target.
Proof.
  rewrite currentScale_useFrame. unfold MathUtils.lerp, Particles.LERP_SPEED.
  destruct (Particles.isHandDetected f), (Particles.gesture f) as [[]|]; reflexivity.
Qed.

Example scale_trajectory :
  List.map Particles.currentScale
    [Particles.run [gestureFrame None] (Particles.initial 2.0);
     Particles.run [gestureFrame None; gestureFrame (Some Store.OPEN)] (Particles.initial 2.0);
     Particles.run [gestureFrame None; gestureFrame (Some Store.OPEN);
                    gestureFrame (Some Store.OPEN)] (Particles.initial 2.0);
     Particles.run [gestureFrame None; gestureFrame (Some Store.OPEN);
                    gestureFrame (Some Store.OPEN); gestureFrame (Some Store.CLOSED)]
                   (Particles.initial 2.0)]
  = [1; 1.036; 1.06768; 0.98755840000000006].
Proof. vm_compute. reflexivity. Qed.

(** C6, as stated, fails in binary64.  After a CLOSED frame and an OPEN
    frame the current scale is [s = 0.97264000000000008]; one lerp step of
    [s] toward [s] returns the next float above, 0.97264000000000019. *)
Lemma lerp_moves_a_reachable_scale :
  let s := Particles.currentScale
             (Particles.run [gestureFrame (Some Store.CLOSED); gestureFrame (Some Store.OPEN)]
                            (Particles.initial 2.0)) in
  s = 0.97264000000000008 /\
  MathUtils.lerp s s Particles.LERP_SPEED = 0.97264000000000019 /\
  (MathUtils.lerp s s Particles.LERP_SPEED =? s) = false /\
  (s <? MathUtils.lerp s s Particles.LERP_SPEED) = true.
Proof. vm_compute. repeat split. Qed.

Lemma targetScale_values (d : bool) (g : Store.HandGesture) :
  Particles.targetScale d g = 0.4 \/
  Particles.targetScale d g = 1.3 \/
  Particles.targetScale d g = 1.0.
Proof. destruct d, g as [[]|]; simpl; auto. Qed.

Lemma lerp_fixed_at_targets (d : bool) (g : Store.HandGesture) :
  MathUtils.lerp (Particles.targetScale d g) (Particles.targetScale d g)
                 Particles.LERP_SPEED
  = Particles.targetScale d g.
Proof. destruct (targetScale_values d g) as [-> | [-> | ->]]; reflexivity. Qed.

(** C6 (amended): at each value a target can take (0.4, 1.0, 1.3) one lerp
    step of [s] toward [s] with factor 0.12 returns [s]; hence once the
    current scale equals the target it is unchanged by every later frame
    whose gesture gives the same target. *)
Theorem scale_fixed_at_target (r : Particles.Renderer) (fs : list Particles.Frame) :
  MathUtils.lerp 0.4 0.4 0.12 = 0.4 /\
  MathUtils.lerp 1.0 1.0 0.12 = 1.0 /\
  MathUtils.lerp 1.3 1.3 0.12 = 1.3 /\
  (Forall (fun f => Particles.targetScale (Particles.isHandDetected f) (Particles.gesture f)
                    = Particles.currentScale r) fs ->
   Particles.currentScale (Particles.run fs r) = Particles.currentScale r).
Proof.
  repeat split; try reflexivity.
  revert r. induction fs as [|f fs IH]; intros r Hfs; [reflexivity|].
  inversion Hfs as [|? ? Hf Hfs']; subst. simpl.
  assert (Hstep : Particles.currentScale (Particles.useFrame f r) = Particles.currentScale r).
  { rewrite currentScale_useFrame, <- Hf. apply lerp_fixed_at_targets. }
  unfold Particles.run in IH. rewrite IH; [exact Hstep|].
  rewrite Hstep. exact Hfs'.
Qed.

Lemma scale_fixed_at_target_witness :
  MathUtils.lerp 0.4 0.4 0.12 = 0.4 /\
  MathUtils.lerp 1.0 1.0 0.12 = 1.0 /\
  MathUtils.lerp 1.3 1.3 0.12 = 1.3 /\
  Particles.currentScale
    (Particles.run [gestureFrame None; gestureFrame (Some Store.NEUTRAL); gestureFrame None]
                   (Particles.initial 2.0))
  = Particles.currentScale (Particles.initial 2.0).
Proof.
  destruct (scale_fixed_at_target (Particles.initial 2.0)
              [gestureFrame None; gestureFrame (Some Store.NEUTRAL); gestureFrame None])
    as (H1 & H2 & H3 & H4).
  split; [exact H1|]. split; [exact H2|]. split; [exact H3|].
  apply H4. repeat constructor.
Defined.

(* ===================================================================== *)
(** * Part VII: the renderer, momentum                                 *)
(* ===================================================================== *)

(** ** [Math.min], [Math.max] and [clamp] through the embedding *)

Lemma Math_min_Ord (a b : float) :
  is_nan a = false -> is_nan b = false ->
  is_nan (MathJS.Math_min a b) = false /\
  Ord (MathJS.Math_min a b) = Z.min (Ord a) (Ord b).
Proof.
  intros Ha Hb. unfold MathJS.Math_min. rewrite Ha, Hb. cbn [orb].
  rewrite !ltb_Ord by assumption.
  destruct (Z.ltb_spec (Ord a) (Ord b)); [split; [assumption|lia]|].
  destruct (Z.ltb_spec (Ord b) (Ord a)); [split; [assumption|lia]|].
  destruct (classify a); split; try assumption; lia.
Qed.

Lemma Math_max_Ord (a b : float) :
  is_nan a = false -> is_nan b = false ->
  is_nan (MathJS.Math_max a b) = false /\
  Ord (MathJS.Math_max a b) = Z.max (Ord a) (Ord b).
Proof.
  intros Ha Hb. unfold MathJS.Math_max. rewrite Ha, Hb. cbn [orb].
  rewrite !ltb_Ord by assumption.
  destruct (Z.ltb_spec (Ord a) (Ord b)); [split; [assumption|lia]|].
  destruct (Z.ltb_spec (Ord b) (Ord a)); [split; [assumption|lia]|].
  destruct (classify a); split; try assumption; lia.
Qed.

Lemma clamp_Ord (v lo hi : float) :
  is_nan v = false -> is_nan lo = false -> is_nan hi = false ->
  is_nan (MathUtils.clamp v lo hi) = false /\
  Ord (MathUtils.clamp v lo hi) = Z.max (Ord lo) (Z.min (Ord hi) (Ord v)).
Proof.
  intros Hv Hlo Hhi. unfold MathUtils.clamp.
  destruct (Math_min_Ord hi v Hhi Hv) as [Hn Ho].
  destruct (Math_max_Ord lo _ Hlo Hn) as [Hn' Ho'].
  split; [exact Hn'|]. rewrite Ho', Ho. reflexivity.
Qed.

(** A NaN goes through [clamp]. *)
Lemma clamp_nan (v lo hi : float) :
  is_nan v = true -> is_nan (MathUtils.clamp v lo hi) = true.
Proof.
  intros Hv. unfold MathUtils.clamp, MathJS.Math_min. rewrite Hv, orb_true_r.
  unfold MathJS.Math_max. change (is_nan nan) with true. rewrite orb_true_r. reflexivity.
Qed.

(** Inside its bounds [clamp] returns its argument itself. *)
Lemma clamp_inside (v lo hi : float) :
  is_nan v = false -> is_nan lo = false -> is_nan hi = false ->
  classify hi <> NZero -> classify lo <> PZero ->
  (Ord lo <= Ord v <= Ord hi)%Z ->
  MathUtils.clamp v lo hi = v.
Proof.
  intros Hv Hlo Hhi Chi Clo [H1 H2]. unfold MathUtils.clamp.
  assert (Hmin : MathJS.Math_min hi v = v).
  { unfold MathJS.Math_min. rewrite Hv, Hhi. cbn [orb].
    rewrite !ltb_Ord by assumption.
    destruct (Z.ltb_spec (Ord hi) (Ord v)); [lia|].
    destruct (Z.ltb_spec (Ord v) (Ord hi)); [reflexivity|].
    destruct (classify hi); congruence. }
  rewrite Hmin. unfold MathJS.Math_max. rewrite Hv, Hlo. cbn [orb].
  rewrite !ltb_Ord by assumption.
  destruct (Z.ltb_spec (Ord lo) (Ord v)); [reflexivity|].
  destruct (Z.ltb_spec (Ord v) (Ord lo)); [lia|].
  destruct (classify lo); congruence.
Qed.

Lemma clamp_speed_bound (v : float) :
  is_nan (MathUtils.clamp v (- Particles.MAX_SPEED) Particles.MAX_SPEED) = false ->
  (MathJS.Math_abs (MathUtils.clamp v (- Particles.MAX_SPEED) Particles.MAX_SPEED)
   <=? Particles.MAX_SPEED) = true.
Proof.
  intros Hr.
  assert (Hv : is_nan v = false).
  { destruct (is_nan v) eqn:E; [|reflexivity].
    rewrite clamp_nan in Hr by assumption. discriminate. }
  destruct (clamp_Ord v (- Particles.MAX_SPEED) Particles.MAX_SPEED Hv eq_refl eq_refl)
    as [_ Ho].
  unfold MathJS.Math_abs. rewrite leb_Ord by (rewrite ?abs_nan; auto).
  rewrite abs_Ord, Ho.
  assert (Hneg : Ord (- Particles.MAX_SPEED) = (- Ord Particles.MAX_SPEED)%Z)
    by (vm_compute; reflexivity).
  assert (Hpos : (0 < Ord Particles.MAX_SPEED)%Z) by (vm_compute; reflexivity).
  rewrite Hneg. apply Z.leb_le. lia.
Qed.

(** ** The squared length of a clamped vector *)

Lemma square_bound (x : float) :
  is_nan x = false -> (Z.abs (Ord x) <= Ord Particles.MAX_SPEED)%Z ->
  is_nan (x * x) = false /\ (0 <= Ord (x * x) <= Ord 0.25)%Z.
Proof.
  intros Hx Hle.
  assert (HH : (0 < Ord Particles.MAX_SPEED < INF)%Z) by (vm_compute; split; reflexivity).
  assert (Hsq : rnd 1074 (Ord Particles.MAX_SPEED * Ord Particles.MAX_SPEED) = Ord 0.25)
    by (vm_compute; reflexivity).
  destruct (mul_Ord x x Hx Hx ltac:(lia) ltac:(lia)) as [Hn Ho].
  split; [exact Hn|]. rewrite Ho.
  pose proof (rnd_nonneg 1074 (Z.abs (Ord x) * Z.abs (Ord x)) ltac:(lia) ltac:(nia)) as Hp.
  pose proof (rnd_mono 1074 (Z.abs (Ord x) * Z.abs (Ord x))
                (Ord Particles.MAX_SPEED * Ord Particles.MAX_SPEED) ltac:(lia) ltac:(nia))
    as Hm.
  rewrite Hsq in Hm.
  destruct (Z.sgn_spec (Ord x)) as [[? ->]|[[? ->]|[? ->]]]; lia.
Qed.

Lemma clamp_speed_Ord (v : float) :
  is_nan (MathUtils.clamp v (- Particles.MAX_SPEED) Particles.MAX_SPEED) = false ->
  (Z.abs (Ord (MathUtils.clamp v (- Particles.MAX_SPEED) Particles.MAX_SPEED))
   <= Ord Particles.MAX_SPEED)%Z.
Proof.
  intros Hr. pose proof (clamp_speed_bound v Hr) as H.
  unfold MathJS.Math_abs in H. rewrite leb_Ord, abs_Ord in H by (rewrite ?abs_nan; auto).
  apply Z.leb_le. exact H.
Qed.

Lemma squared_length_bound (x y : float) :
  is_nan x = false -> is_nan y = false ->
  (Z.abs (Ord x) <= Ord Particles.MAX_SPEED)%Z ->
  (Z.abs (Ord y) <= Ord Particles.MAX_SPEED)%Z ->
  (x * x + y * y <=? 0.5) = true.
Proof.
  intros Hx Hy Bx By.
  destruct (square_bound x Hx Bx) as [Nx Ox].
  destruct (square_bound y Hy By) as [Ny Oy].
  destruct (add_Ord (x * x) (y * y) Nx Ny ltac:(lia) ltac:(lia)) as [Hn Ho].
  rewrite leb_Ord by auto. rewrite Ho. apply Z.leb_le.
  assert (Hsum : rnd 0 (Ord 0.25 + Ord 0.25) = Ord 0.5) by (vm_compute; reflexivity).
  rewrite <- Hsum. apply rnd_mono; lia.
Qed.
(** ** Friction: frames without a hand *)

Lemma Ord_rnd_id (x : float) (k : Z) :
  (0 <= k)%Z -> is_nan x = false -> (0 <= Ord x)%Z ->
  rnd k (Ord x * 2 ^ k) = Ord x.
Proof.
  intros Hk Hx Hpos. apply is_nan_false in Hx. unfold Ord in *.
  pose proof (Prim2SF_valid x) as Hv.
  assert (HI : (0 < INF)%Z) by reflexivity.
  destruct (Prim2SF x) as [s|s| |s m e]; try congruence; cbn [ord] in *.
  - apply rnd_zero. assumption.
  - destruct s; cbn [cond_Zopp] in *; [lia|]. apply rnd_overflow; lia.
  - apply valid_finite in Hv. pose proof (fin_bounds m e Hv) as (_ & _ & _ & Hb).
    destruct s; cbn [cond_Zopp] in *; [lia|]. apply rnd_fin; assumption.
Qed.

Lemma useFrame_noHand (f : Particles.Frame) (r : Particles.Renderer) :
  noHand f = true ->
  Particles.momentum (Particles.useFrame f r)
  = mkV2 (idle (v2x (Particles.momentum r))) (idle (v2y (Particles.momentum r))).
Proof.
  unfold noHand. intros H. apply andb_true_iff in H as [Hm Hd].
  apply negb_true_iff in Hd. unfold Particles.useFrame. rewrite Hm, Hd. reflexivity.
Qed.

Lemma friction_Ord (m : float) :
  is_nan m = false -> (Z.abs (Ord m) < INF)%Z ->
  is_nan (m * Particles.FRICTION) = false /\
  Z.abs (Ord (m * Particles.FRICTION))
  = rnd 1074 (Z.abs (Ord m) * Ord Particles.FRICTION).
Proof.
  intros Hm Hfin.
  assert (HF : (0 < Ord Particles.FRICTION < INF)%Z) by (vm_compute; split; reflexivity).
  destruct (mul_Ord m Particles.FRICTION Hm eq_refl Hfin ltac:(lia)) as [Hn Ho].
  split; [exact Hn|]. rewrite Ho.
  rewrite (Z.abs_eq (Ord Particles.FRICTION)), (Z.sgn_pos (Ord Particles.FRICTION)) by lia.
  pose proof (rnd_nonneg 1074 (Z.abs (Ord m) * Ord Particles.FRICTION)
                ltac:(lia) ltac:(lia)) as Hp.
  destruct (Z.eqb_spec (Ord m) 0) as [E|NE].
  - rewrite E. cbn. rewrite rnd_zero; lia.
  - destruct (Z.sgn_spec (Ord m)) as [[? ->]|[[? ->]|[? ->]]]; lia.
Qed.

Lemma zdecay_INF : zdecay INF = Ord Particles.MAX_SPEED.
Proof. vm_compute. reflexivity. Qed.

Lemma idle_Ord (m : float) :
  is_nan m = false ->
  is_nan (idle m) = false /\ Z.abs (Ord (idle m)) = zdecay (Z.abs (Ord m)).
Proof.
  intros Hm.
  assert (HH : (0 < Ord Particles.MAX_SPEED)%Z) by (vm_compute; reflexivity).
  assert (HT : (0 < Ord 0.0001)%Z) by (vm_compute; reflexivity).
  assert (Hneg : Ord (- Particles.MAX_SPEED) = (- Ord Particles.MAX_SPEED)%Z)
    by (vm_compute; reflexivity).
  pose proof (Ord_bounds m) as Hb.
  destruct (Z.eqb_spec (Z.abs (Ord m)) INF) as [Einf|Nfin].
  - (* an infinity *)
    destruct (mul_Ord_inf m Particles.FRICTION Hm eq_refl Einf
                ltac:(vm_compute; reflexivity)) as [Hn Ho].
    rewrite Einf, zdecay_INF.
    unfold idle, Particles.decay, MathJS.Math_abs.
    rewrite ltb_Ord, abs_Ord, Ho, Einf by (rewrite ?abs_nan; auto).
    change (INF <? Ord 0.0001)%Z with false. cbv iota.
    destruct (clamp_Ord _ (- Particles.MAX_SPEED) Particles.MAX_SPEED Hn eq_refl eq_refl)
      as [Hn' Ho'].
    split; [exact Hn'|]. rewrite Ho', Ho, Hneg.
    assert (Hlt : (Ord Particles.MAX_SPEED < INF)%Z) by (vm_compute; reflexivity).
    lia.
  - destruct (friction_Ord m Hm ltac:(lia)) as [Hn Ho].
    unfold zdecay. rewrite <- Ho.
    unfold idle, Particles.decay, MathJS.Math_abs.
    rewrite ltb_Ord, abs_Ord by (rewrite ?abs_nan; auto).
    destruct (Z.ltb_spec (Z.abs (Ord (m * Particles.FRICTION))) (Ord 0.0001)).
    + split; vm_compute; reflexivity.
    + destruct (clamp_Ord _ (- Particles.MAX_SPEED) Particles.MAX_SPEED Hn eq_refl eq_refl)
        as [Hn' Ho'].
      split; [exact Hn'|]. rewrite Ho', Hneg. lia.
Qed.

Lemma zdecay_mono (o o' : Z) : (0 <= o <= o')%Z -> (zdecay o <= zdecay o')%Z.
Proof.
  intros Ho. unfold zdecay.
  assert (HF : (0 < Ord Particles.FRICTION)%Z) by (vm_compute; reflexivity).
  assert (HH : (0 < Ord Particles.MAX_SPEED)%Z) by (vm_compute; reflexivity).
  pose proof (rnd_mono 1074 (o * Ord Particles.FRICTION) (o' * Ord Particles.FRICTION)
                ltac:(lia) ltac:(nia)) as Hr.
  pose proof (rnd_nonneg 1074 (o' * Ord Particles.FRICTION) ltac:(lia) ltac:(nia)).
  destruct (Z.ltb_spec (rnd 1074 (o * Ord Particles.FRICTION)) (Ord 0.0001));
    destruct (Z.ltb_spec (rnd 1074 (o' * Ord Particles.FRICTION)) (Ord 0.0001)); lia.
Qed.

Lemma zdecay_nonneg (o : Z) : (0 <= o)%Z -> (0 <= zdecay o)%Z.
Proof.
  intros Ho. unfold zdecay.
  assert (HF : (0 < Ord Particles.FRICTION)%Z) by (vm_compute; reflexivity).
  assert (HH : (0 < Ord Particles.MAX_SPEED)%Z) by (vm_compute; reflexivity).
  pose proof (rnd_nonneg 1074 (o * Ord Particles.FRICTION) ltac:(lia) ltac:(nia)).
  destruct (Z.ltb_spec (rnd 1074 (o * Ord Particles.FRICTION)) (Ord 0.0001)); lia.
Qed.

Lemma zdecay_iter_mono (n : nat) (o o' : Z) :
  (0 <= o <= o')%Z -> (0 <= Nat.iter n zdecay o <= Nat.iter n zdecay o')%Z.
Proof.
  intros Ho. induction n as [|n [IH1 IH2]]; [exact Ho|].
  change (0 <= zdecay (Nat.iter n zdecay o) <= zdecay (Nat.iter n zdecay o'))%Z.
  split; [apply zdecay_nonneg; exact IH1|apply zdecay_mono; split; assumption].
Qed.

Lemma idle_iter_Ord (n : nat) (m : float) :
  is_nan m = false ->
  is_nan (Nat.iter n idle m) = false /\
  Z.abs (Ord (Nat.iter n idle m)) = Nat.iter n zdecay (Z.abs (Ord m)).
Proof.
  intros Hm. induction n as [|n [IHn IHo]]; [split; [assumption|reflexivity]|].
  change (Nat.iter (S n) idle m) with (idle (Nat.iter n idle m)).
  change (Nat.iter (S n) zdecay (Z.abs (Ord m)))
    with (zdecay (Nat.iter n zdecay (Z.abs (Ord m)))).
  destruct (idle_Ord _ IHn) as [Hn Ho].
  split; [exact Hn|]. rewrite Ho, IHo. reflexivity.
Qed.

(** A component that a frame without a hand leaves at magnitude zero is the
    literal [0] written by the snap. *)
Lemma idle_zero (m : float) :
  is_nan m = false -> Ord (idle m) = 0%Z -> idle m = 0.
Proof.
  intros Hm Hz.
  assert (HH : (0 < Ord Particles.MAX_SPEED)%Z) by (vm_compute; reflexivity).
  assert (HT : (0 < Ord 0.0001)%Z) by (vm_compute; reflexivity).
  assert (Hneg : Ord (- Particles.MAX_SPEED) = (- Ord Particles.MAX_SPEED)%Z)
    by (vm_compute; reflexivity).
  assert (Hn : is_nan (m * Particles.FRICTION) = false).
  { pose proof (Ord_bounds m).
    destruct (Z.eqb_spec (Z.abs (Ord m)) INF) as [Einf|Nfin].
    - apply (mul_Ord_inf m Particles.FRICTION Hm eq_refl Einf). vm_compute. reflexivity.
    - apply (friction_Ord m Hm). lia. }
  revert Hz. unfold idle, Particles.decay, MathJS.Math_abs.
  rewrite ltb_Ord, abs_Ord by (rewrite ?abs_nan; auto).
  destruct (Z.ltb_spec (Z.abs (Ord (m * Particles.FRICTION))) (Ord 0.0001)).
  - intros _. vm_compute. reflexivity.
  - destruct (clamp_Ord _ (- Particles.MAX_SPEED) Particles.MAX_SPEED Hn eq_refl eq_refl)
      as [_ Ho'].
    rewrite Ho', Hneg. lia.
Qed.

(** The two extreme trajectories, run on the floats themselves. *)
Lemma idle_423_infinity : Nat.iter 423 idle infinity = 0.
Proof. vm_compute. reflexivity. Qed.

Lemma idle_422_max_speed : Nat.iter 422 idle Particles.MAX_SPEED = 0.
Proof. vm_compute. reflexivity. Qed.

Lemma idle_iter_zero (n : nat) (m top : float) :
  is_nan m = false -> is_nan top = false ->
  (Z.abs (Ord m) <= Z.abs (Ord top))%Z ->
  Nat.iter (S n) idle top = 0 ->
  Nat.iter (S n) idle m = 0.
Proof.
  intros Hm Htop Hle Hz.
  destruct (idle_iter_Ord (S n) m Hm) as [_ Ho].
  destruct (idle_iter_Ord (S n) top Htop) as [_ Ho'].
  destruct (idle_iter_Ord n m Hm) as [Hn _].
  pose proof (zdecay_iter_mono (S n) (Z.abs (Ord m)) (Z.abs (Ord top)) ltac:(lia)) as Hmono.
  rewrite <- Ho, <- Ho', Hz in Hmono. change (Z.abs (Ord 0)) with 0%Z in Hmono.
  change (Nat.iter (S n) idle m) with (idle (Nat.iter n idle m)) in *.
  apply idle_zero; [exact Hn|lia].
Qed.

Lemma idle_iter_stays_zero (k : nat) : Nat.iter k idle 0 = 0.
Proof.
  induction k as [|k IH]; [reflexivity|].
  change (Nat.iter (S k) idle 0) with (idle (Nat.iter k idle 0)). rewrite IH.
  vm_compute. reflexivity.
Qed.

Lemma idle_iter_ge (n k : nat) (m : float) :
  Nat.iter n idle m = 0 -> (n <= k)%nat -> Nat.iter k idle m = 0.
Proof.
  intros Hz Hle. replace k with ((k - n) + n)%nat by lia.
  rewrite Nat.iter_add, Hz. apply idle_iter_stays_zero.
Qed.

(** Friction makes a magnitude strictly smaller unless the product is
    snapped. *)
Lemma rnd_friction_lt (o : Z) :
  (0 < o)%Z -> (Ord 0.0001 <= rnd 1074 (o * Ord Particles.FRICTION))%Z ->
  (rnd 1074 (o * Ord Particles.FRICTION) < o)%Z.
Proof.
  intros Ho HT.
  set (OF := Ord Particles.FRICTION) in *.
  assert (HOF : (0 < OF)%Z) by (vm_compute; reflexivity).
  (* the gap between 1 and the friction factor, and the snap threshold *)
  assert (HG : (OF + 2 ^ 1068 <= 2 ^ 1074)%Z) by (vm_compute; discriminate).
  assert (HT6 : (2 ^ 7 <= Ord 0.0001)%Z) by (vm_compute; discriminate).
  set (v := (o * OF)%Z) in *.
  assert (Hv : (0 < v)%Z) by (subst v; nia).
  pose proof (Zdigits2_bounds v Hv) as [Hlo _].
  revert HT. unfold rnd.
  set (c := Z.max (Zdigits2 v - 1074 - 53) 0).
  set (q := rne_div v (c + 1074)).
  intros HT.
  pose proof (rne_div_upper v (c + 1074) ltac:(lia)) as Hup. fold q in Hup.
  assert (Hc : (0 <= c)%Z) by lia.
  assert (Hpc : (0 < 2 ^ c)%Z) by (apply Z.pow_pos_nonneg; lia).
  assert (H1074 : (0 < 2 ^ 1074)%Z) by reflexivity.
  assert (H1068 : (0 < 2 ^ 1068)%Z) by reflexivity.
  rewrite (pow2_split c 1074) in Hup by lia.
  (* it suffices that one unit in the last place is below the gap *)
  assert (Hgap : (2 ^ c * 2 ^ 1074 < o * 2 ^ 1068)%Z).
  { destruct (Z.eqb_spec c 0) as [E|NE].
    - rewrite E in *. rewrite Z.pow_0_r in *.
      assert (Z.min (q * 1) INF <= q)%Z by lia.
      assert (q * 2 ^ 1074 <= o * 2 ^ 1074 + 2 ^ 1074)%Z by nia.
      assert (q <= o + 1)%Z by nia.
      assert (2 ^ 6 < o)%Z by (change (2 ^ 7)%Z with 128%Z in HT6; change (2 ^ 6)%Z with 64%Z; lia).
      change (2 ^ 1074)%Z with (2 ^ 6 * 2 ^ 1068)%Z. nia.
    - assert (Ec : (Zdigits2 v - 1 = c + 1126)%Z) by lia.
      rewrite Ec in Hlo.
      replace (c + 1126)%Z with (c + 52 + 1074)%Z in Hlo by lia.
      rewrite (pow2_split (c + 52) 1074) in Hlo by lia.
      assert (v < o * 2 ^ 1074)%Z by (subst v; nia).
      assert (2 ^ (c + 52) < o)%Z by nia.
      rewrite (pow2_split c 52) in * by lia.
      change (2 ^ 1074)%Z with (2 ^ 6 * 2 ^ 1068)%Z.
      assert (2 ^ c * 2 ^ 6 <= 2 ^ c * 2 ^ 52)%Z.
      { apply Z.mul_le_mono_nonneg_l; [lia|]. vm_compute. discriminate. }
      nia. }
  assert (Z.min (q * 2 ^ c) INF <= q * 2 ^ c)%Z by lia.
  assert (q * 2 ^ c * 2 ^ 1074 < o * 2 ^ 1074)%Z.
  { subst v. nia. }
  nia.
Qed.

Lemma zdecay_lt (o : Z) : (0 < o)%Z -> (zdecay o < o)%Z.
Proof.
  intros Ho. unfold zdecay.
  destruct (Z.ltb_spec (rnd 1074 (o * Ord Particles.FRICTION)) (Ord 0.0001)); [lia|].
  pose proof (rnd_friction_lt o Ho ltac:(assumption)). lia.
Qed.

Lemma zdecay_le (o : Z) : (0 <= o)%Z -> (zdecay o <= o)%Z.
Proof.
  intros Ho. destruct (Z.eqb_spec o 0) as [->|NE].
  - vm_compute. discriminate.
  - pose proof (zdecay_lt o ltac:(lia)). lia.
Qed.

Lemma run_noHand (fs : list Particles.Frame) :
  forall r : Particles.Renderer,
    forallb noHand fs = true ->
    Particles.momentum (Particles.run fs r)
    = mkV2 (Nat.iter (List.length fs) idle (v2x (Particles.momentum r)))
           (Nat.iter (List.length fs) idle (v2y (Particles.momentum r))).
Proof.
  induction fs as [|f fs IH]; intros r Hfs.
  - change (Particles.run [] r) with r.
    destruct (Particles.momentum r). reflexivity.
  - cbn [forallb] in Hfs. apply andb_true_iff in Hfs as [Hf Hfs].
    change (Particles.run (f :: fs) r) with (Particles.run fs (Particles.useFrame f r)).
    rewrite IH, useFrame_noHand by assumption. cbn [v2x v2y List.length].
    rewrite !Nat.iter_succ_r. reflexivity.
Qed.

Lemma idle_in_range (m : float) :
  is_nan m = false ->
  (MathJS.Math_abs m <=? Particles.MAX_SPEED) = true ->
  idle m = Particles.decay m.
Proof.
  intros Hm Hle.
  assert (HH : (0 < Ord Particles.MAX_SPEED < INF)%Z) by (vm_compute; split; reflexivity).
  assert (Hneg : Ord (- Particles.MAX_SPEED) = (- Ord Particles.MAX_SPEED)%Z)
    by (vm_compute; reflexivity).
  unfold MathJS.Math_abs in Hle.
  rewrite leb_Ord, abs_Ord in Hle by (rewrite ?abs_nan; auto). apply Z.leb_le in Hle.
  destruct (friction_Ord m Hm ltac:(lia)) as [Hn Ho].
  unfold idle, Particles.decay, MathJS.Math_abs.
  destruct (abs (m * Particles.FRICTION) <? 0.0001) eqn:Hsnap.
  - vm_compute. reflexivity.
  - rewrite ltb_Ord, abs_Ord in Hsnap by (rewrite ?abs_nan; auto).
    apply Z.ltb_ge in Hsnap.
    apply clamp_inside;
      [exact Hn | reflexivity | reflexivity
      | vm_compute; discriminate | vm_compute; discriminate | ].
    rewrite Hneg.
    assert (Z.abs (Ord (m * Particles.FRICTION)) < Z.abs (Ord m))%Z; [|lia].
    rewrite Ho. apply rnd_friction_lt; [|rewrite <- Ho; exact Hsnap].
    destruct (Z.eqb_spec (Ord m) 0) as [E|NE]; [|lia].
    exfalso. rewrite E in Ho. cbn in Ho. rewrite rnd_zero in Ho by lia.
    assert (0 < Ord 0.0001)%Z by (vm_compute; reflexivity). lia.
Qed.

Lemma idle_abs_le (m : float) :
  is_nan m = false -> (MathJS.Math_abs (idle m) <=? MathJS.Math_abs m) = true.
Proof.
  intros Hm. destruct (idle_Ord m Hm) as [Hn Ho].
  unfold MathJS.Math_abs. rewrite leb_Ord, !abs_Ord, Ho by (rewrite ?abs_nan; auto).
  apply Z.leb_le. apply zdecay_le. lia.
Qed.

Lemma idle_abs_lt (m : float) :
  is_nan m = false -> (m =? 0) = false ->
  (MathJS.Math_abs (idle m) <? MathJS.Math_abs m) = true.
Proof.
  intros Hm Hnz. destruct (idle_Ord m Hm) as [Hn Ho].
  unfold MathJS.Math_abs. rewrite ltb_Ord, !abs_Ord, Ho by (rewrite ?abs_nan; auto).
  apply Z.ltb_lt. apply zdecay_lt.
  rewrite FloatAxioms.eqb_spec in Hnz. unfold SFeqb in Hnz.
  rewrite compare_Ord in Hnz by auto. change (Ord 0) with 0%Z in Hnz.
  destruct (Z.compare_spec (Ord m) 0); try discriminate; lia.
Qed.

(** C7: over frames without a hand each component of the momentum is
    multiplied by 0.98 and snapped to zero once below 0.0001 in absolute
    value; its absolute value never grows, shrinks strictly while it is
    not zero, and is exactly zero after at most 423 frames (422 from a
    momentum within the clamp range). *)
Theorem momentum_decays_to_zero
        (r : Particles.Renderer) (f : Particles.Frame) (fs : list Particles.Frame) :
  noHand f = true -> forallb noHand fs = true ->
  is_nan (v2x (Particles.momentum r)) = false ->
  is_nan (v2y (Particles.momentum r)) = false ->
  let step (m : float) : float :=
    if MathJS.Math_abs (m * 0.98) <? 0.0001 then 0 else m * 0.98 in
  let within (m : float) : Prop :=
    (MathJS.Math_abs m <=? Particles.MAX_SPEED) = true in
  let decreases (m m' : float) : Prop :=
    is_nan m' = false /\
    (MathJS.Math_abs m' <=? MathJS.Math_abs m) = true /\
    ((m =? 0) = false -> (MathJS.Math_abs m' <? MathJS.Math_abs m) = true) /\
    (within m -> m' = step m) in
  decreases (v2x (Particles.momentum r)) (v2x (Particles.momentum (Particles.useFrame f r))) /\
  decreases (v2y (Particles.momentum r)) (v2y (Particles.momentum (Particles.useFrame f r))) /\
  ((423 <= List.length fs)%nat -> Particles.momentum (Particles.run fs r) = mkV2 0 0) /\
  (within (v2x (Particles.momentum r)) -> within (v2y (Particles.momentum r)) ->
   (422 <= List.length fs)%nat -> Particles.momentum (Particles.run fs r) = mkV2 0 0).
Proof.
  intros Hf Hfs Hx Hy step within decreases.
  assert (Hdec : forall m, is_nan m = false -> decreases m (idle m)).
  { intros m Hm. split; [apply idle_Ord; exact Hm|].
    split; [apply idle_abs_le; exact Hm|].
    split; [apply idle_abs_lt; exact Hm|].
    intros Hw. apply idle_in_range; assumption. }
  rewrite useFrame_noHand by exact Hf. cbn [v2x v2y].
  split; [apply Hdec; exact Hx|]. split; [apply Hdec; exact Hy|].
  rewrite run_noHand by exact Hfs.
  split.
  - intros Hlen. f_equal.
    + apply (idle_iter_ge 423); [|exact Hlen].
      apply (idle_iter_zero 422 _ infinity Hx eq_refl); [|exact idle_423_infinity].
      pose proof (Ord_bounds (v2x (Particles.momentum r))).
      change (Z.abs (Ord infinity)) with INF. lia.
    + apply (idle_iter_ge 423); [|exact Hlen].
      apply (idle_iter_zero 422 _ infinity Hy eq_refl); [|exact idle_423_infinity].
      pose proof (Ord_bounds (v2y (Particles.momentum r))).
      change (Z.abs (Ord infinity)) with INF. lia.
  - intros Wx Wy Hlen. unfold within, MathJS.Math_abs in Wx, Wy.
    rewrite leb_Ord, abs_Ord in Wx, Wy by (rewrite ?abs_nan; auto).
    apply Z.leb_le in Wx, Wy.
    assert (HH : Z.abs (Ord Particles.MAX_SPEED) = Ord Particles.MAX_SPEED)
      by (vm_compute; reflexivity).
    f_equal.
    + apply (idle_iter_ge 422); [|exact Hlen].
      apply (idle_iter_zero 421 _ Particles.MAX_SPEED Hx eq_refl);
        [rewrite HH; exact Wx|exact idle_422_max_speed].
    + apply (idle_iter_ge 422); [|exact Hlen].
      apply (idle_iter_zero 421 _ Particles.MAX_SPEED Hy eq_refl);
        [rewrite HH; exact Wy|exact idle_422_max_speed].
Qed.

Lemma momentum_decays_to_zero_witness :
  Particles.momentum (Particles.run (released 423) spinning) = mkV2 0 0 /\
  Particles.momentum (Particles.run (released 422) spinning) = mkV2 0 0 /\
  v2x (Particles.momentum (Particles.useFrame (gestureFrame None) spinning)) = 0.5 * 0.98 /\
  (MathJS.Math_abs (v2y (Particles.momentum (Particles.useFrame (gestureFrame None) spinning)))
   <? MathJS.Math_abs (v2y (Particles.momentum spinning))) = true.
Proof.
  destruct (momentum_decays_to_zero spinning (gestureFrame None) (released 423)
              eq_refl eq_refl eq_refl eq_refl)
    as ((_ & _ & _ & Hstep) & (_ & _ & Hlt & _) & H423 & _).
  destruct (momentum_decays_to_zero spinning (gestureFrame None) (released 422)
              eq_refl eq_refl eq_refl eq_refl)
    as (_ & _ & _ & H422).
  split; [apply H423; vm_compute; lia|].
  split; [apply H422; [reflexivity|reflexivity|vm_compute; lia]|].
  split; [rewrite Hstep; reflexivity|].
  apply Hlt. reflexivity.
Defined.

(** ** Finite numbers and NaN *)

Lemma eqb_Ord (x y : float) :
  is_nan x = false -> is_nan y = false -> (x =? y) = (Ord x =? Ord y)%Z.
Proof.
  intros Hx Hy. rewrite FloatAxioms.eqb_spec. unfold SFeqb.
  rewrite compare_Ord by assumption. rewrite Z.eqb_compare. reflexivity.
Qed.

Lemma is_finite_Ord (x : float) :
  is_finite x = true <-> is_nan x = false /\ (Z.abs (Ord x) < INF)%Z.
Proof.
  unfold is_finite, is_infinity. destruct (is_nan x) eqn:Hn; cbn [orb negb].
  - split; [discriminate | intros [? _]; discriminate].
  - rewrite eqb_Ord, abs_Ord by (rewrite ?abs_nan; auto). change (Ord infinity) with INF.
    pose proof (Ord_bounds x). rewrite negb_true_iff, Z.eqb_neq.
    split; [intros; split; [reflexivity|lia] | intros [_ ?]; lia].
Qed.

Lemma finite_cases (x : float) :
  is_finite x = true ->
  (exists s, Prim2SF x = S754_zero s) \/
  (exists s m e, Prim2SF x = S754_finite s m e /\ fin_ok m e).
Proof.
  intros Hf. apply is_finite_Ord in Hf as [Hn Hb]. apply is_nan_false in Hn.
  unfold Ord in Hb. pose proof (Prim2SF_valid x) as Hv.
  destruct (Prim2SF x) as [s|s| |s m e]; try congruence.
  - left. eexists. reflexivity.
  - exfalso. destruct s; cbn in Hb; lia.
  - right. exists s, m, e. split; [reflexivity|]. apply valid_finite in Hv. exact Hv.
Qed.

Lemma binary_normalize_num (z e : Z) (szero : bool) :
  (-1074 <= e)%Z -> binary_normalize prec emax z e szero <> S754_nan.
Proof.
  intros He. destruct z as [|p|p]; cbn [binary_normalize]; [discriminate|..];
    apply (binary_round_ord _ p e He).
Qed.

Lemma sub_finite (x y : float) :
  is_finite x = true -> is_finite y = true -> is_nan (x - y) = false.
Proof.
  intros Hx Hy. apply is_nan_false. rewrite FloatAxioms.sub_spec. unfold SF64sub.
  destruct (finite_cases x Hx) as [[sx ->]|(sx & mx & ex & -> & Okx)];
    destruct (finite_cases y Hy) as [[sy ->]|(sy & my & ey & -> & Oky)];
    cbn [SFsub]; try discriminate.
  - destruct sx, sy; discriminate.
  - pose proof (fin_bounds mx ex Okx) as (? & _). pose proof (fin_bounds my ey Oky) as (? & _).
    apply binary_normalize_num. lia.
Qed.

Lemma add_finite (x y : float) :
  is_finite x = true -> is_nan y = false -> is_nan (x + y) = false.
Proof.
  intros Hx Hy. apply is_nan_false. apply is_nan_false in Hy.
  rewrite FloatAxioms.add_spec. unfold SF64add.
  pose proof (Prim2SF_valid y) as Vy.
  destruct (finite_cases x Hx) as [[sx ->]|(sx & mx & ex & -> & Okx)];
    destruct (Prim2SF y) as [sy|sy| |sy my ey]; try congruence;
    cbn [SFadd]; try discriminate.
  - destruct sx, sy; discriminate.
  - apply valid_finite in Vy.
    pose proof (fin_bounds mx ex Okx) as (? & _). pose proof (fin_bounds my ey Vy) as (? & _).
    apply binary_normalize_num. lia.
Qed.

Lemma opp_num (x : float) : is_nan x = false -> is_nan (- x) = false.
Proof.
  intros Hx. apply is_nan_false. apply is_nan_false in Hx. rewrite FloatAxioms.opp_spec.
  destruct (Prim2SF x); try discriminate. congruence.
Qed.

(** A product is a number unless it is zero times infinity. *)
Lemma mul_num (x y : float) :
  is_nan x = false -> is_finite y = true -> (Ord y <> 0)%Z -> is_nan (x * y) = false.
Proof.
  intros Hx Hy Hy0. apply is_finite_Ord in Hy as [Ny Fy].
  pose proof (Ord_bounds x) as Hb.
  destruct (Z.eqb_spec (Z.abs (Ord x)) INF) as [E|NE].
  - apply is_nan_false. apply is_nan_false in Hx. apply is_nan_false in Ny.
    unfold Ord in *. rewrite FloatAxioms.mul_spec. unfold SF64mul.
    assert (HI : (0 < INF)%Z) by reflexivity.
    pose proof (Prim2SF_valid x) as Vx.
    destruct (Prim2SF x) as [sx|sx| |sx mx ex]; try congruence.
    + cbn in E. lia.
    + destruct (Prim2SF y) as [sy|sy| |sy my ey]; try congruence; cbn [SFmul];
        try discriminate.
      cbn in Hy0. lia.
    + apply valid_finite in Vx. pose proof (fin_bounds mx ex Vx) as (_ & _ & _ & Bx).
      destruct sx; cbn [ord cond_Zopp] in E; lia.
  - apply (mul_Ord x y Hx Ny); lia.
Qed.

(** Scaling a finite number by a factor of at most one keeps it finite. *)
Lemma mul_shrink_finite (c x : float) :
  is_finite c = true -> (Z.abs (Ord c) <= 2 ^ 1074)%Z ->
  is_finite x = true -> is_finite (c * x) = true.
Proof.
  intros Hc Hc1 Hx.
  apply is_finite_Ord in Hc as [Nc Fc]. apply is_finite_Ord in Hx as [Nx Fx].
  destruct (mul_Ord c x Nc Nx Fc Fx) as [Hn Ho].
  apply is_finite_Ord. split; [exact Hn|]. rewrite Ho.
  pose proof (Ord_rnd_id (abs x) 1074 ltac:(lia) ltac:(rewrite abs_nan; exact Nx)
                ltac:(rewrite abs_Ord; lia)) as Hid.
  rewrite abs_Ord in Hid.
  pose proof (rnd_mono 1074 (Z.abs (Ord c) * Z.abs (Ord x)) (Z.abs (Ord x) * 2 ^ 1074)
                ltac:(lia) ltac:(nia)) as Hm.
  pose proof (rnd_nonneg 1074 (Z.abs (Ord c) * Z.abs (Ord x)) ltac:(lia) ltac:(nia)) as Hp.
  rewrite Hid in Hm.
  destruct (Z.sgn_spec (Ord c)) as [[? ->]|[[? ->]|[? ->]]];
    destruct (Z.sgn_spec (Ord x)) as [[? ->]|[[? ->]|[? ->]]]; lia.
Qed.

Lemma momentum_lerp_num (m target : float) :
  is_finite m = true -> is_nan target = false ->
  is_nan (MathUtils.lerp m target Particles.MOMENTUM_LERP) = false.
Proof.
  intros Hm Ht. unfold MathUtils.lerp.
  apply add_finite.
  - apply mul_shrink_finite; [reflexivity|vm_compute; discriminate|exact Hm].
  - rewrite is_nan_false, FloatAxioms.mul_spec. unfold SF64mul.
    change (Prim2SF Particles.MOMENTUM_LERP)
      with (S754_finite false 5404319552844595 (-55)).
    apply is_nan_false in Ht. pose proof (Prim2SF_valid target) as Vt.
    destruct (Prim2SF target) as [s|s| |s mt et]; try congruence; cbn [SFmul];
      try discriminate.
    apply valid_finite in Vt.
    apply (SFmul_finite false s 5404319552844595 mt (-55) et); [|exact Vt].
    apply valid_finite with (s := false). reflexivity.
Qed.

Lemma target_velocity_num (a b : float) :
  is_finite a = true -> is_finite b = true ->
  is_nan ((a - b) * Particles.SENSITIVITY) = false /\
  is_nan ((- (a - b)) * Particles.SENSITIVITY) = false.
Proof.
  intros Ha Hb. pose proof (sub_finite a b Ha Hb) as Hd.
  split; apply mul_num; try reflexivity; try (vm_compute; discriminate);
    [exact Hd|apply opp_num; exact Hd].
Qed.

Lemma useFrame_momentum_num (f : Particles.Frame) (r : Particles.Renderer) :
  Particles.meshRef f = true -> finiteInputs f r = true ->
  is_nan (v2x (Particles.momentum (Particles.useFrame f r))) = false /\
  is_nan (v2y (Particles.momentum (Particles.useFrame f r))) = false.
Proof.
  intros Hmesh Hfin. unfold finiteInputs in Hfin.
  apply andb_true_iff in Hfin as [Hfin Hlast].
  apply andb_true_iff in Hfin as [Hfin Hhp].
  apply andb_true_iff in Hfin as [Hmx Hmy].
  unfold Particles.useFrame. rewrite Hmesh.
  destruct (Particles.isHandDetected f), (Particles.handPosition f) as [hp|];
    cbn [Particles.momentum v2x v2y].
  2-4: split; apply (idle_Ord _); apply is_finite_Ord; assumption.
  apply andb_true_iff in Hhp as [Hx Hy].
  assert (Hl : is_finite (v3x (match Particles.lastHandPos r with Some l => l | None => hp end))
               = true /\
               is_finite (v3y (match Particles.lastHandPos r with Some l => l | None => hp end))
               = true).
  { destruct (Particles.lastHandPos r) as [l|]; [|split; assumption].
    apply andb_true_iff in Hlast. exact Hlast. }
  destruct Hl as [Hlx Hly].
  destruct (target_velocity_num _ _ Hx Hlx) as [Hvy _].
  destruct (target_velocity_num _ _ Hy Hly) as [_ Hvx].
  split; apply clamp_Ord; try reflexivity; apply momentum_lerp_num; assumption.
Qed.

(** ** The clamp on the momentum *)

Lemma momentum_useFrame (f : Particles.Frame) (r : Particles.Renderer) :
  Particles.meshRef f = true ->
  exists vx vy,
    Particles.momentum (Particles.useFrame f r)
    = mkV2 (MathUtils.clamp vx (- Particles.MAX_SPEED) Particles.MAX_SPEED)
           (MathUtils.clamp vy (- Particles.MAX_SPEED) Particles.MAX_SPEED).
Proof.
  intros Hm. unfold Particles.useFrame. rewrite Hm.
  destruct (Particles.isHandDetected f), (Particles.handPosition f);
    cbn; eexists _, _; reflexivity.
Qed.

(** C2 (amended): after the clamping step each component of the momentum
    has absolute value at most MAX_SPEED = 0.5, for any finite hand
    positions and finite prior momentum (and whenever the component is not
    NaN); the squared length of the vector is then at most 0.5, that is,
    its length is at most MAX_SPEED times the square root of 2. *)
Theorem momentum_components_clamped (f : Particles.Frame) (r : Particles.Renderer) :
  Particles.meshRef f = true ->
  let m := Particles.momentum (Particles.useFrame f r) in
  (finiteInputs f r = true -> is_nan (v2x m) = false /\ is_nan (v2y m) = false) /\
  (is_nan (v2x m) = false -> (MathJS.Math_abs (v2x m) <=? Particles.MAX_SPEED) = true) /\
  (is_nan (v2y m) = false -> (MathJS.Math_abs (v2y m) <=? Particles.MAX_SPEED) = true) /\
  (is_nan (v2x m) = false -> is_nan (v2y m) = false ->
   (v2x m * v2x m + v2y m * v2y m <=? 0.5) = true).
Proof.
  intros Hm. split; [apply useFrame_momentum_num; exact Hm|].
  destruct (momentum_useFrame f r Hm) as (vx & vy & ->).
  cbn [v2x v2y]. split; [apply clamp_speed_bound|]. split; [apply clamp_speed_bound|].
  intros Hx Hy. apply squared_length_bound; try assumption; apply clamp_speed_Ord; assumption.
Qed.

Lemma momentum_components_clamped_witness :
  let m := Particles.momentum
             (Particles.useFrame (sweepFrame 5 (-4))
                (Particles.useFrame (sweepFrame (-5) 4) (Particles.initial 2.0))) in
  (MathJS.Math_abs (v2x m) <=? Particles.MAX_SPEED) = true /\
  (MathJS.Math_abs (v2y m) <=? Particles.MAX_SPEED) = true /\
  (v2x m * v2x m + v2y m * v2y m <=? 0.5) = true.
Proof.
  destruct (momentum_components_clamped (sweepFrame 5 (-4))
              (Particles.useFrame (sweepFrame (-5) 4) (Particles.initial 2.0)) eq_refl)
    as (Hnum & Hx & Hy & Hxy).
  destruct (Hnum eq_refl) as [Nx Ny].
  split; [apply Hx; exact Nx|]. split; [apply Hy; exact Ny|].
  apply Hxy; assumption.
Defined.

(** C2, as stated, fails: a hand sweeping from (-5, 4) to (5, -4) between
    two frames leaves the momentum at (0.5, 0.5), whose length 0.7071...
    exceeds MAX_SPEED. *)
Lemma momentum_length_exceeds_max_speed :
  let r := Particles.run [sweepFrame (-5) 4; sweepFrame 5 (-4)] (Particles.initial 2.0) in
  Particles.momentum r = mkV2 0.5 0.5 /\
  (Particles.MAX_SPEED <? Particles.Vector2_length (Particles.momentum r)) = true.
Proof. vm_compute. split; reflexivity. Qed.

(* ===================================================================== *)
(** * Part VIII: the renderer, interaction radius                      *)
(* ===================================================================== *)

Lemma zInfluence_Ord (z : float) :
  is_nan z = false ->
  is_nan (Particles.zInfluence z) = false /\
  Ord (Particles.zInfluence z) = zinfluence (Z.abs (Ord z)).
Proof.
  intros Hz. unfold Particles.zInfluence, MathJS.Math_abs, zinfluence.
  assert (Ha : is_nan (abs z) = false) by (rewrite abs_nan; exact Hz).
  pose proof (abs_Ord z) as Hoa. pose proof (Ord_bounds z) as Hb.
  assert (H5 : (0 < Ord 0.5 < INF)%Z) by (vm_compute; split; reflexivity).
  assert (Hhalf : is_nan (abs z * 0.5) = false /\
                  Ord (abs z * 0.5)
                  = if (Z.abs (Ord z) =? INF)%Z then INF
                    else rnd 1074 (Z.abs (Ord z) * Ord 0.5)).
  { destruct (Z.eqb_spec (Z.abs (Ord z)) INF) as [E|NE].
    - destruct (mul_Ord_inf (abs z) 0.5 Ha eq_refl) as [Hn Ho];
        [rewrite Hoa; lia | lia |].
      split; [exact Hn|]. rewrite Ho, Hoa. exact E.
    - destruct (mul_Ord (abs z) 0.5 Ha eq_refl) as [Hn Ho]; [rewrite Hoa; lia | lia |].
      split; [exact Hn|]. rewrite Ho, Hoa.
      rewrite Z.abs_idemp, (Z.abs_eq (Ord 0.5)), (Z.sgn_pos (Ord 0.5)) by lia.
      destruct (Z.eqb_spec (Ord z) 0) as [E0|N0].
      + rewrite E0. cbn. rewrite rnd_zero; lia.
      + rewrite Z.sgn_pos by lia. lia. }
  destruct Hhalf as [Hn Ho].
  assert (Hpos : (0 <= Ord (abs z * 0.5))%Z).
  { rewrite Ho. destruct (Z.abs (Ord z) =? INF)%Z; [lia|].
    apply rnd_nonneg; lia. }
  destruct (add_Ord 1.0 (abs z * 0.5) eq_refl Hn ltac:(vm_compute; discriminate) Hpos)
    as [Hn1 Ho1].
  destruct (clamp_Ord _ 0.5 3.0 Hn1 eq_refl eq_refl) as [Hn2 Ho2].
  split; [exact Hn2|]. rewrite Ho2, Ho1, Ho. reflexivity.
Qed.

Lemma zinfluence_bounds (o : Z) :
  (0 <= o)%Z -> (Ord 1.0 <= zinfluence o <= Ord 3.0)%Z.
Proof.
  intros Ho. unfold zinfluence.
  assert (H5 : (0 < Ord 0.5)%Z) by (vm_compute; reflexivity).
  assert (H1 : (0 < Ord 1.0)%Z) by (vm_compute; reflexivity).
  assert (H13 : (Ord 0.5 <= Ord 1.0 <= Ord 3.0)%Z) by (vm_compute; split; discriminate).
  assert (HI : (0 < INF)%Z) by reflexivity.
  set (half := if (o =? INF)%Z then INF else rnd 1074 (o * Ord 0.5)).
  assert (Hh : (0 <= half)%Z).
  { subst half. destruct (o =? INF)%Z; [lia|]. apply rnd_nonneg; lia. }
  pose proof (rnd_mono 0 (Ord 1.0) (Ord 1.0 + half) ltac:(lia) ltac:(lia)) as Hm.
  pose proof (Ord_rnd_id 1.0 0 ltac:(lia) eq_refl ltac:(lia)) as Hid.
  rewrite Z.pow_0_r, Z.mul_1_r in Hid. rewrite Hid in Hm. lia.
Qed.

Lemma zinfluence_mono (o o' : Z) :
  (0 <= o <= o')%Z -> (o' <= INF)%Z -> (zinfluence o <= zinfluence o')%Z.
Proof.
  intros Ho Ho'. unfold zinfluence.
  assert (H5 : (0 < Ord 0.5)%Z) by (vm_compute; reflexivity).
  assert (H1 : (0 < Ord 1.0)%Z) by (vm_compute; reflexivity).
  assert (Hh : ((if (o =? INF)%Z then INF else rnd 1074 (o * Ord 0.5))
                <= (if (o' =? INF)%Z then INF else rnd 1074 (o' * Ord 0.5)))%Z).
  { destruct (Z.eqb_spec o INF), (Z.eqb_spec o' INF); try lia.
    - apply rnd_le_INF.
    - apply rnd_mono; [lia|nia]. }
  assert (Hh0 : (0 <= (if (o =? INF)%Z then INF else rnd 1074 (o * Ord 0.5)))%Z).
  { destruct (o =? INF)%Z; [discriminate|]. apply rnd_nonneg; lia. }
  pose proof (rnd_mono 0 _ _ ltac:(lia)
                (conj (Z.add_nonneg_nonneg _ _ (Z.lt_le_incl _ _ H1) Hh0)
                      (Zplus_le_compat_l _ _ (Ord 1.0) Hh))) as Hm.
  lia.
Qed.

(** The lerp target [config.interactionRadius * zInfluence], on magnitudes. *)
Lemma radius_target_Ord (R zi : float) :
  is_nan R = false -> is_nan zi = false ->
  (0 <= Ord R)%Z -> (Ord 1.0 <= Ord zi <= Ord 3.0)%Z ->
  is_nan (R * zi) = false /\
  Ord (R * zi) = if (Ord R =? INF)%Z then INF else rnd 1074 (Ord R * Ord zi).
Proof.
  intros HR Hzi HR0 Hzb.
  assert (H1 : (0 < Ord 1.0)%Z) by (vm_compute; reflexivity).
  assert (H3 : (Ord 3.0 < INF)%Z) by (vm_compute; reflexivity).
  pose proof (Ord_bounds R) as Hb.
  destruct (Z.eqb_spec (Ord R) INF) as [E|NE].
  - destruct (mul_Ord_inf R zi HR Hzi) as [Hn Ho]; [lia|lia|].
    split; [exact Hn|]. rewrite Ho. exact E.
  - destruct (mul_Ord R zi HR Hzi) as [Hn Ho]; [lia|lia|].
    split; [exact Hn|]. rewrite Ho.
    rewrite (Z.abs_eq (Ord R)), (Z.abs_eq (Ord zi)), (Z.sgn_pos (Ord zi)) by lia.
    destruct (Z.eqb_spec (Ord R) 0) as [E0|N0].
    + rewrite E0. cbn. rewrite rnd_zero; lia.
    + rewrite Z.sgn_pos by lia. lia.
Qed.

Lemma uInteractRadius_useFrame
      (f : Particles.Frame) (r : Particles.Renderer) (hp : Vector3) :
  Particles.meshRef f = true -> Particles.materialRef f = true ->
  Particles.isHandDetected f = true -> Particles.handPosition f = Some hp ->
  Particles.uInteractRadius (Particles.uniforms (Particles.useFrame f r))
  = (1 - 0.1) * Particles.uInteractRadius (Particles.uniforms r)
    + 0.1 * (Particles.interactionRadius f * Particles.zInfluence (v3z hp)).
Proof.
  intros Hmesh Hmat Hdet Hhp. unfold Particles.useFrame.
  rewrite Hmesh, Hmat, Hdet, Hhp. reflexivity.
Qed.

Lemma radius_target_mono (R zi zi' : float) :
  is_nan R = false -> (0 <=? R) = true ->
  is_nan zi = false -> is_nan zi' = false ->
  (Ord 1.0 <= Ord zi <= Ord zi')%Z -> (Ord zi' <= Ord 3.0)%Z ->
  (R <=? R * zi) = true /\ (R * zi <=? R * zi') = true.
Proof.
  intros HR HR0 Hzi Hzi' Hle Hle'.
  rewrite leb_Ord in HR0 by auto. change (Ord 0) with 0%Z in HR0. apply Z.leb_le in HR0.
  assert (H1 : Ord 1.0 = (2 ^ 1074)%Z) by (vm_compute; reflexivity).
  assert (Hp : (0 < 2 ^ 1074)%Z) by reflexivity.
  destruct (radius_target_Ord R zi HR Hzi HR0 ltac:(lia)) as [Hn Ho].
  destruct (radius_target_Ord R zi' HR Hzi' HR0 ltac:(lia)) as [Hn' Ho'].
  rewrite !leb_Ord by assumption. rewrite Ho, Ho'.
  pose proof (Ord_bounds R) as Hb.
  destruct (Z.eqb_spec (Ord R) INF) as [E|NE].
  - split; apply Z.leb_le; lia.
  - pose proof (Ord_rnd_id R 1074 ltac:(lia) HR HR0) as Hid.
    split; apply Z.leb_le.
    + rewrite <- Hid at 1. apply rnd_mono; [lia|]. rewrite H1 in Hle. nia.
    + apply rnd_mono; [lia|]. nia.
Qed.

(** C9, as stated, fails for a configured radius below zero, which
    [setConfig] stores as it stores every value of a response.  With
    [interactionRadius = -2] and a hand at depth -1.5 the factor is 1.75
    and the target -3.5 lies below the configured radius; a hand further
    away, at depth -3, brings the target to -5, not wider but narrower;
    and the frame leads the uniform from -2 down to -2.15. *)
Lemma radius_target_below_negative_radius :
  let s := fst (Controls.handleSubmit (fun _ => Some antimatter)
                  (Controls.Resolved (Some "{}"%string))
                  (Store.initial, Controls.mkLocal (utf16 "Antimatter") false)) in
  let R := -2 in
  let influence (z : float) : float :=
    MathUtils.clamp (1.0 + MathJS.Math_abs z * 0.5) 0.5 3.0 in
  Store.config s !! "interactionRadius" = Some (Store.JNum R) /\
  influence (-1.5) = 1.75 /\ R * influence (-1.5) = -3.5 /\
  (R * influence (-1.5) <? R) = true /\
  (R <=? R * influence (-1.5)) = false /\
  influence (-3) = 2.5 /\ R * influence (-3) = -5 /\
  (R * influence (-3) <? R * influence (-1.5)) = true /\
  (R * influence (-1.5) <=? R * influence (-3)) = false /\
  Particles.uInteractRadius
    (Particles.uniforms
       (Particles.runEvents [Particles.ConfigChanged true R;
                             Particles.Rendered (radiusFrame R (-1.5))]
                            (Particles.initial 2.0)))
  = -2.1499999999999999.
Proof. vm_compute. repeat split. Qed.

(** C9: while a hand is detected the interaction-radius uniform is lerped
    each frame, [new = (1 - 0.1) * old + 0.1 * target], toward the target
    [config.interactionRadius * zInfluence] with
    [zInfluence = clamp(1 + |handZ| * 0.5, 0.5, 3.0)].  For a depth that is
    a number the factor lies in [0.5, 3.0] and is at least 1, it does not
    shrink when the depth grows in magnitude, and for a configured radius
    that is a non-negative number the target is never below the radius and
    widens with the depth. *)
Theorem interaction_radius_target
        (f : Particles.Frame) (r : Particles.Renderer) (hp : Vector3) :
  Particles.meshRef f = true -> Particles.materialRef f = true ->
  Particles.isHandDetected f = true -> Particles.handPosition f = Some hp ->
  let R := Particles.interactionRadius f in
  let influence (z : float) : float :=
    MathUtils.clamp (1.0 + MathJS.Math_abs z * 0.5) 0.5 3.0 in
  let old := Particles.uInteractRadius (Particles.uniforms r) in
  Particles.uInteractRadius (Particles.uniforms (Particles.useFrame f r))
  = (1 - 0.1) * old + 0.1 * (R * influence (v3z hp)) /\
  (is_nan (v3z hp) = false ->
   (0.5 <=? influence (v3z hp)) = true /\
   (influence (v3z hp) <=? 3.0) = true /\
   (1.0 <=? influence (v3z hp)) = true /\
   (is_nan R = false -> (0 <=? R) = true ->
    (R <=? R * influence (v3z hp)) = true) /\
   (forall z' : float,
       is_nan z' = false ->
       (MathJS.Math_abs (v3z hp) <=? MathJS.Math_abs z') = true ->
       (influence (v3z hp) <=? influence z') = true /\
       (is_nan R = false -> (0 <=? R) = true ->
        (R * influence (v3z hp) <=? R * influence z') = true))).
Proof.
  intros Hmesh Hmat Hdet Hhp R influence old.
  split; [apply uInteractRadius_useFrame; assumption|].
  intros Hz. change influence with Particles.zInfluence.
  destruct (zInfluence_Ord (v3z hp) Hz) as [Hn Ho].
  pose proof (zinfluence_bounds (Z.abs (Ord (v3z hp))) ltac:(lia)) as Hb.
  assert (H51 : (Ord 0.5 <= Ord 1.0)%Z) by (vm_compute; discriminate).
  rewrite !leb_Ord by auto. rewrite Ho.
  split; [apply Z.leb_le; lia|]. split; [apply Z.leb_le; lia|].
  split; [apply Z.leb_le; lia|]. split.
  - intros HR HR0.
    apply (radius_target_mono R _ _ HR HR0 Hn Hn); rewrite Ho; lia.
  - intros z' Hz' Hle.
    destruct (zInfluence_Ord z' Hz') as [Hn' Ho'].
    pose proof (zinfluence_bounds (Z.abs (Ord z')) ltac:(lia)) as Hb'.
    unfold MathJS.Math_abs in Hle.
    rewrite leb_Ord, !abs_Ord in Hle by (rewrite ?abs_nan; auto).
    apply Z.leb_le in Hle.
    pose proof (Ord_bounds z') as Hbz.
    pose proof (zinfluence_mono _ _ (conj (Z.abs_nonneg (Ord (v3z hp))) Hle) ltac:(lia))
      as Hmono.
    split.
    + rewrite leb_Ord, Ho, Ho' by auto. apply Z.leb_le. exact Hmono.
    + intros HR HR0.
      apply (radius_target_mono R _ _ HR HR0 Hn Hn'); rewrite ?Ho, ?Ho'; lia.
Qed.

Lemma interaction_radius_target_witness :
  let influence (z : float) : float :=
    MathUtils.clamp (1.0 + MathJS.Math_abs z * 0.5) 0.5 3.0 in
  Particles.uInteractRadius
    (Particles.uniforms (Particles.useFrame (depthFrame (-1.5)) (Particles.initial 2.0)))
  = (1 - 0.1) * 2.0 + 0.1 * (2.0 * influence (-1.5)) /\
  (1 - 0.1) * 2.0 + 0.1 * (2.0 * influence (-1.5)) = 2.1499999999999999 /\
  (1.0 <=? influence (-1.5)) = true /\
  (influence (-1.5) <=? 3.0) = true /\
  (2.0 <=? 2.0 * influence (-1.5)) = true /\
  (influence (-1.5) <=? influence 7) = true /\
  (2.0 * influence (-1.5) <=? 2.0 * influence 7) = true.
Proof.
  destruct (interaction_radius_target (depthFrame (-1.5)) (Particles.initial 2.0)
              (mkV3 0 0 (-1.5)) eq_refl eq_refl eq_refl eq_refl)
    as (Hlerp & Hrest).
  destruct (Hrest eq_refl) as (_ & H3 & H1 & Htarget & Hwiden).
  destruct (Hwiden 7 eq_refl eq_refl) as (Hz & Ht).
  split; [exact Hlerp|]. split; [reflexivity|]. split; [exact H1|]. split; [exact H3|].
  split; [apply Htarget; reflexivity|]. split; [exact Hz|].
  apply Ht; reflexivity.
Defined.

(* ===================================================================== *)
(** * Part IX: binary64 arithmetic, numbers of any sign *)
(* ===================================================================== *)

Local Open Scope Z_scope.

Lemma rndz_pos (k v : Z) : 0 <= k -> 0 <= v -> rndz k v = rnd k v.
Proof.
  intros Hk Hv. unfold rndz. destruct (Z.eq_dec v 0) as [->|Hne].
  - change (Z.sgn 0) with 0. change (Z.abs 0) with 0. rewrite rnd_zero by assumption.
    reflexivity.
  - rewrite Z.sgn_pos, Z.abs_eq by lia. lia.
Qed.

Lemma rndz_opp (k v : Z) : rndz k (- v) = - rndz k v.
Proof. unfold rndz. rewrite Z.sgn_opp, Z.abs_opp. lia. Qed.

Lemma rndz_mono (k v w : Z) : 0 <= k -> v <= w -> rndz k v <= rndz k w.
Proof.
  intros Hk Hle.
  destruct (Z_le_gt_dec 0 v) as [Hv|Hv].
  - rewrite !rndz_pos by lia. apply rnd_mono; lia.
  - replace v with (- (- v)) by lia. rewrite rndz_opp.
    rewrite (rndz_pos k (- v)) by lia.
    destruct (Z_le_gt_dec 0 w) as [Hw|Hw].
    + rewrite rndz_pos by lia.
      pose proof (rnd_nonneg k (- v) Hk ltac:(lia)).
      pose proof (rnd_nonneg k w Hk Hw). lia.
    + replace w with (- (- w)) by lia. rewrite rndz_opp.
      rewrite (rndz_pos k (- w)) by lia.
      pose proof (rnd_mono k (- w) (- v) Hk ltac:(lia)). lia.
Qed.

Lemma rndz_bounds (k v : Z) : 0 <= k -> - INF <= rndz k v <= INF.
Proof.
  intros Hk. unfold rndz.
  pose proof (rnd_le_INF k (Z.abs v)).
  pose proof (rnd_nonneg k (Z.abs v) Hk ltac:(lia)).
  destruct (Z.sgn_spec v) as [[? ->]|[[? ->]|[? ->]]]; lia.
Qed.

(** A binary64 number rounds to itself. *)
Lemma rndz_id (x : float) (k : Z) :
  0 <= k -> is_nan x = false -> rndz k (Ord x * 2 ^ k) = Ord x.
Proof.
  intros Hk Hx.
  assert (Hp : 0 < 2 ^ k) by (apply Z.pow_pos_nonneg; lia).
  pose proof (Ord_rnd_id (abs x) k Hk ltac:(rewrite abs_nan; exact Hx)
                ltac:(rewrite abs_Ord; lia)) as Hid.
  rewrite abs_Ord in Hid.
  unfold rndz. rewrite Z.abs_mul, Z.sgn_mul, (Z.abs_eq (2 ^ k)), (Z.sgn_pos (2 ^ k)) by lia.
  rewrite Hid. destruct (Z.sgn_spec (Ord x)) as [[? ->]|[[? ->]|[? ->]]]; lia.
Qed.

Lemma rndz_id0 (x : float) : is_nan x = false -> rndz 0 (Ord x) = Ord x.
Proof.
  intros Hx. pose proof (rndz_id x 0 ltac:(lia) Hx) as H.
  rewrite Z.pow_0_r, Z.mul_1_r in H. exact H.
Qed.

Lemma binary_normalize_ord (z e : Z) :
  -1074 <= e ->
  let r := binary_normalize prec emax z e false in
  r <> S754_nan /\ ord r = rndz 0 (z * 2 ^ (e + 1074)).
Proof.
  intros He r. subst r.
  assert (Hp : 0 < 2 ^ (e + 1074)) by (apply Z.pow_pos_nonneg; lia).
  destruct z as [|p|p]; cbn [binary_normalize].
  - split; [discriminate|]. reflexivity.
  - destruct (binary_round_ord false p e He) as (_ & Hn & Ho). cbv zeta in Hn, Ho.
    split; [exact Hn|]. rewrite Ho. cbn [cond_Zopp].
    rewrite rndz_pos by lia. reflexivity.
  - destruct (binary_round_ord true p e He) as (_ & Hn & Ho). cbv zeta in Hn, Ho.
    split; [exact Hn|]. rewrite Ho. cbn [cond_Zopp].
    replace (Z.neg p * 2 ^ (e + 1074)) with (- (Z.pos p * 2 ^ (e + 1074))) by lia.
    rewrite rndz_opp, rndz_pos by lia. reflexivity.
Qed.

Lemma shl_align_ord (s : bool) (m : positive) (e ez : Z) :
  -1074 <= ez -> ez <= e ->
  cond_Zopp s (Zpos (fst (shl_align m e ez))) * 2 ^ (ez + 1074)
  = cond_Zopp s (Zpos m * 2 ^ (e + 1074)).
Proof.
  intros H1 H2. pose proof (shl_align_spec m e ez) as [_ Hf]. cbv zeta in Hf.
  rewrite Hf. replace (Z.min e ez) with ez by lia.
  replace (e + 1074) with ((e - ez) + (ez + 1074)) by lia.
  rewrite (pow2_split (e - ez) (ez + 1074)) by lia. destruct s; cbn [cond_Zopp]; ring.
Qed.

Lemma spec_rndz_id (s : bool) (m : positive) (e : Z) :
  fin_ok m e ->
  rndz 0 (cond_Zopp s (Zpos m * 2 ^ (e + 1074))) = cond_Zopp s (Zpos m * 2 ^ (e + 1074)).
Proof.
  intros Hok. pose proof (fin_bounds m e Hok) as (He & _ & _ & Hb).
  pose proof (rnd_fin 0 m e ltac:(lia) Hok) as H.
  rewrite Z.pow_0_r, Z.mul_1_r in H.
  assert (0 < Zpos m * 2 ^ (e + 1074)).
  { apply Z.mul_pos_pos; [lia|]. apply Z.pow_pos_nonneg; lia. }
  destruct s; cbn [cond_Zopp].
  - rewrite rndz_opp, rndz_pos, H by lia. reflexivity.
  - rewrite rndz_pos, H by lia. reflexivity.
Qed.

(** Addition of finite numbers of any sign. *)
Lemma add_Ord_fin (x y : float) :
  is_finite x = true -> is_finite y = true ->
  is_nan (x + y)%float = false /\
  Ord (x + y)%float = rndz 0 (Ord x + Ord y).
Proof.
  intros Hx Hy. rewrite is_nan_false. unfold Ord.
  rewrite FloatAxioms.add_spec. unfold SF64add.
  destruct (finite_cases x Hx) as [[sx ->]|(sx & mx & ex & -> & Okx)];
    destruct (finite_cases y Hy) as [[sy ->]|(sy & my & ey & -> & Oky)];
    cbn [SFadd ord].
  - destruct sx, sy; split; try discriminate; reflexivity.
  - split; [discriminate|]. rewrite Z.add_0_l, spec_rndz_id by assumption. reflexivity.
  - split; [discriminate|]. rewrite Z.add_0_r, spec_rndz_id by assumption. reflexivity.
  - pose proof (fin_bounds mx ex Okx) as (Hex & _).
    pose proof (fin_bounds my ey Oky) as (Hey & _).
    destruct (binary_normalize_ord
                (cond_Zopp sx (Zpos (fst (shl_align mx ex (Z.min ex ey))))
                 + cond_Zopp sy (Zpos (fst (shl_align my ey (Z.min ex ey)))))
                (Z.min ex ey) ltac:(lia)) as [Hn Ho].
    cbv zeta in Hn, Ho. split; [exact Hn|]. rewrite Ho. f_equal.
    rewrite Z.mul_add_distr_r, !shl_align_ord by lia. reflexivity.
Qed.

(** Subtraction of finite numbers of any sign. *)
Lemma sub_Ord_fin (x y : float) :
  is_finite x = true -> is_finite y = true ->
  is_nan (x - y)%float = false /\
  Ord (x - y)%float = rndz 0 (Ord x - Ord y).
Proof.
  intros Hx Hy. rewrite is_nan_false. unfold Ord.
  rewrite FloatAxioms.sub_spec. unfold SF64sub.
  destruct (finite_cases x Hx) as [[sx ->]|(sx & mx & ex & -> & Okx)];
    destruct (finite_cases y Hy) as [[sy ->]|(sy & my & ey & -> & Oky)];
    cbn [SFsub ord].
  - destruct sx, sy; split; try discriminate; reflexivity.
  - split; [discriminate|]. rewrite Z.sub_0_l.
    pose proof (spec_rndz_id (negb sy) my ey Oky) as H.
    destruct sy; cbn [negb cond_Zopp] in *; rewrite ?Z.opp_involutive; rewrite H; reflexivity.
  - split; [discriminate|]. rewrite Z.sub_0_r, spec_rndz_id by assumption. reflexivity.
  - pose proof (fin_bounds mx ex Okx) as (Hex & _).
    pose proof (fin_bounds my ey Oky) as (Hey & _).
    destruct (binary_normalize_ord
                (cond_Zopp sx (Zpos (fst (shl_align mx ex (Z.min ex ey))))
                 - cond_Zopp sy (Zpos (fst (shl_align my ey (Z.min ex ey)))))
                (Z.min ex ey) ltac:(lia)) as [Hn Ho].
    cbv zeta in Hn, Ho. split; [exact Hn|]. rewrite Ho. f_equal.
    rewrite Z.mul_sub_distr_r, !shl_align_ord by lia. reflexivity.
Qed.

(** Multiplication of finite numbers of any sign. *)
Lemma mul_Ord_fin (x y : float) :
  is_finite x = true -> is_finite y = true ->
  is_nan (x * y)%float = false /\
  Ord (x * y)%float = rndz 1074 (Ord x * Ord y).
Proof.
  intros Hx Hy. apply is_finite_Ord in Hx as [Nx Fx]. apply is_finite_Ord in Hy as [Ny Fy].
  destruct (mul_Ord x y Nx Ny Fx Fy) as [Hn Ho]. split; [exact Hn|].
  rewrite Ho. unfold rndz. rewrite Z.sgn_mul, Z.abs_mul. reflexivity.
Qed.

Lemma opp_Ord (x : float) : Ord (- x)%float = - Ord x.
Proof.
  unfold Ord. rewrite FloatAxioms.opp_spec.
  destruct (Prim2SF x) as [s|s| |s m e]; cbn [SFopp ord]; try reflexivity;
    destruct s; cbn [negb cond_Zopp]; lia.
Qed.

Lemma opp_finite (x : float) : is_finite x = true -> is_finite (- x)%float = true.
Proof.
  intros Hx. apply is_finite_Ord in Hx as [Nx Fx]. apply is_finite_Ord.
  split; [apply opp_num; exact Nx|]. rewrite opp_Ord. lia.
Qed.

(** A number between two finite bounds is finite. *)
Lemma finite_between (x : float) (lo hi : Z) :
  is_nan x = false -> - INF < lo -> hi < INF -> lo <= Ord x <= hi ->
  is_finite x = true.
Proof. intros Hn Hlo Hhi Hb. apply is_finite_Ord. split; [exact Hn|lia]. Qed.

Lemma classify_negzero (x : float) :
  classify x = NZero <-> Prim2SF x = S754_zero true.
Proof.
  rewrite classify_spec. unfold SF64classify.
  destruct (Prim2SF x) as [s|s| |s m e]; cbn [SFclassify].
  - destruct s; split; congruence.
  - destruct s; split; congruence.
  - split; congruence.
  - destruct s; destruct (_ =? _); split; congruence.
Qed.

(** Adding [+0] changes nothing, except that [-0 + 0] is [+0]. *)
Lemma add_zero_r (x : float) : classify x <> NZero -> (x + 0)%float = x.
Proof.
  rewrite classify_negzero. intros Hc.
  apply Prim2SF_inj. rewrite FloatAxioms.add_spec. unfold SF64add.
  change (Prim2SF 0) with (S754_zero false).
  destruct (Prim2SF x) as [s|s| |s m e]; cbn [SFadd]; try reflexivity.
  destruct s; [|reflexivity]. congruence.
Qed.

Lemma binary_round_nonzero (s s' : bool) (p : positive) (e : Z) :
  -1074 <= e -> binary_round prec emax s p e <> S754_zero s'.
Proof.
  intros He E. destruct (binary_round_ord s p e He) as (_ & _ & Ho).
  cbv zeta in Ho. rewrite E in Ho. cbn [ord] in Ho.
  assert (0 < 2 ^ (e + 1074)) by (apply Z.pow_pos_nonneg; lia).
  pose proof (rnd_mono 0 1 (Zpos p * 2 ^ (e + 1074)) ltac:(lia) ltac:(nia)) as Hm.
  change (rnd 0 1) with 1 in Hm. destruct s; cbn [cond_Zopp] in Ho; lia.
Qed.

(** A sum is [-0] only if its first term is. *)
Lemma add_not_negzero (x y : float) :
  classify x <> NZero -> classify (x + y)%float <> NZero.
Proof.
  rewrite !classify_negzero. intros Hc.
  rewrite FloatAxioms.add_spec. unfold SF64add.
  pose proof (Prim2SF_valid x) as Vx. pose proof (Prim2SF_valid y) as Vy.
  destruct (Prim2SF x) as [sx|sx| |sx mx ex];
    destruct (Prim2SF y) as [sy|sy| |sy my ey]; cbn [SFadd];
    try discriminate; try assumption;
    try (destruct sx, sy; congruence).
  apply valid_finite in Vx, Vy.
  pose proof (fin_bounds mx ex Vx) as (Hex & _).
  pose proof (fin_bounds my ey Vy) as (Hey & _).
  set (z := cond_Zopp sx _ + cond_Zopp sy _).
  destruct z as [|p|p]; cbn [binary_normalize]; [discriminate|..];
    apply binary_round_nonzero; lia.
Qed.

Local Close Scope Z_scope.

(** ** Comparisons and bounds *)

Lemma leb_true (x y : float) :
  (x <=? y) = true <-> is_nan x = false /\ is_nan y = false /\ (Ord x <= Ord y)%Z.
Proof.
  split.
  - intros H.
    assert (Hn : is_nan x = false /\ is_nan y = false).
    { rewrite !is_nan_false. rewrite FloatAxioms.leb_spec in H. unfold SFleb in H.
      destruct (Prim2SF x), (Prim2SF y); simpl in H; split; congruence. }
    destruct Hn as [Hx Hy]. rewrite leb_Ord in H by assumption.
    apply Z.leb_le in H. auto.
  - intros (Hx & Hy & H). rewrite leb_Ord by assumption. apply Z.leb_le. exact H.
Qed.

Lemma ltb_true (x y : float) :
  (x <? y) = true <-> is_nan x = false /\ is_nan y = false /\ (Ord x < Ord y)%Z.
Proof.
  split.
  - intros H.
    assert (Hn : is_nan x = false /\ is_nan y = false).
    { rewrite !is_nan_false. rewrite FloatAxioms.ltb_spec in H. unfold SFltb in H.
      destruct (Prim2SF x), (Prim2SF y); simpl in H; split; congruence. }
    destruct Hn as [Hx Hy]. rewrite ltb_Ord in H by assumption.
    apply Z.ltb_lt in H. auto.
  - intros (Hx & Hy & H). rewrite ltb_Ord by assumption. apply Z.ltb_lt. exact H.
Qed.

Lemma finite_max (x : float) : is_finite x = true -> (Z.abs (Ord x) <= MAXF)%Z.
Proof.
  intros Hx. unfold Ord.
  destruct (finite_cases x Hx) as [[s ->]|(s & m & e & -> & [Hcan He])]; cbn [ord].
  - vm_compute. discriminate.
  - pose proof (fin_bounds m e (conj Hcan He)) as (He' & Hm & _ & Hb).
    assert (2 ^ (e + 1074) <= 2 ^ 2045)%Z by (apply Z.pow_le_mono_r; lia).
    assert (0 < 2 ^ (e + 1074))%Z by (apply Z.pow_pos_nonneg; lia).
    unfold MAXF, INF. change (2 ^ 2098)%Z with (2 ^ 53 * 2 ^ 2045)%Z.
    assert (0 < 2 ^ 2045)%Z by reflexivity.
    destruct s; cbn [cond_Zopp]; nia.
Qed.

Lemma finite_of_max (x : float) :
  is_nan x = false -> (Z.abs (Ord x) <= MAXF)%Z -> is_finite x = true.
Proof.
  intros Hn Hb. apply is_finite_Ord. split; [exact Hn|].
  assert (MAXF < INF)%Z by reflexivity. lia.
Qed.

(** Bounds on both operands bound a difference. *)
Lemma sub_between (a b : float) (la ha lb hb : Z) :
  is_finite a = true -> is_finite b = true ->
  (la <= Ord a <= ha)%Z -> (lb <= Ord b <= hb)%Z ->
  is_nan (a - b) = false /\ (rndz 0 (la - hb) <= Ord (a - b) <= rndz 0 (ha - lb))%Z.
Proof.
  intros Ha Hb Ba Bb. destruct (sub_Ord_fin a b Ha Hb) as [Hn Ho].
  split; [exact Hn|]. rewrite Ho. split; apply rndz_mono; lia.
Qed.

Lemma add_between (a b : float) (la ha lb hb : Z) :
  is_finite a = true -> is_finite b = true ->
  (la <= Ord a <= ha)%Z -> (lb <= Ord b <= hb)%Z ->
  is_nan (a + b) = false /\ (rndz 0 (la + lb) <= Ord (a + b) <= rndz 0 (ha + hb))%Z.
Proof.
  intros Ha Hb Ba Bb. destruct (add_Ord_fin a b Ha Hb) as [Hn Ho].
  split; [exact Hn|]. rewrite Ho. split; apply rndz_mono; lia.
Qed.

(** Scaling by a non-negative constant keeps bounds. *)
Lemma mul_between (a c : float) (la ha : Z) :
  is_finite a = true -> is_finite c = true -> (0 <= Ord c)%Z ->
  (la <= Ord a <= ha)%Z ->
  is_nan (a * c) = false /\
  (rndz 1074 (la * Ord c) <= Ord (a * c) <= rndz 1074 (ha * Ord c))%Z.
Proof.
  intros Ha Hc Pc Ba. destruct (mul_Ord_fin a c Ha Hc) as [Hn Ho].
  split; [exact Hn|]. rewrite Ho. split; apply rndz_mono; nia.
Qed.

(** Scaling by a non-positive constant swaps them. *)
Lemma mul_between_neg (a c : float) (la ha : Z) :
  is_finite a = true -> is_finite c = true -> (Ord c <= 0)%Z ->
  (la <= Ord a <= ha)%Z ->
  is_nan (a * c) = false /\
  (rndz 1074 (ha * Ord c) <= Ord (a * c) <= rndz 1074 (la * Ord c))%Z.
Proof.
  intros Ha Hc Pc Ba. destruct (mul_Ord_fin a c Ha Hc) as [Hn Ho].
  split; [exact Hn|]. rewrite Ho. split; apply rndz_mono; nia.
Qed.

(** ** NaN *)

Lemma is_nan_true (x : float) : is_nan x = true <-> Prim2SF x = S754_nan.
Proof.
  split.
  - intros H. destruct (Prim2SF x) eqn:E; try reflexivity;
      assert (is_nan x = false) by (apply is_nan_false; rewrite E; discriminate);
      congruence.
  - intros E. destruct (is_nan x) eqn:H; [reflexivity|].
    apply is_nan_false in H. congruence.
Qed.

Lemma mul_nan (x y : float) : is_nan x = true \/ is_nan y = true -> is_nan (x * y) = true.
Proof.
  rewrite !is_nan_true, FloatAxioms.mul_spec. unfold SF64mul.
  intros [-> | ->]; [reflexivity|]. destruct (Prim2SF x); reflexivity.
Qed.

Lemma add_nan (x y : float) : is_nan x = true \/ is_nan y = true -> is_nan (x + y) = true.
Proof.
  rewrite !is_nan_true, FloatAxioms.add_spec. unfold SF64add.
  intros [-> | ->]; [reflexivity|]. destruct (Prim2SF x); reflexivity.
Qed.

Lemma ltb_nan (x y : float) : is_nan x = true -> (x <? y) = false.
Proof.
  rewrite is_nan_true, FloatAxioms.ltb_spec. unfold SFltb. intros ->. reflexivity.
Qed.

(* ===================================================================== *)
(** * Part X: the hand tracker, continued *)
(* ===================================================================== *)

Section TrackerMore.
Import Store Tracker.
Variable hypot : float -> float -> float -> float.

Ltac run_handFound :=
  unfold handFound, countIfFolded, isFingerFolded, bind, index, update, ret; simpl;
  repeat match goal with |- context [if ?b then _ else _] => destruct b end.

(** What [handFound] does to a hand with too few landmarks. *)
Lemma handFound_short (hand : list Landmark) (s : AppState) :
  (List.length hand < 21)%nat ->
  fst (handFound hypot hand s) = None /\
  isHandDetected (snd (handFound hypot hand s)) = true /\
  gesture (snd (handFound hypot hand s)) = gesture s /\
  handPosition (snd (handFound hypot hand s))
  = match hand !! 8%nat with
    | Some tip => Some (mkV3 ((0.5 - lmx tip) * 10) ((0.5 - lmy tip) * 8) (lmz tip * -10))
    | None => handPosition s
    end.
Proof.
  intros Hlen.
  do 21 (destruct hand as [|? hand];
         [run_handFound; repeat split; reflexivity|]).
  simpl in Hlen. lia.
Qed.

Lemma handFound_frame (hand : list Landmark) (s : AppState) :
  config (snd (handFound hypot hand s)) = config s /\
  isConfiguring (snd (handFound hypot hand s)) = isConfiguring s /\
  error (snd (handFound hypot hand s)) = error s.
Proof.
  destruct (Nat.lt_ge_cases (List.length hand) 21) as [Hlt|Hge].
  - do 21 (destruct hand as [|? hand];
           [run_handFound; repeat split; reflexivity|]).
    simpl in Hlt. lia.
  - destruct (handFound_ok hypot hand s Hge) as (w & tip & _ & _ & ->).
    repeat split.
Qed.

Lemma handFound_reads (hand hand' : list Landmark) (s : AppState) :
  Forall (fun i => hand' !! i = hand !! i) readLandmarks ->
  handFound hypot hand' s = handFound hypot hand s.
Proof.
  intros H. unfold readLandmarks in H.
  repeat match goal with
         | H : Forall _ (_ :: _) |- _ =>
             let E := fresh "E" in apply Forall_cons in H as [E H]
         end.
  unfold handFound, countIfFolded, isFingerFolded, bind, index.
  rewrite E, E0, E1, E2, E3, E4, E5, E6, E7. reflexivity.
Qed.

Lemma handFound_again (hand : list Landmark) (s s' : AppState) :
  handFound hypot hand s = (Some tt, s') -> handFound hypot hand s' = (Some tt, s').
Proof.
  intros H.
  destruct (Nat.lt_ge_cases (List.length hand) 21) as [Hlt|Hge].
  - destruct (handFound_short hand s Hlt) as [Hf _]. rewrite H in Hf. discriminate.
  - destruct (handFound_ok hypot hand s Hge) as (w & tip & Hw & Ht & E).
    destruct (handFound_ok hypot hand s' Hge) as (w' & tip' & Hw' & Ht' & E').
    rewrite E'. rewrite E in H. injection H as <-.
    assert (w' = w) by congruence. assert (tip' = tip) by congruence. subst.
    reflexivity.
Qed.

(** [predictWebcam], case by case. *)
Lemma predictWebcam_eq (f : VideoFrame) (t : float) (s : AppState) :
  predictWebcam hypot f t s =
  if negb (ready f) || (currentTime f =? t) then (Some t, s)
  else match landmarks f with
       | Some (hand :: _) =>
           match handFound hypot hand s with
           | (Some _, s') => (Some (currentTime f), s')
           | (None, s') => (None, s')
           end
       | _ => (Some (currentTime f),
               setGesture None (setHandPosition None (setIsHandDetected false s)))
       end.
Proof.
  unfold predictWebcam. destruct (ready f); [|reflexivity].
  destruct (currentTime f =? t); [reflexivity|]. cbn [negb orb].
  destruct (landmarks f) as [[|hand rest]|]; try reflexivity.
Qed.

End TrackerMore.


(** X1: A processed frame throws exactly when its first hand has fewer than
    the 21 landmarks the code indexes; the detection flag is then already
    set, the gesture is the previous one, and the loop is not rescheduled. *)
Theorem predictWebcam_throws_on_short_hand
        (hypot : float -> float -> float -> float)
        (f : Tracker.VideoFrame) (t : float) (s : Store.AppState) :
  let out := Tracker.predictWebcam hypot f t s in
  (fst out = None <->
   Tracker.ready f = true /\ (Tracker.currentTime f =? t) = false /\
   exists hand rest,
     Tracker.landmarks f = Some (hand :: rest) /\ (List.length hand < 21)%nat) /\
  (fst out = None ->
   Store.isHandDetected (snd out) = true /\
   Store.gesture (snd out) = Store.gesture s /\
   forall fs, Tracker.track hypot (f :: fs) t s = snd out).
Proof.
  cbv zeta.
  assert (Htrack : fst (Tracker.predictWebcam hypot f t s) = None ->
                   forall fs, Tracker.track hypot (f :: fs) t s
                              = snd (Tracker.predictWebcam hypot f t s)).
  { intros H fs. cbn [Tracker.track].
    destruct (Tracker.predictWebcam hypot f t s) as [[t'|] s']; [discriminate|reflexivity]. }
  revert Htrack. rewrite predictWebcam_eq.
  destruct (Tracker.ready f); cbn [negb orb].
  2:{ intros _. split; [split; [discriminate | intros [? _]; discriminate] | discriminate]. }
  destruct (Tracker.currentTime f =? t) eqn:Ht.
  1:{ intros _. split; [split; [discriminate | intros (_ & ? & _); discriminate]
                       | discriminate]. }
  destruct (Tracker.landmarks f) as [[|hand rest]|] eqn:Hl.
  1,3: intros _; split; [split; [discriminate | intros (_ & _ & ? & ? & ? & _); discriminate]
                        | discriminate].
  intros Htrack.
  destruct (Nat.lt_ge_cases (List.length hand) 21) as [Hlt|Hge].
  - destruct (handFound_short hypot hand s Hlt) as (Hf & Hd & Hg & _).
    destruct (Tracker.handFound hypot hand s) as [[[]|] s']; [discriminate|].
    cbn [fst snd] in *. split.
    + split; [|reflexivity]. intros _. repeat split. exists hand, rest. split; [reflexivity|lia].
    + intros _. auto.
  - destruct (handFound_ok hypot hand s Hge) as (w & tip & _ & _ & ->). cbn [fst snd].
    split; [|discriminate]. split; [discriminate|].
    intros (_ & _ & h & r & E & Hlen). injection E as <- <-. lia.
Qed.

Lemma predictWebcam_throws_on_short_hand_witness :
  let out := Tracker.predictWebcam MathJS.Math_hypot
               (Tracker.mkVideoFrame true 0 (Some [short_hand])) (-1) Store.initial in
  fst out = None /\
  Store.isHandDetected (snd out) = true /\
  Store.gesture (snd out) = Store.gesture Store.initial.
Proof.
  pose proof (predictWebcam_throws_on_short_hand MathJS.Math_hypot
                (Tracker.mkVideoFrame true 0 (Some [short_hand])) (-1) Store.initial) as H.
  cbv zeta in H. destruct H as [Hiff Hthrow].
  assert (Hnone : fst (Tracker.predictWebcam MathJS.Math_hypot
                         (Tracker.mkVideoFrame true 0 (Some [short_hand])) (-1)
                         Store.initial) = None).
  { apply Hiff. split; [reflexivity|]. split; [reflexivity|].
    exists short_hand, []. split; [reflexivity|]. vm_compute. lia. }
  destruct (Hthrow Hnone) as (H1 & H2 & _).
  split; [exact Hnone|]. split; [exact H1|exact H2].
Defined.

(** X2: The tracker reads the first hand only, and of it only the wrist and
    the PIP joints and tips of four fingers: frames that agree on these
    nine landmarks are processed alike, whatever the thumb and the other
    landmarks and hands are. *)
Theorem predictWebcam_reads_nine_landmarks
        (hypot : float -> float -> float -> float)
        (f f' : Tracker.VideoFrame) (t : float) (s : Store.AppState)
        (hand hand' : list Tracker.Landmark) (rest rest' : list (list Tracker.Landmark)) :
  Tracker.ready f' = Tracker.ready f ->
  Tracker.currentTime f' = Tracker.currentTime f ->
  Tracker.landmarks f = Some (hand :: rest) ->
  Tracker.landmarks f' = Some (hand' :: rest') ->
  Forall (fun i => hand' !! i = hand !! i) readLandmarks ->
  Tracker.predictWebcam hypot f' t s = Tracker.predictWebcam hypot f t s.
Proof.
  intros Hr Ht Hl Hl' Hagree.
  rewrite !predictWebcam_eq, Hr, Ht, Hl, Hl', (handFound_reads hypot hand hand' s Hagree).
  reflexivity.
Qed.

Lemma predictWebcam_reads_nine_landmarks_witness :
  Tracker.predictWebcam MathJS.Math_hypot
    (Tracker.mkVideoFrame true 0 (Some [thumb_tucked_hand; short_hand])) (-1) Store.initial
  = Tracker.predictWebcam MathJS.Math_hypot
      (Tracker.mkVideoFrame true 0 (Some [two_folded_hand])) (-1) Store.initial.
Proof.
  apply (predictWebcam_reads_nine_landmarks MathJS.Math_hypot
           (Tracker.mkVideoFrame true 0 (Some [two_folded_hand]))
           (Tracker.mkVideoFrame true 0 (Some [thumb_tucked_hand; short_hand]))
           (-1) Store.initial two_folded_hand thumb_tucked_hand [] [short_hand]);
    try reflexivity.
  repeat constructor.
Defined.

(** X3: The tracker never writes the configuration, the configuring flag or
    the error, on any sequence of frames, also when it throws. *)
Theorem tracker_writes_hand_fields_only
        (hypot : float -> float -> float -> float) (fs : list Tracker.VideoFrame) :
  forall (t : float) (s : Store.AppState),
    Store.config (Tracker.track hypot fs t s) = Store.config s /\
    Store.isConfiguring (Tracker.track hypot fs t s) = Store.isConfiguring s /\
    Store.error (Tracker.track hypot fs t s) = Store.error s.
Proof.
  induction fs as [|f fs IH]; intros t s; [repeat split|].
  cbn [Tracker.track].
  assert (Hstep : Store.config (snd (Tracker.predictWebcam hypot f t s)) = Store.config s /\
                  Store.isConfiguring (snd (Tracker.predictWebcam hypot f t s))
                  = Store.isConfiguring s /\
                  Store.error (snd (Tracker.predictWebcam hypot f t s)) = Store.error s).
  { rewrite predictWebcam_eq.
    destruct (negb (Tracker.ready f) || (Tracker.currentTime f =? t)); [repeat split|].
    destruct (Tracker.landmarks f) as [[|hand rest]|]; [repeat split| |repeat split].
    pose proof (handFound_frame hypot hand s) as H.
    destruct (Tracker.handFound hypot hand s) as [[[]|] s']; exact H. }
  destruct (Tracker.predictWebcam hypot f t s) as [[t'|] s']; cbn [snd] in Hstep.
  - destruct (IH t' s') as (H1 & H2 & H3). destruct Hstep as (G1 & G2 & G3).
    repeat split; congruence.
  - exact Hstep.
Qed.

(** X4: Calling [predictWebcam] again on the same video frame changes
    nothing: neither the store nor the remembered video time. *)
Theorem predictWebcam_same_frame_twice
        (hypot : float -> float -> float -> float)
        (f : Tracker.VideoFrame) (t t' : float) (s s' : Store.AppState) :
  Tracker.predictWebcam hypot f t s = (Some t', s') ->
  Tracker.predictWebcam hypot f t' s' = (Some t', s').
Proof.
  rewrite !predictWebcam_eq.
  destruct (Tracker.ready f); cbn [negb orb].
  2:{ intros [= <- <-]. reflexivity. }
  destruct (Tracker.currentTime f =? t) eqn:Ht.
  1:{ intros [= <- <-]. rewrite Ht. reflexivity. }
  destruct (Tracker.landmarks f) as [[|hand rest]|] eqn:Hl.
  1,3: intros [= <- <-]; destruct (Tracker.currentTime f =? Tracker.currentTime f);
       [reflexivity | destruct s; reflexivity].
  destruct (Tracker.handFound hypot hand s) as [[[]|] s1] eqn:E; [|discriminate].
  intros [= <- <-].
  destruct (Tracker.currentTime f =? Tracker.currentTime f); [reflexivity|].
  rewrite (handFound_again hypot hand s s1 E). reflexivity.
Qed.

Lemma predictWebcam_same_frame_twice_witness :
  let f := Tracker.mkVideoFrame true 0 (Some [two_folded_hand]) in
  let s' := snd (Tracker.predictWebcam MathJS.Math_hypot f (-1) Store.initial) in
  Tracker.predictWebcam MathJS.Math_hypot f 0 s' = (Some 0, s').
Proof.
  apply (predictWebcam_same_frame_twice MathJS.Math_hypot
           (Tracker.mkVideoFrame true 0 (Some [two_folded_hand])) (-1) 0 Store.initial).
  vm_compute. reflexivity.
Defined.

(** X5: No history: after a processed well-formed frame the three hand fields
    are those of this frame alone, whatever the store held before. *)
Theorem hand_fields_overwritten
        (hypot : float -> float -> float -> float)
        (f : Tracker.VideoFrame) (t : float) (s1 s2 : Store.AppState) :
  Tracker.ready f = true -> (Tracker.currentTime f =? t) = false ->
  wellFormed f = true ->
  let out1 := snd (Tracker.predictWebcam hypot f t s1) in
  let out2 := snd (Tracker.predictWebcam hypot f t s2) in
  Store.handPosition out1 = Store.handPosition out2 /\
  Store.isHandDetected out1 = Store.isHandDetected out2 /\
  Store.gesture out1 = Store.gesture out2.
Proof.
  intros Hr Ht Hwf. cbv zeta. rewrite !predictWebcam_eq, Hr, Ht. cbn [negb orb].
  unfold wellFormed in Hwf.
  destruct (Tracker.landmarks f) as [[|hand rest]|]; [repeat split| |repeat split].
  apply Nat.leb_le in Hwf.
  destruct (handFound_ok hypot hand s1 Hwf) as (w1 & tip1 & Hw1 & Ht1 & ->).
  destruct (handFound_ok hypot hand s2 Hwf) as (w2 & tip2 & Hw2 & Ht2 & ->).
  assert (w2 = w1) by congruence. assert (tip2 = tip1) by congruence. subst.
  repeat split.
Qed.

Lemma hand_fields_overwritten_witness :
  let f := Tracker.mkVideoFrame true 0 (Some [two_folded_hand]) in
  let out1 := snd (Tracker.predictWebcam MathJS.Math_hypot f (-1) Store.initial) in
  let out2 := snd (Tracker.predictWebcam MathJS.Math_hypot f (-1)
                     (Store.mkApp (Some (mkV3 1 2 3)) true (Some Store.CLOSED)
                                  Store.DEFAULT_CONFIG false None)) in
  Store.handPosition out1 = Store.handPosition out2 /\
  Store.isHandDetected out1 = Store.isHandDetected out2 /\
  Store.gesture out1 = Store.gesture out2.
Proof.
  apply (hand_fields_overwritten MathJS.Math_hypot
           (Tracker.mkVideoFrame true 0 (Some [two_folded_hand])) (-1)); reflexivity.
Defined.

(** ** The hand position *)

(** [0.5 - t] never overflows. *)
Lemma half_minus_finite (t : float) : is_finite t = true -> is_finite (0.5 - t) = true.
Proof.
  intros Ht. pose proof (finite_max t Ht) as Hb.
  destruct (sub_between 0.5 t (Ord 0.5) (Ord 0.5) (- MAXF) MAXF eq_refl Ht
              ltac:(lia) ltac:(lia)) as [Hn [Hlo Hhi]].
  apply finite_of_max; [exact Hn|].
  assert (E1 : rndz 0 (Ord 0.5 - MAXF) = (- MAXF)%Z) by (vm_compute; reflexivity).
  assert (E2 : rndz 0 (Ord 0.5 - - MAXF) = MAXF) by (vm_compute; reflexivity).
  lia.
Qed.

(** The horizontal and vertical mapping [(0.5 - t) * c] of the tracker. *)
Lemma screen_axis_range (t c : float) (L : Z) :
  (0 <=? t) = true -> (t <=? 1) = true ->
  is_finite c = true -> (0 <= Ord c)%Z ->
  rndz 1074 (Ord 0.5 * Ord c) = L ->
  is_nan ((0.5 - t) * c) = false /\ (- L <= Ord ((0.5 - t) * c) <= L)%Z.
Proof.
  intros H0 H1 Hc Pc HL.
  apply leb_true in H0 as (_ & Nt & B0). apply leb_true in H1 as (_ & _ & B1).
  change (Ord 0) with 0%Z in B0. change (Ord 1) with (2 ^ 1074)%Z in B1.
  assert (Ht : is_finite t = true).
  { apply is_finite_Ord. split; [exact Nt|]. assert (2 ^ 1074 < INF)%Z by reflexivity. lia. }
  destruct (sub_between 0.5 t (Ord 0.5) (Ord 0.5) 0 (2 ^ 1074) eq_refl Ht
              ltac:(lia) ltac:(lia)) as [Hn [Hlo Hhi]].
  assert (E1 : rndz 0 (Ord 0.5 - 2 ^ 1074) = (- Ord 0.5)%Z) by (vm_compute; reflexivity).
  assert (E2 : rndz 0 (Ord 0.5 - 0) = Ord 0.5) by (vm_compute; reflexivity).
  rewrite E1 in Hlo. rewrite E2 in Hhi.
  destruct (mul_between (0.5 - t) c (- Ord 0.5) (Ord 0.5) (half_minus_finite t Ht) Hc Pc
              ltac:(lia)) as [Hn' [Hlo' Hhi']].
  split; [exact Hn'|].
  replace (- Ord 0.5 * Ord c)%Z with (- (Ord 0.5 * Ord c))%Z in Hlo' by lia.
  rewrite rndz_opp, HL in Hlo'. rewrite HL in Hhi'. lia.
Qed.

Lemma screen_axis_mono (t t' c : float) :
  is_finite t = true -> is_finite t' = true -> (t <=? t') = true ->
  is_finite c = true -> (0 <= Ord c)%Z ->
  ((0.5 - t') * c <=? (0.5 - t) * c) = true.
Proof.
  intros Ht Ht' Hle Hc Pc. apply leb_true in Hle as (_ & _ & Hle).
  destruct (sub_Ord_fin 0.5 t eq_refl Ht) as [_ Ho].
  destruct (sub_Ord_fin 0.5 t' eq_refl Ht') as [_ Ho'].
  destruct (mul_Ord_fin _ c (half_minus_finite t Ht) Hc) as [Hn Hm].
  destruct (mul_Ord_fin _ c (half_minus_finite t' Ht') Hc) as [Hn' Hm'].
  apply leb_true. split; [exact Hn'|]. split; [exact Hn|].
  rewrite Hm, Hm'. apply rndz_mono; [lia|].
  apply Z.mul_le_mono_nonneg_r; [exact Pc|].
  rewrite Ho, Ho'. apply rndz_mono; lia.
Qed.

Lemma depth_axis_mono (z z' : float) :
  is_finite z = true -> is_finite z' = true -> (z <=? z') = true ->
  (z' * -10 <=? z * -10) = true.
Proof.
  intros Hz Hz' Hle. apply leb_true in Hle as (_ & _ & Hle).
  destruct (mul_Ord_fin z (-10) Hz eq_refl) as [Hn Hm].
  destruct (mul_Ord_fin z' (-10) Hz' eq_refl) as [Hn' Hm'].
  apply leb_true. split; [exact Hn'|]. split; [exact Hn|].
  rewrite Hm, Hm'. apply rndz_mono; [lia|].
  assert (Ord (-10) < 0)%Z by reflexivity. nia.
Qed.

(** X6: A processed frame whose index fingertip lies inside the video image
    (normalised coordinates in [0, 1]) stores a hand position with x in
    [-5, 5] and y in [-4, 4]. *)
Theorem hand_position_in_range
        (hypot : float -> float -> float -> float)
        (f : Tracker.VideoFrame) (t : float) (s : Store.AppState)
        (hand : list Tracker.Landmark) (rest : list (list Tracker.Landmark))
        (tip : Tracker.Landmark) :
  Tracker.ready f = true ->
  (Tracker.currentTime f =? t) = false ->
  Tracker.landmarks f = Some (hand :: rest) ->
  (21 <= List.length hand)%nat ->
  hand !! 8%nat = Some tip ->
  (0 <=? Tracker.lmx tip) = true -> (Tracker.lmx tip <=? 1) = true ->
  (0 <=? Tracker.lmy tip) = true -> (Tracker.lmy tip <=? 1) = true ->
  exists p,
    Store.handPosition (snd (Tracker.predictWebcam hypot f t s)) = Some p /\
    (-5 <=? v3x p) = true /\ (v3x p <=? 5) = true /\
    (-4 <=? v3y p) = true /\ (v3y p <=? 4) = true.
Proof.
  intros Hr Ht Hl Hlen Htip X0 X1 Y0 Y1.
  rewrite predictWebcam_eq, Hr, Ht, Hl. cbn [negb orb].
  destruct (handFound_ok hypot hand s Hlen) as (w & tip' & _ & Htip' & ->).
  assert (tip' = tip) by congruence. subst tip'.
  eexists. split; [reflexivity|]. cbn [v3x v3y].
  destruct (screen_axis_range (Tracker.lmx tip) 10 (Ord 5) X0 X1 eq_refl
              ltac:(vm_compute; discriminate) ltac:(vm_compute; reflexivity)) as [Nx [Lx Hx]].
  destruct (screen_axis_range (Tracker.lmy tip) 8 (Ord 4) Y0 Y1 eq_refl
              ltac:(vm_compute; discriminate) ltac:(vm_compute; reflexivity)) as [Ny [Ly Hy]].
  change (- Ord 5)%Z with (Ord (-5)) in Lx. change (- Ord 4)%Z with (Ord (-4)) in Ly.
  repeat split; apply leb_true; auto.
Qed.

Lemma hand_position_in_range_witness :
  exists p,
    Store.handPosition
      (snd (Tracker.predictWebcam MathJS.Math_hypot
              (Tracker.mkVideoFrame true 0 (Some [two_folded_hand])) (-1) Store.initial))
    = Some p /\
    (-5 <=? v3x p) = true /\ (v3x p <=? 5) = true /\
    (-4 <=? v3y p) = true /\ (v3y p <=? 4) = true.
Proof.
  apply (hand_position_in_range MathJS.Math_hypot
           (Tracker.mkVideoFrame true 0 (Some [two_folded_hand])) (-1) Store.initial
           two_folded_hand [] (Tracker.mkLm 0.55 0.3 0)); reflexivity.
Defined.

(** X7: The mapping mirrors the image: a fingertip further right, further
    down or further from the camera gives a smaller x, y or z. *)
Theorem hand_position_mirrored
        (hypot : float -> float -> float -> float)
        (f f' : Tracker.VideoFrame) (t : float) (s : Store.AppState)
        (hand hand' : list Tracker.Landmark) (rest rest' : list (list Tracker.Landmark))
        (tip tip' : Tracker.Landmark) :
  Tracker.ready f = true -> (Tracker.currentTime f =? t) = false ->
  Tracker.ready f' = true -> (Tracker.currentTime f' =? t) = false ->
  Tracker.landmarks f = Some (hand :: rest) -> (21 <= List.length hand)%nat ->
  Tracker.landmarks f' = Some (hand' :: rest') -> (21 <= List.length hand')%nat ->
  hand !! 8%nat = Some tip -> hand' !! 8%nat = Some tip' ->
  is_finite (Tracker.lmx tip) = true -> is_finite (Tracker.lmy tip) = true ->
  is_finite (Tracker.lmz tip) = true ->
  is_finite (Tracker.lmx tip') = true -> is_finite (Tracker.lmy tip') = true ->
  is_finite (Tracker.lmz tip') = true ->
  exists p p',
    Store.handPosition (snd (Tracker.predictWebcam hypot f t s)) = Some p /\
    Store.handPosition (snd (Tracker.predictWebcam hypot f' t s)) = Some p' /\
    ((Tracker.lmx tip <=? Tracker.lmx tip') = true -> (v3x p' <=? v3x p) = true) /\
    ((Tracker.lmy tip <=? Tracker.lmy tip') = true -> (v3y p' <=? v3y p) = true) /\
    ((Tracker.lmz tip <=? Tracker.lmz tip') = true -> (v3z p' <=? v3z p) = true).
Proof.
  intros Hr Ht Hr' Ht' Hl Hlen Hl' Hlen' Htip Htip' Fx Fy Fz Fx' Fy' Fz'.
  rewrite !predictWebcam_eq, Hr, Ht, Hr', Ht', Hl, Hl'. cbn [negb orb].
  destruct (handFound_ok hypot hand s Hlen) as (w & tp & _ & E & ->).
  destruct (handFound_ok hypot hand' s Hlen') as (w' & tp' & _ & E' & ->).
  assert (tp = tip) by congruence. assert (tp' = tip') by congruence. subst.
  eexists _, _. split; [reflexivity|]. split; [reflexivity|]. cbn [v3x v3y v3z].
  split; [|split]; intros Hle.
  - apply screen_axis_mono; try assumption; [reflexivity | vm_compute; discriminate].
  - apply screen_axis_mono; try assumption; [reflexivity | vm_compute; discriminate].
  - apply depth_axis_mono; assumption.
Qed.

Lemma hand_position_mirrored_witness :
  exists p p',
    Store.handPosition
      (snd (Tracker.predictWebcam MathJS.Math_hypot
              (Tracker.mkVideoFrame true 0 (Some [two_folded_hand])) (-1) Store.initial))
    = Some p /\
    Store.handPosition
      (snd (Tracker.predictWebcam MathJS.Math_hypot
              (Tracker.mkVideoFrame true 0 (Some [shifted_hand])) (-1) Store.initial))
    = Some p' /\
    (v3x p' <=? v3x p) = true /\ (v3y p' <=? v3y p) = true /\ (v3z p' <=? v3z p) = true.
Proof.
  destruct (hand_position_mirrored MathJS.Math_hypot
              (Tracker.mkVideoFrame true 0 (Some [two_folded_hand]))
              (Tracker.mkVideoFrame true 0 (Some [shifted_hand]))
              (-1) Store.initial two_folded_hand shifted_hand [] []
              (Tracker.mkLm 0.55 0.3 0) (Tracker.mkLm 0.8 0.35 0.1)
              eq_refl eq_refl eq_refl eq_refl eq_refl ltac:(vm_compute; lia)
              eq_refl ltac:(vm_compute; lia) eq_refl eq_refl
              eq_refl eq_refl eq_refl eq_refl eq_refl eq_refl)
    as (p & p' & E & E' & Hx & Hy & Hz).
  exists p, p'. split; [exact E|]. split; [exact E'|].
  split; [apply Hx; reflexivity|]. split; [apply Hy; reflexivity|apply Hz; reflexivity].
Defined.

(* ===================================================================== *)
(** * Part XI: the store and the prompt, continued *)
(* ===================================================================== *)

(** X8: Two merges are one merge of the merged responses, and merging the same
    response twice is merging it once. *)
Theorem setConfig_composes (a b : gmap string Store.jsval) (s : Store.AppState) :
  Store.setConfig b (Store.setConfig a s) = Store.setConfig (Store.spread a b) s /\
  Store.setConfig a (Store.setConfig a s) = Store.setConfig a s.
Proof.
  unfold Store.setConfig, Store.spread. cbn [Store.config Store.handPosition
    Store.isHandDetected Store.gesture Store.isConfiguring Store.error].
  split; f_equal.
  - apply (assoc_L (∪)).
  - rewrite (assoc_L (∪)), (idemp_L (∪)). reflexivity.
Qed.

Lemma setConfig_keys (c : gmap string Store.jsval) (s : Store.AppState) (k : string) :
  is_Some (Store.config (Store.setConfig c s) !! k)
  <-> is_Some (Store.config s !! k) \/ is_Some (c !! k).
Proof.
  cbn [Store.setConfig Store.config]. rewrite lookup_spread.
  destruct (c !! k) eqn:E.
  - split; [intros _; right; eauto | intros _; eauto].
  - split; [intros H; left; exact H | intros [H|H]; [exact H | destruct H; discriminate]].
Qed.

(** X9: Merging responses never removes a field: after any sequence of merges
    a key is present exactly when it was present before or some response
    had it.  In particular the seven fields of the default configuration
    stay present for ever. *)
Theorem merges_keep_every_field
        (cs : list (gmap string Store.jsval)) (s : Store.AppState) (k : string) :
  (is_Some (Store.config (mergeAll cs s) !! k)
   <-> is_Some (Store.config s !! k) \/ exists c, In c cs /\ is_Some (c !! k)) /\
  (is_Some (Store.DEFAULT_CONFIG !! k) ->
   is_Some (Store.config (mergeAll cs Store.initial) !! k)).
Proof.
  assert (H : forall cs s,
             is_Some (Store.config (mergeAll cs s) !! k)
             <-> is_Some (Store.config s !! k) \/ exists c, In c cs /\ is_Some (c !! k)).
  { clear. induction cs as [|c cs IH]; intros s.
    - cbn. split; [auto | intros [H|(c & [] & _)]; exact H].
    - change (mergeAll (c :: cs) s) with (mergeAll cs (Store.setConfig c s)).
      rewrite IH, setConfig_keys. split.
      + intros [[H|H]|(c' & Hin & H)]; [left; exact H | right; exists c; split; [left|]; auto
                                       | right; exists c'; split; [right|]; auto].
      + intros [H|(c' & [<-|Hin] & H)]; [left; left; exact H | left; right; exact H
                                        | right; exists c'; auto]. }
  split; [apply H|]. intros Hk. apply H. left. exact Hk.
Qed.

Lemma merges_keep_every_field_witness :
  is_Some (Store.config (mergeAll [cyberpunk_rain; {["speed" := Store.JNull]}] Store.initial)
           !! "particleCount").
Proof.
  apply (proj2 (merges_keep_every_field
                  [cyberpunk_rain; {["speed" := Store.JNull]}] Store.initial "particleCount")).
  vm_compute. eauto.
Defined.

Section ControlsMore.
Import Store Controls.
Variable JSON_parse : string -> option (gmap string jsval).

Lemma handleSubmit_failure (o : ApiOutcome) (s : AppState) (l : Local) :
  blank (prompt l) = false -> generateParticleConfig JSON_parse o = None ->
  handleSubmit JSON_parse o (s, l)
  = (setError (Some failure_message) s, mkLocal (prompt l) false).
Proof.
  intros Hb Hg. unfold handleSubmit. rewrite Hb, Hg. destruct s; reflexivity.
Qed.

Lemma handleSubmit_success (o : ApiOutcome) (s : AppState) (l : Local)
      (c : gmap string jsval) :
  blank (prompt l) = false -> generateParticleConfig JSON_parse o = Some c ->
  handleSubmit JSON_parse o (s, l) = (setConfig c (setError None s), mkLocal [] false).
Proof.
  intros Hb Hg. unfold handleSubmit. rewrite Hb, Hg. reflexivity.
Qed.

(** [trim] *)

Lemma isWhiteSpace_spec (c : N) : isWhiteSpace c = true <-> In c whiteSpaceCodeUnits.
Proof.
  split.
  - unfold isWhiteSpace, isSpaceSeparator. rewrite !orb_true_iff, andb_true_iff.
    rewrite !N.eqb_eq, !N.leb_le. intros H.
    assert (Hc : (9 <= c <= 13 \/ c = 32 \/ c = 160 \/ c = 5760 \/ 8192 <= c <= 8202 \/
                  c = 8232 \/ c = 8233 \/ c = 8239 \/ c = 8287 \/ c = 12288 \/
                  c = 65279)%N) by lia.
    clear H. unfold whiteSpaceCodeUnits.
    repeat (destruct Hc as [Hc|Hc]);
      try (subst c; cbn; tauto);
      [assert (E : (c = 9 \/ c = 10 \/ c = 11 \/ c = 12 \/ c = 13)%N) by lia
      |assert (E : (c = 8192 \/ c = 8193 \/ c = 8194 \/ c = 8195 \/ c = 8196 \/ c = 8197 \/
                    c = 8198 \/ c = 8199 \/ c = 8200 \/ c = 8201 \/ c = 8202)%N) by lia];
      repeat (destruct E as [E|E]); subst c; cbn; tauto.
  - unfold whiteSpaceCodeUnits. cbn [In].
    intros H. repeat (destruct H as [H|H]); try contradiction; subst c; reflexivity.
Qed.

Lemma trimStart_nil (s : JSString) : trimStart s = [] <-> forallb isWhiteSpace s = true.
Proof.
  induction s as [|c s IH]; [split; reflexivity|]. cbn [trimStart forallb].
  destruct (isWhiteSpace c); [exact IH|]. split; discriminate.
Qed.

Lemma trimStart_keeps_last (s : JSString) (c : N) :
  isWhiteSpace c = false -> trimStart (s ++ [c]) <> [].
Proof.
  intros Hc. induction s as [|d s IH]; cbn [app trimStart].
  - rewrite Hc. discriminate.
  - destruct (isWhiteSpace d); [exact IH|discriminate].
Qed.

Lemma trimStart_head (s : JSString) :
  match trimStart s with c :: _ => isWhiteSpace c = false | [] => True end.
Proof.
  induction s as [|d s IH]; cbn [trimStart]; [exact I|].
  destruct (isWhiteSpace d) eqn:Hd; [exact IH|exact Hd].
Qed.

Lemma blank_forallb (s : JSString) : blank s = forallb isWhiteSpace s.
Proof.
  unfold blank, trim, trimEnd.
  destruct (forallb isWhiteSpace s) eqn:Hall.
  - apply trimStart_nil in Hall. rewrite Hall. reflexivity.
  - pose proof (trimStart_head s) as Hh.
    destruct (trimStart s) as [|c t] eqn:Hs.
    + apply trimStart_nil in Hs. congruence.
    + cbn [rev]. pose proof (trimStart_keeps_last (rev t) c Hh) as Hne.
      destruct (trimStart (rev t ++ [c])) as [|d u]; [congruence|].
      cbn [rev]. destruct (rev u); reflexivity.
Qed.

(** [!prompt.trim()] holds exactly of the strings made of white space and
    line terminators only. *)
Lemma blank_spec (s : JSString) :
  blank s = true <-> (forall c, In c s -> In c whiteSpaceCodeUnits).
Proof.
  rewrite blank_forallb, forallb_forall.
  split; intros H c Hc; apply isWhiteSpace_spec, H, Hc.
Qed.

End ControlsMore.

(** X10: The prompt is not submitted exactly when it is empty or made only of
    the code units ECMAScript strips as white space and line terminators
    (no-break and ideographic spaces among them): then nothing is
    requested and neither the store (not even its error) nor the component
    changes.  Whatever the prompt and the outcome, a submission never
    touches the hand fields or the configuring flag, and a prompt that was
    submitted is afterwards either kept or empty. *)
Theorem handleSubmit_blank_prompt
        (JSON_parse : string -> option (gmap string Store.jsval))
        (o : Controls.ApiOutcome) (s : Store.AppState) (l : Controls.Local) :
  let out := Controls.handleSubmit JSON_parse o (s, l) in
  let message := "Failed to generate config. Check API Key or try again."%string in
  ((forall c, In c (Controls.prompt l) -> In c whiteSpaceCodeUnits) -> out = (s, l)) /\
  (~ (forall c, In c (Controls.prompt l) -> In c whiteSpaceCodeUnits) ->
   Controls.isLoading (snd out) = false /\
   (Store.error (fst out) = None \/ Store.error (fst out) = Some message)) /\
  Store.handPosition (fst out) = Store.handPosition s /\
  Store.isHandDetected (fst out) = Store.isHandDetected s /\
  Store.gesture (fst out) = Store.gesture s /\
  Store.isConfiguring (fst out) = Store.isConfiguring s /\
  (Controls.prompt (snd out) = Controls.prompt l \/ Controls.prompt (snd out) = []).
Proof.
  cbv zeta. pose proof (blank_spec (Controls.prompt l)) as Hspec.
  unfold Controls.handleSubmit.
  destruct (Controls.blank (Controls.prompt l)).
  - split; [reflexivity|]. split; [|repeat split; auto].
    intros Hn. exfalso. apply Hn, Hspec. reflexivity.
  - split; [intros H; apply Hspec in H; discriminate|].
    split; [intros _|];
      destruct (Controls.generateParticleConfig JSON_parse o); cbn;
      repeat split; auto.
Qed.

Lemma handleSubmit_blank_prompt_witness :
  Controls.handleSubmit (fun _ => Some cyberpunk_rain) (Controls.Resolved (Some "{}"%string))
    (Store.setError (Some "Camera access denied."%string) Store.initial,
     Controls.mkLocal spaces_prompt false)
  = (Store.setError (Some "Camera access denied."%string) Store.initial,
     Controls.mkLocal spaces_prompt false).
Proof.
  apply (handleSubmit_blank_prompt (fun _ => Some cyberpunk_rain)
           (Controls.Resolved (Some "{}"%string))
           (Store.setError (Some "Camera access denied."%string) Store.initial)
           (Controls.mkLocal spaces_prompt false)).
  intros c Hc. cbn in Hc. unfold whiteSpaceCodeUnits.
  repeat (destruct Hc as [Hc|Hc]); try contradiction; subst c; cbn; tauto.
Defined.



(** X12: A failed attempt leaves no trace once the next submission completes:
    submitting after a failure gives the state a first submission would
    have given.  After a success the prompt is empty, so that submitting
    again without typing does nothing. *)
Theorem handleSubmit_retry
        (JSON_parse : string -> option (gmap string Store.jsval))
        (o1 o2 : Controls.ApiOutcome) (s : Store.AppState) (l : Controls.Local) :
  (Controls.generateParticleConfig JSON_parse o1 = None ->
   Controls.handleSubmit JSON_parse o2 (Controls.handleSubmit JSON_parse o1 (s, l))
   = Controls.handleSubmit JSON_parse o2 (s, l)) /\
  (Controls.blank (Controls.prompt l) = false ->
   Controls.generateParticleConfig JSON_parse o1 <> None ->
   Controls.handleSubmit JSON_parse o2 (Controls.handleSubmit JSON_parse o1 (s, l))
   = Controls.handleSubmit JSON_parse o1 (s, l)).
Proof.
  split.
  - intros Hf. destruct (Controls.blank (Controls.prompt l)) eqn:Hb.
    + unfold Controls.handleSubmit at 2. rewrite Hb. reflexivity.
    + rewrite (handleSubmit_failure JSON_parse o1 s l Hb Hf).
      destruct (Controls.generateParticleConfig JSON_parse o2) as [c|] eqn:Hg.
      * rewrite (handleSubmit_success JSON_parse o2 s l c Hb Hg).
        rewrite (handleSubmit_success JSON_parse o2 _ (Controls.mkLocal (Controls.prompt l) false)
                   c Hb Hg).
        destruct s; reflexivity.
      * rewrite (handleSubmit_failure JSON_parse o2 s l Hb Hg).
        rewrite (handleSubmit_failure JSON_parse o2 _
                   (Controls.mkLocal (Controls.prompt l) false) Hb Hg).
        destruct s; reflexivity.
  - intros Hb Hs.
    destruct (Controls.generateParticleConfig JSON_parse o1) as [c|] eqn:Hg; [|congruence].
    rewrite (handleSubmit_success JSON_parse o1 s l c Hb Hg). reflexivity.
Qed.

Lemma handleSubmit_retry_witness :
  Controls.handleSubmit (fun _ => Some cyberpunk_rain) (Controls.Resolved (Some "{}"%string))
    (Controls.handleSubmit (fun _ => Some cyberpunk_rain) Controls.Rejected
       (Store.initial, Controls.mkLocal (utf16 "Cyberpunk Rain") false))
  = Controls.handleSubmit (fun _ => Some cyberpunk_rain) (Controls.Resolved (Some "{}"%string))
      (Store.initial, Controls.mkLocal (utf16 "Cyberpunk Rain") false).
Proof.
  apply (handleSubmit_retry (fun _ => Some cyberpunk_rain) Controls.Rejected
           (Controls.Resolved (Some "{}"%string)) Store.initial
           (Controls.mkLocal (utf16 "Cyberpunk Rain") false)).
  reflexivity.
Defined.

(* ===================================================================== *)
(** * Part XII: the renderer, scale smoothing, continued *)
(* ===================================================================== *)

(** ** Linear interpolation *)

Lemma weight_facts (t : float) :
  (0 <=? t) = true -> (t <=? 1) = true ->
  is_finite t = true /\ is_finite (1 - t) = true /\
  (0 <= Ord t <= 2 ^ 1074)%Z /\ (0 <= Ord (1 - t) <= 2 ^ 1074)%Z.
Proof.
  intros H0 H1.
  apply leb_true in H0 as (_ & Nt & B0). apply leb_true in H1 as (_ & _ & B1).
  change (Ord 0) with 0%Z in B0. change (Ord 1) with (2 ^ 1074)%Z in B1.
  assert (Ht : is_finite t = true).
  { apply is_finite_Ord. split; [exact Nt|]. assert (2 ^ 1074 < INF)%Z by reflexivity. lia. }
  destruct (sub_between 1 t (2 ^ 1074) (2 ^ 1074) 0 (2 ^ 1074) eq_refl Ht
              ltac:(change (Ord 1) with (2 ^ 1074)%Z; lia) ltac:(lia)) as [Hn [Hlo Hhi]].
  assert (E1 : rndz 0 (2 ^ 1074 - 2 ^ 1074) = 0%Z) by (vm_compute; reflexivity).
  assert (E2 : rndz 0 (2 ^ 1074 - 0) = (2 ^ 1074)%Z) by (vm_compute; reflexivity).
  rewrite E1 in Hlo. rewrite E2 in Hhi.
  split; [exact Ht|]. split; [|split; lia].
  apply is_finite_Ord. split; [exact Hn|]. assert (2 ^ 1074 < INF)%Z by reflexivity. lia.
Qed.

Lemma lerp_Ord (x y t : float) :
  (0 <=? t) = true -> (t <=? 1) = true ->
  is_finite x = true -> is_finite y = true ->
  is_nan (MathUtils.lerp x y t) = false /\
  Ord (MathUtils.lerp x y t) = zlerp t (Ord x) (Ord y).
Proof.
  intros H0 H1 Hx Hy. destruct (weight_facts t H0 H1) as (Ft & Fs & Bt & Bs).
  unfold MathUtils.lerp, zlerp.
  destruct (mul_Ord_fin (1 - t) x Fs Hx) as [_ Ha].
  destruct (mul_Ord_fin t y Ft Hy) as [_ Hb].
  pose proof (mul_shrink_finite (1 - t) x Fs ltac:(lia) Hx) as Fa.
  pose proof (mul_shrink_finite t y Ft ltac:(lia) Hy) as Fb.
  destruct (add_Ord_fin _ _ Fa Fb) as [Hn Ho].
  split; [exact Hn|]. rewrite Ho, Ha, Hb. reflexivity.
Qed.

Lemma zlerp_mono (t : float) (ox ox' oy oy' : Z) :
  (0 <= Ord t)%Z -> (0 <= Ord (1 - t))%Z -> (ox <= ox')%Z -> (oy <= oy')%Z ->
  (zlerp t ox oy <= zlerp t ox' oy')%Z.
Proof.
  intros Ht Hs Hx Hy. unfold zlerp. apply rndz_mono; [lia|].
  pose proof (rndz_mono 1074 (Ord (1 - t) * ox) (Ord (1 - t) * ox') ltac:(lia) ltac:(nia)).
  pose proof (rndz_mono 1074 (Ord t * oy) (Ord t * oy') ltac:(lia) ltac:(nia)).
  lia.
Qed.

(** [lerp] is monotone in both of its end points. *)
Lemma lerp_mono (x x' y y' t : float) :
  (0 <=? t) = true -> (t <=? 1) = true ->
  is_finite x = true -> is_finite x' = true -> is_finite y = true -> is_finite y' = true ->
  (x <=? x') = true -> (y <=? y') = true ->
  (MathUtils.lerp x y t <=? MathUtils.lerp x' y' t) = true.
Proof.
  intros H0 H1 Fx Fx' Fy Fy' Hx Hy.
  destruct (weight_facts t H0 H1) as (_ & _ & Bt & Bs).
  destruct (lerp_Ord x y t H0 H1 Fx Fy) as [Hn Ho].
  destruct (lerp_Ord x' y' t H0 H1 Fx' Fy') as [Hn' Ho'].
  apply leb_true in Hx as (_ & _ & Hx). apply leb_true in Hy as (_ & _ & Hy).
  apply leb_true. split; [exact Hn|]. split; [exact Hn'|].
  rewrite Ho, Ho'. apply zlerp_mono; lia.
Qed.

Lemma between_finite (lo hi x : float) :
  is_finite lo = true -> is_finite hi = true ->
  (lo <=? x) = true -> (x <=? hi) = true -> is_finite x = true.
Proof.
  intros Flo Fhi Hlo Hhi.
  apply leb_true in Hlo as (_ & Nx & Hlo). apply leb_true in Hhi as (_ & _ & Hhi).
  apply is_finite_Ord in Flo as [_ Flo]. apply is_finite_Ord in Fhi as [_ Fhi].
  apply is_finite_Ord. split; [exact Nx|lia].
Qed.

(** Between two fixed points of the interpolation nothing escapes. *)
Lemma lerp_between (lo hi x y t : float) :
  (0 <=? t) = true -> (t <=? 1) = true ->
  is_finite lo = true -> is_finite hi = true ->
  MathUtils.lerp lo lo t = lo -> MathUtils.lerp hi hi t = hi ->
  (lo <=? x) = true -> (x <=? hi) = true -> (lo <=? y) = true -> (y <=? hi) = true ->
  (lo <=? MathUtils.lerp x y t) = true /\ (MathUtils.lerp x y t <=? hi) = true.
Proof.
  intros H0 H1 Flo Fhi Elo Ehi Xlo Xhi Ylo Yhi.
  pose proof (between_finite lo hi x Flo Fhi Xlo Xhi) as Fx.
  pose proof (between_finite lo hi y Flo Fhi Ylo Yhi) as Fy.
  split.
  - pose proof (lerp_mono lo x lo y t H0 H1 Flo Fx Flo Fy Xlo Ylo) as H.
    rewrite Elo in H. exact H.
  - pose proof (lerp_mono x hi y hi t H0 H1 Fx Fhi Fy Fhi Xhi Yhi) as H.
    rewrite Ehi in H. exact H.
Qed.

(** ** The scale *)

Lemma targetScale_range (d : bool) (g : Store.HandGesture) :
  (0.4 <=? Particles.targetScale d g) = true /\ (Particles.targetScale d g <=? 1.3) = true.
Proof. destruct (targetScale_values d g) as [-> | [-> | ->]]; split; reflexivity. Qed.

Lemma scale_step_in_range (f : Particles.Frame) (r : Particles.Renderer) :
  (0.4 <=? Particles.currentScale r) = true -> (Particles.currentScale r <=? 1.3) = true ->
  (0.4 <=? Particles.currentScale (Particles.useFrame f r)) = true /\
  (Particles.currentScale (Particles.useFrame f r) <=? 1.3) = true.
Proof.
  intros Hlo Hhi. rewrite currentScale_useFrame.
  destruct (targetScale_range (Particles.isHandDetected f) (Particles.gesture f)) as [Tlo Thi].
  apply lerp_between; try assumption; reflexivity.
Qed.

(** X13: The current scale never leaves [0.4, 1.3]: no rounding error of the
    blend pushes it past the smallest or the largest target. *)
Theorem scale_stays_in_range (fs : list Particles.Frame) :
  forall r : Particles.Renderer,
    (0.4 <=? Particles.currentScale r) = true -> (Particles.currentScale r <=? 1.3) = true ->
    (0.4 <=? Particles.currentScale (Particles.run fs r)) = true /\
    (Particles.currentScale (Particles.run fs r) <=? 1.3) = true.
Proof.
  induction fs as [|f fs IH]; intros r Hlo Hhi; [split; assumption|].
  change (Particles.run (f :: fs) r) with (Particles.run fs (Particles.useFrame f r)).
  destruct (scale_step_in_range f r Hlo Hhi) as [Hlo' Hhi']. apply IH; assumption.
Qed.

Lemma scale_stays_in_range_witness :
  (0.4 <=? Particles.currentScale
             (Particles.run [gestureFrame (Some Store.CLOSED); gestureFrame (Some Store.OPEN)]
                            (Particles.initial 2.0))) = true /\
  (Particles.currentScale
     (Particles.run [gestureFrame (Some Store.CLOSED); gestureFrame (Some Store.OPEN)]
                    (Particles.initial 2.0)) <=? 1.3) = true.
Proof.
  apply (scale_stays_in_range [gestureFrame (Some Store.CLOSED); gestureFrame (Some Store.OPEN)]
           (Particles.initial 2.0)); reflexivity.
Defined.

(** X14: The blend never overshoots: a scale below (above) the frame's target
    is not above (below) it after the frame. *)
Theorem scale_never_overshoots (f : Particles.Frame) (r : Particles.Renderer) :
  is_finite (Particles.currentScale r) = true ->
  let target := Particles.targetScale (Particles.isHandDetected f) (Particles.gesture f) in
  ((Particles.currentScale r <=? target) = true ->
   (Particles.currentScale (Particles.useFrame f r) <=? target) = true) /\
  ((target <=? Particles.currentScale r) = true ->
   (target <=? Particles.currentScale (Particles.useFrame f r)) = true).
Proof.
  intros Fc target. rewrite currentScale_useFrame. fold target.
  assert (Ft : is_finite target = true).
  { subst target.
    destruct (targetScale_values (Particles.isHandDetected f) (Particles.gesture f))
      as [-> | [-> | ->]]; reflexivity. }
  assert (Tt : (target <=? target) = true).
  { apply is_finite_Ord in Ft as [Nt _]. apply leb_true. repeat split; auto. lia. }
  pose proof (lerp_fixed_at_targets (Particles.isHandDetected f) (Particles.gesture f)) as Efix.
  fold target in Efix.
  split; intros Hle.
  - pose proof (lerp_mono (Particles.currentScale r) target target target Particles.LERP_SPEED
                  eq_refl eq_refl Fc Ft Ft Ft Hle Tt) as H.
    rewrite Efix in H. exact H.
  - pose proof (lerp_mono target (Particles.currentScale r) target target Particles.LERP_SPEED
                  eq_refl eq_refl Ft Fc Ft Ft Hle Tt) as H.
    rewrite Efix in H. exact H.
Qed.

Lemma scale_never_overshoots_witness :
  (Particles.currentScale (Particles.useFrame (gestureFrame (Some Store.OPEN))
                                              (Particles.initial 2.0)) <=? 1.3) = true.
Proof.
  apply (scale_never_overshoots (gestureFrame (Some Store.OPEN)) (Particles.initial 2.0)
           eq_refl).
  reflexivity.
Defined.

(** ** Convergence of the scale *)

Lemma run_same_target (target : float) (fs : list Particles.Frame) :
  forall r : Particles.Renderer,
    Forall (fun f => Particles.targetScale (Particles.isHandDetected f) (Particles.gesture f)
                     = target) fs ->
    Particles.currentScale (Particles.run fs r)
    = Nat.iter (List.length fs) (settle target) (Particles.currentScale r).
Proof.
  induction fs as [|f fs IH]; intros r Hfs; [reflexivity|].
  apply Forall_cons in Hfs as [Hf Hfs'].
  change (Particles.run (f :: fs) r) with (Particles.run fs (Particles.useFrame f r)).
  rewrite IH by exact Hfs'. rewrite currentScale_useFrame, Hf.
  cbn [List.length]. rewrite Nat.iter_succ_r. reflexivity.
Qed.

Lemma settle_iter_between (target : float) (n : nat) (s : float) :
  (0.4 <=? target) = true -> (target <=? 1.3) = true ->
  (0.4 <=? s) = true -> (s <=? 1.3) = true ->
  (0.4 <=? Nat.iter n (settle target) s) = true /\
  (Nat.iter n (settle target) s <=? 1.3) = true /\
  (Nat.iter n (settle target) 0.4 <=? Nat.iter n (settle target) s) = true /\
  (Nat.iter n (settle target) s <=? Nat.iter n (settle target) 1.3) = true.
Proof.
  intros Tlo Thi Slo Shi.
  assert (Ft : is_finite target = true) by (apply (between_finite 0.4 1.3); auto).
  assert (Tt : (target <=? target) = true).
  { apply is_finite_Ord in Ft as [Nt _]. apply leb_true. repeat split; auto. lia. }
  assert (Hrange : forall k x, (0.4 <=? x) = true -> (x <=? 1.3) = true ->
                     (0.4 <=? Nat.iter k (settle target) x) = true /\
                     (Nat.iter k (settle target) x <=? 1.3) = true).
  { induction k as [|k IHk]; intros x Xlo Xhi; [split; assumption|].
    change (Nat.iter (S k) (settle target) x)
      with (settle target (Nat.iter k (settle target) x)).
    destruct (IHk x Xlo Xhi) as [Ilo Ihi]. unfold settle.
    apply lerp_between; try assumption; reflexivity. }
  destruct (Hrange n s Slo Shi) as [R1 R2]. split; [exact R1|]. split; [exact R2|].
  induction n as [|n IH]; [split; assumption|].
  change (Nat.iter (S n) (settle target) ?x)
    with (settle target (Nat.iter n (settle target) x)).
  destruct (Hrange n s Slo Shi) as [A1 A2].
  destruct (Hrange n 0.4 eq_refl eq_refl) as [B1 B2].
  destruct (Hrange n 1.3 eq_refl eq_refl) as [C1 C2].
  destruct (IH A1 A2) as [I1 I2].
  assert (Fa : is_finite (Nat.iter n (settle target) s) = true)
    by (apply (between_finite 0.4 1.3); auto).
  assert (Fb : is_finite (Nat.iter n (settle target) 0.4) = true)
    by (apply (between_finite 0.4 1.3); auto).
  assert (Fc : is_finite (Nat.iter n (settle target) 1.3) = true)
    by (apply (between_finite 0.4 1.3); auto).
  unfold settle at 1 3 4 6.
  split; apply lerp_mono; try assumption; reflexivity.
Qed.

Lemma run_scale_in_range (fs : list Particles.Frame) :
  forall r : Particles.Renderer,
    (0.4 <=? Particles.currentScale r) = true -> (Particles.currentScale r <=? 1.3) = true ->
    (0.4 <=? Particles.currentScale (Particles.run fs r)) = true /\
    (Particles.currentScale (Particles.run fs r) <=? 1.3) = true.
Proof.
  induction fs as [|f fs IH]; intros r Hlo Hhi; [split; assumption|].
  change (Particles.run (f :: fs) r) with (Particles.run fs (Particles.useFrame f r)).
  apply IH; apply (scale_step_in_range f r Hlo Hhi).
Qed.

(** Sixty frames toward one of the three targets, from anywhere in
    [0.4, 1.3]: the two extreme trajectories are run on the floats and
    every other one lies between them. *)
Lemma settle_sixty (target s : float) :
  target = 0.4 \/ target = 1.3 \/ target = 1.0 ->
  (0.4 <=? s) = true -> (s <=? 1.3) = true ->
  (target - 0.001 <=? Nat.iter 60 (settle target) s) = true /\
  (Nat.iter 60 (settle target) s <=? target + 0.001) = true.
Proof.
  intros Htarget Slo Shi.
  assert (Hb : forall T, (0.4 <=? T) = true -> (T <=? 1.3) = true ->
                 (T - 0.001 <=? Nat.iter 60 (settle T) 0.4) = true ->
                 (Nat.iter 60 (settle T) 1.3 <=? T + 0.001) = true ->
                 (T - 0.001 <=? Nat.iter 60 (settle T) s) = true /\
                 (Nat.iter 60 (settle T) s <=? T + 0.001) = true).
  { intros T T1 T2 L H.
    destruct (settle_iter_between T 60 s T1 T2 Slo Shi) as (_ & _ & I1 & I2).
    apply leb_true in L as (N1 & N2 & L). apply leb_true in H as (N3 & N4 & H).
    apply leb_true in I1 as (_ & N5 & I1). apply leb_true in I2 as (_ & _ & I2).
    split; apply leb_true; repeat split; auto; lia. }
  destruct Htarget as [-> | [-> | ->]]; apply Hb; vm_compute; reflexivity.
Qed.

(** The last sixty frames of a run under one target. *)
Lemma run_last_sixty (fs : list Particles.Frame) (r : Particles.Renderer) (target : float) :
  (0.4 <=? Particles.currentScale r) = true -> (Particles.currentScale r <=? 1.3) = true ->
  Forall (fun f => Particles.targetScale (Particles.isHandDetected f) (Particles.gesture f)
                   = target) fs ->
  (60 <= List.length fs)%nat ->
  exists s,
    (0.4 <=? s) = true /\ (s <=? 1.3) = true /\
    Particles.currentScale (Particles.run fs r) = Nat.iter 60 (settle target) s /\
    (target = 0.4 \/ target = 1.3 \/ target = 1.0).
Proof.
  intros Hlo Hhi Hfs Hlen.
  assert (Hsplit : fs = firstn (List.length fs - 60) fs ++ skipn (List.length fs - 60) fs)
    by (symmetry; apply firstn_skipn).
  set (fs1 := firstn (List.length fs - 60) fs) in *.
  set (fs2 := skipn (List.length fs - 60) fs) in *.
  assert (Hlen2 : List.length fs2 = 60%nat).
  { subst fs2. rewrite List.length_skipn. lia. }
  assert (Hfs2 : Forall (fun f => Particles.targetScale (Particles.isHandDetected f)
                                     (Particles.gesture f) = target) fs2).
  { rewrite Hsplit in Hfs. apply Forall_app in Hfs. apply Hfs. }
  assert (Hrun : Particles.run fs r = Particles.run fs2 (Particles.run fs1 r)).
  { rewrite Hsplit at 1. unfold Particles.run. apply fold_left_app. }
  destruct (run_scale_in_range fs1 r Hlo Hhi) as [Mlo Mhi].
  exists (Particles.currentScale (Particles.run fs1 r)).
  split; [exact Mlo|]. split; [exact Mhi|]. split.
  - rewrite Hrun, (run_same_target target fs2 _ Hfs2), Hlen2. reflexivity.
  - destruct fs2 as [|f0 ?]; [discriminate|].
    apply Forall_cons in Hfs2 as [Hf0 _]. rewrite <- Hf0.
    apply targetScale_values.
Qed.

(** X15: Under a constant gesture the scale settles: from any scale in
    [0.4, 1.3], after 60 frames or more with the same target, it is within
    0.001 of that target. *)
Theorem scale_settles_within_60_frames (fs : list Particles.Frame) (r : Particles.Renderer)
        (target : float) :
  (0.4 <=? Particles.currentScale r) = true -> (Particles.currentScale r <=? 1.3) = true ->
  Forall (fun f => Particles.targetScale (Particles.isHandDetected f) (Particles.gesture f)
                   = target) fs ->
  (60 <= List.length fs)%nat ->
  (target - 0.001 <=? Particles.currentScale (Particles.run fs r)) = true /\
  (Particles.currentScale (Particles.run fs r) <=? target + 0.001) = true.
Proof.
  intros Hlo Hhi Hfs Hlen.
  destruct (run_last_sixty fs r target Hlo Hhi Hfs Hlen) as (s & Slo & Shi & -> & Htarget).
  apply settle_sixty; assumption.
Qed.

Lemma scale_settles_within_60_frames_witness :
  (1.3 - 0.001 <=? Particles.currentScale
                     (Particles.run (List.repeat (gestureFrame (Some Store.OPEN)) 60)
                                    (Particles.initial 2.0))) = true /\
  (Particles.currentScale
     (Particles.run (List.repeat (gestureFrame (Some Store.OPEN)) 60) (Particles.initial 2.0))
   <=? 1.3 + 0.001) = true.
Proof.
  apply (scale_settles_within_60_frames (List.repeat (gestureFrame (Some Store.OPEN)) 60)
           (Particles.initial 2.0) 1.3).
  - reflexivity.
  - reflexivity.
  - apply List.Forall_forall. intros f Hf. apply List.repeat_spec in Hf.
    subst f. reflexivity.
  - rewrite List.repeat_length. lia.
Defined.

(* ===================================================================== *)
(** * Part XIII: the renderer, rotation and momentum, continued *)
(* ===================================================================== *)

(** ** Rotation *)

Lemma rotation_useFrame (f : Particles.Frame) (r : Particles.Renderer) :
  Particles.rotation (Particles.useFrame f r)
  = if Particles.meshRef f then
      mkV2 (v2x (Particles.rotation r) + v2x (Particles.momentum (Particles.useFrame f r)))
           (v2y (Particles.rotation r) + v2y (Particles.momentum (Particles.useFrame f r)))
    else Particles.rotation r.
Proof.
  unfold Particles.useFrame. destruct (Particles.meshRef f); [|reflexivity].
  destruct (Particles.isHandDetected f), (Particles.handPosition f); reflexivity.
Qed.

Lemma notNegZero_classify (x : float) : notNegZero x = true <-> classify x <> NZero.
Proof. unfold notNegZero. destruct (classify x); split; congruence. Qed.

Lemma rotation_notNegZero (f : Particles.Frame) (r : Particles.Renderer) :
  notNegZero (v2x (Particles.rotation r)) = true ->
  notNegZero (v2y (Particles.rotation r)) = true ->
  notNegZero (v2x (Particles.rotation (Particles.useFrame f r))) = true /\
  notNegZero (v2y (Particles.rotation (Particles.useFrame f r))) = true.
Proof.
  intros Hx Hy. rewrite rotation_useFrame.
  destruct (Particles.meshRef f); [|split; assumption]. cbn [v2x v2y].
  rewrite !notNegZero_classify in *. split; apply add_not_negzero; assumption.
Qed.

Lemma run_rotation_notNegZero (fs : list Particles.Frame) :
  forall r : Particles.Renderer,
    notNegZero (v2x (Particles.rotation r)) = true ->
    notNegZero (v2y (Particles.rotation r)) = true ->
    notNegZero (v2x (Particles.rotation (Particles.run fs r))) = true /\
    notNegZero (v2y (Particles.rotation (Particles.run fs r))) = true.
Proof.
  induction fs as [|f fs IH]; intros r Hx Hy; [split; assumption|].
  change (Particles.run (f :: fs) r) with (Particles.run fs (Particles.useFrame f r)).
  destruct (rotation_notNegZero f r Hx Hy). apply IH; assumption.
Qed.

Lemma run_at_rest (fs : list Particles.Frame) :
  forall r : Particles.Renderer,
    forallb noHand fs = true ->
    Particles.momentum r = mkV2 0 0 ->
    notNegZero (v2x (Particles.rotation r)) = true ->
    notNegZero (v2y (Particles.rotation r)) = true ->
    Particles.momentum (Particles.run fs r) = mkV2 0 0 /\
    Particles.rotation (Particles.run fs r) = Particles.rotation r.
Proof.
  induction fs as [|f fs IH]; intros r Hfs Hm Hx Hy; [split; [exact Hm|reflexivity]|].
  cbn [forallb] in Hfs. apply andb_true_iff in Hfs as [Hf Hfs].
  change (Particles.run (f :: fs) r) with (Particles.run fs (Particles.useFrame f r)).
  assert (Hm' : Particles.momentum (Particles.useFrame f r) = mkV2 0 0).
  { rewrite useFrame_noHand, Hm by exact Hf. reflexivity. }
  assert (Hr' : Particles.rotation (Particles.useFrame f r) = Particles.rotation r).
  { rewrite rotation_useFrame, Hm'.
    unfold noHand in Hf. apply andb_true_iff in Hf as [-> _]. cbn [v2x v2y].
    rewrite !add_zero_r by (apply notNegZero_classify; assumption).
    destruct (Particles.rotation r); reflexivity. }
  destruct (IH (Particles.useFrame f r) Hfs Hm') as [IH1 IH2]; try (rewrite Hr'; assumption).
  split; [exact IH1|]. rewrite IH2. exact Hr'.
Qed.

Lemma run_app (fs1 fs2 : list Particles.Frame) (r : Particles.Renderer) :
  Particles.run (fs1 ++ fs2) r = Particles.run fs2 (Particles.run fs1 r).
Proof. unfold Particles.run. apply fold_left_app. Qed.

(** X16: Once the hand is gone the cloud comes to a standstill: after 423
    frames without a hand the momentum is zero, and from then on, as long
    as no hand appears, the rotation does not change any more. *)
Theorem cloud_stands_still_after_release
        (fs1 fs2 : list Particles.Frame) (r : Particles.Renderer) :
  forallb noHand fs1 = true -> forallb noHand fs2 = true ->
  (423 <= List.length fs1)%nat ->
  is_nan (v2x (Particles.momentum r)) = false ->
  is_nan (v2y (Particles.momentum r)) = false ->
  notNegZero (v2x (Particles.rotation r)) = true ->
  notNegZero (v2y (Particles.rotation r)) = true ->
  Particles.momentum (Particles.run (fs1 ++ fs2) r) = mkV2 0 0 /\
  Particles.rotation (Particles.run (fs1 ++ fs2) r)
  = Particles.rotation (Particles.run fs1 r).
Proof.
  intros H1 H2 Hlen Nx Ny Rx Ry. rewrite run_app.
  destruct (run_rotation_notNegZero fs1 r Rx Ry) as [Rx' Ry'].
  apply run_at_rest; try assumption.
  rewrite run_noHand by exact H1. f_equal.
  - apply (idle_iter_ge 423); [|exact Hlen].
    apply (idle_iter_zero 422 _ infinity Nx eq_refl); [|exact idle_423_infinity].
    pose proof (Ord_bounds (v2x (Particles.momentum r))).
    change (Z.abs (Ord infinity)) with INF. lia.
  - apply (idle_iter_ge 423); [|exact Hlen].
    apply (idle_iter_zero 422 _ infinity Ny eq_refl); [|exact idle_423_infinity].
    pose proof (Ord_bounds (v2y (Particles.momentum r))).
    change (Z.abs (Ord infinity)) with INF. lia.
Qed.

Lemma cloud_stands_still_after_release_witness :
  Particles.momentum (Particles.run (released 423 ++ released 100) spinning) = mkV2 0 0 /\
  Particles.rotation (Particles.run (released 423 ++ released 100) spinning)
  = Particles.rotation (Particles.run (released 423) spinning).
Proof.
  apply (cloud_stands_still_after_release (released 423) (released 100) spinning);
    reflexivity.
Defined.

(** X17: In one frame the mesh turns by at most MAX_SPEED = 0.5 radians about
    each axis: the new angle lies between the old one minus 0.5 and the
    old one plus 0.5 (both rounded); without a mesh it does not turn. *)
Theorem rotation_step_bounded (f : Particles.Frame) (r : Particles.Renderer) :
  finiteInputs f r = true ->
  is_finite (v2x (Particles.rotation r)) = true ->
  is_finite (v2y (Particles.rotation r)) = true ->
  let rot := Particles.rotation r in
  let rot' := Particles.rotation (Particles.useFrame f r) in
  (Particles.meshRef f = false -> rot' = rot) /\
  (Particles.meshRef f = true ->
   (v2x rot - Particles.MAX_SPEED <=? v2x rot') = true /\
   (v2x rot' <=? v2x rot + Particles.MAX_SPEED) = true /\
   (v2y rot - Particles.MAX_SPEED <=? v2y rot') = true /\
   (v2y rot' <=? v2y rot + Particles.MAX_SPEED) = true).
Proof.
  intros Hfin Fx Fy. cbv zeta. rewrite rotation_useFrame.
  split; intros Hm; rewrite Hm; [reflexivity|]. cbn [v2x v2y].
  destruct (useFrame_momentum_num f r Hm Hfin) as [Nx Ny].
  destruct (momentum_useFrame f r Hm) as (vx & vy & E). rewrite E in *. cbn [v2x v2y] in *.
  pose proof (clamp_speed_Ord vx Nx) as Bx. pose proof (clamp_speed_Ord vy Ny) as By.
  set (mx := MathUtils.clamp vx (- Particles.MAX_SPEED) Particles.MAX_SPEED) in *.
  set (my := MathUtils.clamp vy (- Particles.MAX_SPEED) Particles.MAX_SPEED) in *.
  assert (HH : (Ord Particles.MAX_SPEED < INF)%Z) by reflexivity.
  assert (Step : forall a m, is_finite a = true -> is_nan m = false ->
                   (Z.abs (Ord m) <= Ord Particles.MAX_SPEED)%Z ->
                   (a - Particles.MAX_SPEED <=? a + m) = true /\
                   (a + m <=? a + Particles.MAX_SPEED) = true).
  { intros a m Fa Nm Bm.
    assert (Fm : is_finite m = true) by (apply is_finite_Ord; split; [exact Nm|lia]).
    destruct (add_Ord_fin a m Fa Fm) as [N1 O1].
    destruct (add_Ord_fin a Particles.MAX_SPEED Fa eq_refl) as [N2 O2].
    destruct (sub_Ord_fin a Particles.MAX_SPEED Fa eq_refl) as [N3 O3].
    split; apply leb_true; repeat split; auto; rewrite ?O1, ?O2, ?O3;
      apply rndz_mono; lia. }
  destruct (Step _ mx Fx Nx Bx) as [X1 X2]. destruct (Step _ my Fy Ny By) as [Y1 Y2].
  auto.
Qed.

Lemma rotation_step_bounded_witness :
  let rot' := Particles.rotation
                (Particles.useFrame (sweepFrame 5 (-4))
                   (Particles.useFrame (sweepFrame (-5) 4) (Particles.initial 2.0))) in
  (v2x rot' <=? 0.5 + 0.5) = true.
Proof.
  destruct (rotation_step_bounded (sweepFrame 5 (-4))
              (Particles.useFrame (sweepFrame (-5) 4) (Particles.initial 2.0))
              eq_refl eq_refl eq_refl) as [_ H].
  destruct (H eq_refl) as (_ & H2 & _). exact H2.
Defined.

(** ** A hand that does not move *)

Lemma sub_equal (x y : float) :
  is_finite x = true -> is_finite y = true -> (Ord y = Ord x)%Z ->
  is_finite (x - y) = true /\ Ord (x - y) = 0%Z.
Proof.
  intros Hx Hy E. destruct (sub_Ord_fin x y Hx Hy) as [Hn Ho].
  rewrite E, Z.sub_diag in Ho. change (rndz 0 0) with 0%Z in Ho.
  split; [|exact Ho]. apply is_finite_Ord. split; [exact Hn|]. rewrite Ho. reflexivity.
Qed.

Lemma zero_velocity (d : float) :
  is_finite d = true -> Ord d = 0%Z ->
  is_finite (d * Particles.SENSITIVITY) = true /\ Ord (d * Particles.SENSITIVITY) = 0%Z.
Proof.
  intros Fd Od. destruct (mul_Ord_fin d Particles.SENSITIVITY Fd eq_refl) as [Hn Ho].
  rewrite Od, Z.mul_0_l in Ho. change (rndz 1074 0) with 0%Z in Ho.
  split; [|exact Ho]. apply is_finite_Ord. split; [exact Hn|]. rewrite Ho. reflexivity.
Qed.

(** Blending toward a zero target only shrinks. *)
Lemma lerp_to_zero (m tv : float) :
  is_finite m = true -> is_finite tv = true -> Ord tv = 0%Z ->
  let m' := MathUtils.clamp (MathUtils.lerp m tv Particles.MOMENTUM_LERP)
                            (- Particles.MAX_SPEED) Particles.MAX_SPEED in
  (MathJS.Math_abs m' <=? MathJS.Math_abs m) = true.
Proof.
  intros Fm Ft Ot m'.
  destruct (weight_facts Particles.MOMENTUM_LERP eq_refl eq_refl) as (Fw & Fs & Bw & Bs).
  destruct (lerp_Ord m tv Particles.MOMENTUM_LERP eq_refl eq_refl Fm Ft) as [Nl Ol].
  unfold zlerp in Ol. rewrite Ot, Z.mul_0_r in Ol.
  change (rndz 1074 0) with 0%Z in Ol. rewrite Z.add_0_r in Ol.
  destruct (mul_Ord_fin (1 - Particles.MOMENTUM_LERP) m Fs Fm) as [Np Op].
  rewrite <- Op, rndz_id0 in Ol by exact Np.
  apply is_finite_Ord in Fm as [Nm Bm].
  pose proof (rndz_id (abs m) 1074 ltac:(lia) ltac:(rewrite abs_nan; exact Nm)) as Hid.
  rewrite abs_Ord in Hid.
  assert (Hshrink : (Z.abs (Ord ((1 - Particles.MOMENTUM_LERP) * m)) <= Z.abs (Ord m))%Z).
  { rewrite Op.
    pose proof (rndz_mono 1074 (Ord (1 - Particles.MOMENTUM_LERP) * Ord m)
                  (Z.abs (Ord m) * 2 ^ 1074) ltac:(lia) ltac:(nia)) as U.
    pose proof (rndz_mono 1074 (- (Z.abs (Ord m) * 2 ^ 1074))
                  (Ord (1 - Particles.MOMENTUM_LERP) * Ord m) ltac:(lia) ltac:(nia)) as L.
    rewrite rndz_opp in L. rewrite Hid in U, L. lia. }
  destruct (clamp_Ord _ (- Particles.MAX_SPEED) Particles.MAX_SPEED Nl eq_refl eq_refl)
    as [Nc Oc].
  subst m'. unfold MathJS.Math_abs. apply leb_true.
  rewrite !abs_nan, !abs_Ord, Oc, Ol.
  split; [exact Nc|]. split; [exact Nm|].
  assert (Hneg : Ord (- Particles.MAX_SPEED) = (- Ord Particles.MAX_SPEED)%Z) by reflexivity.
  assert (HH : (0 < Ord Particles.MAX_SPEED)%Z) by reflexivity.
  rewrite Hneg. lia.
Qed.

(** X18: A hand that has just appeared, or that has not moved since the last
    frame, adds no spin: each component of the momentum keeps or loses
    magnitude, wherever the hand is. *)
Theorem still_hand_adds_no_spin (f : Particles.Frame) (r : Particles.Renderer) :
  Particles.meshRef f = true -> seesHand f = true -> handStill f r = true ->
  finiteInputs f r = true ->
  let m := Particles.momentum r in
  let m' := Particles.momentum (Particles.useFrame f r) in
  (MathJS.Math_abs (v2x m') <=? MathJS.Math_abs (v2x m)) = true /\
  (MathJS.Math_abs (v2y m') <=? MathJS.Math_abs (v2y m)) = true /\
  Particles.lastHandPos (Particles.useFrame f r) = Particles.handPosition f.
Proof.
  intros Hmesh Hsee Hstill Hfin. cbv zeta.
  unfold seesHand in Hsee. apply andb_true_iff in Hsee as [Hd Hp].
  unfold finiteInputs in Hfin.
  apply andb_true_iff in Hfin as [Hfin Hlast].
  apply andb_true_iff in Hfin as [Hfin Hhp].
  apply andb_true_iff in Hfin as [Fmx Fmy].
  unfold handStill in Hstill. unfold Particles.useFrame. rewrite Hmesh, Hd.
  destruct (Particles.handPosition f) as [hp|]; [|discriminate].
  apply andb_true_iff in Hhp as [Fx Fy].
  cbn [Particles.momentum Particles.lastHandPos v2x v2y].
  set (last := match Particles.lastHandPos r with Some l => l | None => hp end).
  assert (Hl : is_finite (v3x last) = true /\ is_finite (v3y last) = true /\
                Ord (v3x last) = Ord (v3x hp) /\ Ord (v3y last) = Ord (v3y hp)).
  { subst last. destruct (Particles.lastHandPos r) as [l|]; [|auto].
    apply andb_true_iff in Hlast as [Flx Fly]. apply andb_true_iff in Hstill as [Ex Ey].
    pose proof Flx as Flx'. pose proof Fly as Fly'. pose proof Fx as Fx'. pose proof Fy as Fy'.
    apply is_finite_Ord in Flx' as [? _]. apply is_finite_Ord in Fly' as [? _].
    apply is_finite_Ord in Fx' as [? _]. apply is_finite_Ord in Fy' as [? _].
    rewrite eqb_Ord in Ex, Ey by assumption. apply Z.eqb_eq in Ex, Ey. auto. }
  destruct Hl as (Flx & Fly & Ex & Ey).
  destruct (sub_equal (v3x hp) (v3x last) Fx Flx Ex) as [Fdx Odx].
  destruct (sub_equal (v3y hp) (v3y last) Fy Fly Ey) as [Fdy Ody].
  destruct (zero_velocity _ Fdx Odx) as [Fvy Ovy].
  destruct (zero_velocity _ (opp_finite _ Fdy)
              ltac:(rewrite opp_Ord, Ody; reflexivity)) as [Fvx Ovx].
  split; [|split; [|reflexivity]]; apply lerp_to_zero; assumption.
Qed.

Lemma still_hand_adds_no_spin_witness :
  let m' := Particles.momentum (Particles.useFrame (sweepFrame 3 2) spinning) in
  (MathJS.Math_abs (v2x m') <=? MathJS.Math_abs 0.5) = true /\
  (MathJS.Math_abs (v2y m') <=? MathJS.Math_abs (-0.3)) = true /\
  Particles.lastHandPos (Particles.useFrame (sweepFrame 3 2) spinning) = Some (mkV3 3 2 0).
Proof.
  apply (still_hand_adds_no_spin (sweepFrame 3 2) spinning); reflexivity.
Defined.

(** ** The momentum follows the hand *)

Lemma inView_bounds (p : Vector3) :
  inView p = true ->
  is_finite (v3x p) = true /\ is_finite (v3y p) = true /\
  (Z.abs (Ord (v3x p)) <= Ord 5)%Z /\ (Z.abs (Ord (v3y p)) <= Ord 4)%Z.
Proof.
  unfold inView. intros H.
  apply andb_true_iff in H as [H Y1]. apply andb_true_iff in H as [H Y0].
  apply andb_true_iff in H as [X0 X1].
  pose proof (between_finite (-5) 5 _ eq_refl eq_refl X0 X1) as Fx.
  pose proof (between_finite (-4) 4 _ eq_refl eq_refl Y0 Y1) as Fy.
  apply leb_true in X0 as (_ & _ & X0). apply leb_true in X1 as (_ & _ & X1).
  apply leb_true in Y0 as (_ & _ & Y0). apply leb_true in Y1 as (_ & _ & Y1).
  change (Ord (-5)) with (- Ord 5)%Z in X0. change (Ord (-4)) with (- Ord 4)%Z in Y0.
  repeat split; auto; lia.
Qed.

(** The velocity target [d * SENSITIVITY] of a displacement between two
    coordinates of magnitude at most 5. *)
Lemma velocity_Ord (a b : float) :
  is_finite a = true -> is_finite b = true ->
  (Z.abs (Ord a) <= Ord 5)%Z -> (Z.abs (Ord b) <= Ord 5)%Z ->
  is_finite ((a - b) * Particles.SENSITIVITY) = true /\
  is_finite ((- (a - b)) * Particles.SENSITIVITY) = true /\
  Ord ((a - b) * Particles.SENSITIVITY)
  = rndz 1074 (rndz 0 (Ord a - Ord b) * Ord Particles.SENSITIVITY) /\
  Ord ((- (a - b)) * Particles.SENSITIVITY)
  = rndz 1074 (- rndz 0 (Ord a - Ord b) * Ord Particles.SENSITIVITY).
Proof.
  intros Fa Fb Ba Bb.
  destruct (sub_between a b (- Ord 5) (Ord 5) (- Ord 5) (Ord 5) Fa Fb
              ltac:(lia) ltac:(lia)) as [Nd [Dlo Dhi]].
  assert (E1 : rndz 0 (- Ord 5 - Ord 5) = (- Ord 10)%Z) by (vm_compute; reflexivity).
  assert (E2 : rndz 0 (Ord 5 - - Ord 5) = Ord 10) by (vm_compute; reflexivity).
  rewrite E1 in Dlo. rewrite E2 in Dhi.
  assert (H10 : (Ord 10 < INF)%Z) by reflexivity.
  assert (Fd : is_finite (a - b) = true) by (apply is_finite_Ord; split; [exact Nd|lia]).
  destruct (sub_Ord_fin a b Fa Fb) as [_ Od].
  pose proof (opp_finite _ Fd) as Fo.
  assert (E3 : rndz 1074 (- Ord 10 * Ord Particles.SENSITIVITY) = (- Ord 5)%Z)
    by (vm_compute; reflexivity).
  assert (E4 : rndz 1074 (Ord 10 * Ord Particles.SENSITIVITY) = Ord 5)
    by (vm_compute; reflexivity).
  assert (H5 : (Ord 5 < INF)%Z) by reflexivity.
  destruct (mul_between (a - b) Particles.SENSITIVITY (- Ord 10) (Ord 10) Fd eq_refl
              ltac:(vm_compute; discriminate) ltac:(lia)) as [N1 [L1 U1]].
  destruct (mul_between (- (a - b)) Particles.SENSITIVITY (- Ord 10) (Ord 10) Fo eq_refl
              ltac:(vm_compute; discriminate) ltac:(rewrite opp_Ord; lia)) as [N2 [L2 U2]].
  rewrite E3 in L1, L2. rewrite E4 in U1, U2.
  split; [apply is_finite_Ord; split; [exact N1|lia]|].
  split; [apply is_finite_Ord; split; [exact N2|lia]|].
  destruct (mul_Ord_fin _ Particles.SENSITIVITY Fd eq_refl) as [_ O1].
  destruct (mul_Ord_fin _ Particles.SENSITIVITY Fo eq_refl) as [_ O2].
  rewrite O1, O2, opp_Ord, Od. split; reflexivity.
Qed.

Lemma clamp_mono (v v' lo hi : float) :
  is_nan v = false -> is_nan v' = false -> is_nan lo = false -> is_nan hi = false ->
  (Ord v <= Ord v')%Z ->
  (MathUtils.clamp v lo hi <=? MathUtils.clamp v' lo hi) = true.
Proof.
  intros Nv Nv' Nlo Nhi Hle.
  destruct (clamp_Ord v lo hi Nv Nlo Nhi) as [N1 O1].
  destruct (clamp_Ord v' lo hi Nv' Nlo Nhi) as [N2 O2].
  apply leb_true. split; [exact N1|]. split; [exact N2|]. rewrite O1, O2. lia.
Qed.

(** One component of the new momentum, as a function of the velocity
    target. *)
Lemma momentum_component_mono (m tv tv' : float) :
  is_finite m = true -> is_finite tv = true -> is_finite tv' = true ->
  (Ord tv <= Ord tv')%Z ->
  (MathUtils.clamp (MathUtils.lerp m tv Particles.MOMENTUM_LERP)
                   (- Particles.MAX_SPEED) Particles.MAX_SPEED
   <=? MathUtils.clamp (MathUtils.lerp m tv' Particles.MOMENTUM_LERP)
                       (- Particles.MAX_SPEED) Particles.MAX_SPEED) = true.
Proof.
  intros Fm Ft Ft' Hle.
  destruct (weight_facts Particles.MOMENTUM_LERP eq_refl eq_refl) as (_ & _ & Bw & Bs).
  destruct (lerp_Ord m tv Particles.MOMENTUM_LERP eq_refl eq_refl Fm Ft) as [N1 O1].
  destruct (lerp_Ord m tv' Particles.MOMENTUM_LERP eq_refl eq_refl Fm Ft') as [N2 O2].
  apply clamp_mono; try assumption; try reflexivity.
  rewrite O1, O2. apply zlerp_mono; lia.
Qed.

(** X19: The momentum follows the hand: of two positions the hand may take in
    a frame, the one further to the right gives the larger (or equal) yaw
    momentum, and the higher one the smaller (or equal) pitch momentum. *)
Theorem momentum_follows_hand
        (f : Particles.Frame) (r : Particles.Renderer) (hp hp' l : Vector3) :
  Particles.meshRef f = true ->
  Particles.lastHandPos r = Some l ->
  inView l = true -> inView hp = true -> inView hp' = true ->
  is_finite (v2x (Particles.momentum r)) = true ->
  is_finite (v2y (Particles.momentum r)) = true ->
  let m := Particles.momentum (Particles.useFrame (withHand hp f) r) in
  let m' := Particles.momentum (Particles.useFrame (withHand hp' f) r) in
  ((v3x hp <=? v3x hp') = true -> (v2y m <=? v2y m') = true) /\
  ((v3y hp <=? v3y hp') = true -> (v2x m' <=? v2x m) = true).
Proof.
  intros Hmesh Hlast Vl Vh Vh' Fmx Fmy. cbv zeta.
  unfold Particles.useFrame, withHand.
  cbn [Particles.meshRef Particles.isHandDetected Particles.handPosition
       Particles.materialRef Particles.elapsedTime Particles.gesture
       Particles.interactionRadius Particles.worldToLocal].
  rewrite Hmesh, Hlast. cbn [Particles.momentum v2x v2y].
  destruct (inView_bounds l Vl) as (Flx & Fly & Blx & Bly).
  destruct (inView_bounds hp Vh) as (Fx & Fy & Bx & By).
  destruct (inView_bounds hp' Vh') as (Fx' & Fy' & Bx' & By').
  assert (H45 : (Ord 4 <= Ord 5)%Z) by (vm_compute; discriminate).
  destruct (velocity_Ord (v3x hp) (v3x l) Fx Flx Bx Blx) as (Fv & _ & Ov & _).
  destruct (velocity_Ord (v3x hp') (v3x l) Fx' Flx Bx' Blx) as (Fv' & _ & Ov' & _).
  destruct (velocity_Ord (v3y hp) (v3y l) Fy Fly ltac:(lia) ltac:(lia)) as (_ & Fw & _ & Ow).
  destruct (velocity_Ord (v3y hp') (v3y l) Fy' Fly ltac:(lia) ltac:(lia))
    as (_ & Fw' & _ & Ow').
  assert (HS : (0 <= Ord Particles.SENSITIVITY)%Z) by (vm_compute; discriminate).
  split; intros Hle; apply leb_true in Hle as (_ & _ & Hle);
    apply momentum_component_mono; try assumption.
  - rewrite Ov, Ov'. apply rndz_mono; [lia|].
    apply Z.mul_le_mono_nonneg_r; [exact HS|]. apply rndz_mono; lia.
  - rewrite Ow, Ow'. apply rndz_mono; [lia|].
    apply Z.mul_le_mono_nonneg_r; [exact HS|].
    pose proof (rndz_mono 0 (Ord (v3y hp) - Ord (v3y l)) (Ord (v3y hp') - Ord (v3y l))
                  ltac:(lia) ltac:(lia)).
    lia.
Qed.

Lemma momentum_follows_hand_witness :
  let r := Particles.useFrame (sweepFrame 0 0) (Particles.initial 2.0) in
  (v2y (Particles.momentum (Particles.useFrame (withHand (mkV3 (-1) 0 0) (sweepFrame 0 0)) r))
   <=? v2y (Particles.momentum (Particles.useFrame (withHand (mkV3 2 0 0) (sweepFrame 0 0)) r)))
  = true.
Proof.
  apply (momentum_follows_hand (sweepFrame 0 0)
           (Particles.useFrame (sweepFrame 0 0) (Particles.initial 2.0))
           (mkV3 (-1) 0 0) (mkV3 2 0 0) (mkV3 0 0 0)); reflexivity.
Defined.

(** ** Frames that see no hand *)

Lemma useFrame_unseen (f : Particles.Frame) (r : Particles.Renderer) :
  seesHand f = false ->
  Particles.uInteractRadius (Particles.uniforms (Particles.useFrame f r))
  = Particles.uInteractRadius (Particles.uniforms r) /\
  Particles.uHandPos (Particles.uniforms (Particles.useFrame f r))
  = Particles.uHandPos (Particles.uniforms r) /\
  (Particles.meshRef f = true ->
   Particles.momentum (Particles.useFrame f r)
   = mkV2 (idle (v2x (Particles.momentum r))) (idle (v2y (Particles.momentum r))) /\
   Particles.lastHandPos (Particles.useFrame f r) = None /\
   (Particles.materialRef f = true ->
    Particles.uHasHand (Particles.uniforms (Particles.useFrame f r)) = 0)).
Proof.
  unfold seesHand, Particles.useFrame. intros Hs.
  destruct (Particles.meshRef f), (Particles.materialRef f),
    (Particles.isHandDetected f), (Particles.handPosition f); try discriminate;
    repeat split; intros; try discriminate; reflexivity.
Qed.

(** X20: A frame whose detection flag is set but whose position is null is, for
    the rotation, a frame without a hand: friction, no last position, hand
    flag of the shader off.  And while no hand is seen the frames leave the
    interaction radius and the hand position of the shader alone: over any
    run of such frames and of configuration changes the hand position
    keeps its value and the radius is the one of the last configuration
    change that found the material mounted, the old one if there was
    none.  So the frames do not lead a radius that a hand has widened back
    to the configured one; only the next change of the configuration
    does. *)
Theorem unseen_hand_frames :
  (forall (f : Particles.Frame) (r : Particles.Renderer),
      seesHand f = false -> Particles.meshRef f = true ->
      Particles.momentum (Particles.useFrame f r)
      = mkV2 (idle (v2x (Particles.momentum r))) (idle (v2y (Particles.momentum r))) /\
      Particles.lastHandPos (Particles.useFrame f r) = None /\
      (Particles.materialRef f = true ->
       Particles.uHasHand (Particles.uniforms (Particles.useFrame f r)) = 0)) /\
  (forall (es : list Particles.Event) (r : Particles.Renderer),
      forallb unseenEvent es = true ->
      Particles.uInteractRadius (Particles.uniforms (Particles.runEvents es r))
      = lastConfigured es (Particles.uInteractRadius (Particles.uniforms r)) /\
      Particles.uHandPos (Particles.uniforms (Particles.runEvents es r))
      = Particles.uHandPos (Particles.uniforms r)) /\
  (forall (es : list Particles.Event) (fs : list Particles.Frame) (R : float)
          (r : Particles.Renderer),
      forallb (fun f => negb (seesHand f)) fs = true ->
      Particles.uInteractRadius
        (Particles.uniforms (Particles.runEvents (map Particles.Rendered fs) r))
      = Particles.uInteractRadius (Particles.uniforms r) /\
      Particles.uInteractRadius
        (Particles.uniforms
           (Particles.runEvents
              (es ++ Particles.ConfigChanged true R :: map Particles.Rendered fs) r))
      = R).
Proof.
  assert (Hrun : forall (fs : list Particles.Frame) (r : Particles.Renderer),
             forallb (fun f => negb (seesHand f)) fs = true ->
             Particles.uInteractRadius
               (Particles.uniforms (Particles.runEvents (map Particles.Rendered fs) r))
             = Particles.uInteractRadius (Particles.uniforms r)).
  { induction fs as [|f fs IH]; intros r Hfs; [reflexivity|].
    cbn [forallb] in Hfs. apply andb_true_iff in Hfs as [Hf Hfs].
    apply negb_true_iff in Hf.
    change (Particles.runEvents (map Particles.Rendered (f :: fs)) r)
      with (Particles.runEvents (map Particles.Rendered fs) (Particles.useFrame f r)).
    rewrite (IH _ Hfs). apply (useFrame_unseen f r Hf). }
  split; [|split].
  - intros f r Hs Hm. apply (useFrame_unseen f r Hs). exact Hm.
  - induction es as [|e es IH]; intros r Hes; [split; reflexivity|].
    cbn [forallb] in Hes. apply andb_true_iff in Hes as [He Hes].
    change (Particles.runEvents (e :: es) r)
      with (Particles.runEvents es (Particles.step r e)).
    destruct (IH (Particles.step r e) Hes) as [I1 I2]. rewrite I1, I2.
    destruct e as [f|[] R]; cbn [Particles.step unseenEvent] in *.
    + apply negb_true_iff in He. destruct (useFrame_unseen f r He) as (U1 & U2 & _).
      rewrite U1, U2. split; reflexivity.
    + split; reflexivity.
    + split; reflexivity.
  - intros es fs R r Hfs. split; [apply Hrun; exact Hfs|].
    unfold Particles.runEvents at 1. rewrite fold_left_app.
    change (fold_left Particles.step (Particles.ConfigChanged true R
                                        :: map Particles.Rendered fs) ?x)
      with (Particles.runEvents (map Particles.Rendered fs)
              (Particles.useEffect true R x)).
    rewrite (Hrun fs _ Hfs). reflexivity.
Qed.

Lemma unseen_hand_frames_witness :
  let f := Particles.mkFrame 0 None true (Some Store.CLOSED) 2.0 true true (fun p => p) in
  let widened := Particles.useFrame (depthFrame (-1.5)) (Particles.initial 2.0) in
  (Particles.momentum (Particles.useFrame f spinning) = mkV2 (idle 0.5) (idle (-0.3)) /\
   Particles.lastHandPos (Particles.useFrame f spinning) = None) /\
  Particles.uInteractRadius
    (Particles.uniforms
       (Particles.runEvents [Particles.Rendered f; Particles.Rendered f] widened))
  = 2.1499999999999999 /\
  Particles.uInteractRadius
    (Particles.uniforms
       (Particles.runEvents [Particles.Rendered f; Particles.ConfigChanged true 3.0;
                             Particles.Rendered f] widened))
  = 3.0.
Proof.
  intros f widened.
  destruct unseen_hand_frames as (Hone & Hrun & _). split; [|split].
  - destruct (Hone f spinning eq_refl eq_refl) as (H1 & H2 & _).
    split; [exact H1|exact H2].
  - destruct (Hrun [Particles.Rendered f; Particles.Rendered f] widened eq_refl) as [H _].
    rewrite H. reflexivity.
  - destruct (Hrun [Particles.Rendered f; Particles.ConfigChanged true 3.0;
                    Particles.Rendered f] widened eq_refl) as [H _].
    rewrite H. reflexivity.
Defined.

(** ** NaN in the momentum *)

Lemma idle_nan (m : float) : is_nan m = true -> is_nan (idle m) = true.
Proof.
  intros Hm. unfold idle, Particles.decay, MathJS.Math_abs.
  assert (Hp : is_nan (m * Particles.FRICTION) = true) by (apply mul_nan; left; exact Hm).
  rewrite ltb_nan by (rewrite abs_nan; exact Hp).
  apply clamp_nan. exact Hp.
Qed.

Lemma lerp_nan (m tv t : float) : is_nan m = true -> is_nan (MathUtils.lerp m tv t) = true.
Proof.
  intros Hm. unfold MathUtils.lerp. apply add_nan. left. apply mul_nan. right. exact Hm.
Qed.

Lemma useFrame_nan (f : Particles.Frame) (r : Particles.Renderer) :
  Particles.meshRef f = true ->
  (is_nan (v2x (Particles.momentum r)) = true ->
   is_nan (v2x (Particles.momentum (Particles.useFrame f r))) = true /\
   is_nan (v2x (Particles.rotation (Particles.useFrame f r))) = true) /\
  (is_nan (v2y (Particles.momentum r)) = true ->
   is_nan (v2y (Particles.momentum (Particles.useFrame f r))) = true /\
   is_nan (v2y (Particles.rotation (Particles.useFrame f r))) = true).
Proof.
  intros Hmesh. rewrite rotation_useFrame, Hmesh. cbn [v2x v2y].
  assert (H : (is_nan (v2x (Particles.momentum r)) = true ->
               is_nan (v2x (Particles.momentum (Particles.useFrame f r))) = true) /\
              (is_nan (v2y (Particles.momentum r)) = true ->
               is_nan (v2y (Particles.momentum (Particles.useFrame f r))) = true)).
  { unfold Particles.useFrame. rewrite Hmesh.
    destruct (Particles.isHandDetected f), (Particles.handPosition f);
      cbn [Particles.momentum v2x v2y]; split; intros Hn;
      try (apply idle_nan; exact Hn); apply clamp_nan, lerp_nan; exact Hn. }
  destruct H as [Hx Hy].
  split; intros Hn; (split; [auto|]); apply add_nan; right; auto.
Qed.

(** X21: A NaN in the momentum is never repaired: neither the blend toward the
    hand's velocity, nor friction, nor the snap to zero, nor the clamp
    removes it, and from the next frame on the rotation of the mesh about
    that axis is NaN as well. *)
Theorem nan_momentum_is_permanent
        (f : Particles.Frame) (fs : list Particles.Frame) (r : Particles.Renderer) :
  forallb Particles.meshRef (f :: fs) = true ->
  (is_nan (v2x (Particles.momentum r)) = true ->
   is_nan (v2x (Particles.momentum (Particles.run (f :: fs) r))) = true /\
   is_nan (v2x (Particles.rotation (Particles.run (f :: fs) r))) = true) /\
  (is_nan (v2y (Particles.momentum r)) = true ->
   is_nan (v2y (Particles.momentum (Particles.run (f :: fs) r))) = true /\
   is_nan (v2y (Particles.rotation (Particles.run (f :: fs) r))) = true).
Proof.
  revert f r. induction fs as [|g fs IH]; intros f r Hfs.
  - cbn [forallb] in Hfs. apply andb_true_iff in Hfs as [Hf _].
    change (Particles.run [f] r) with (Particles.useFrame f r).
    apply useFrame_nan. exact Hf.
  - cbn [forallb] in Hfs. apply andb_true_iff in Hfs as [Hf Hfs].
    change (Particles.run (f :: g :: fs) r)
      with (Particles.run (g :: fs) (Particles.useFrame f r)).
    destruct (useFrame_nan f r Hf) as [Sx Sy].
    destruct (IH g (Particles.useFrame f r) Hfs) as [Ix Iy].
    split; intros Hn; [apply Ix, Sx, Hn | apply Iy, Sy, Hn].
Qed.

Lemma nan_momentum_is_permanent_witness :
  is_nan (v2x (Particles.momentum
                 (Particles.run [sweepFrame 1 1; gestureFrame None] broken))) = true /\
  is_nan (v2x (Particles.rotation
                 (Particles.run [sweepFrame 1 1; gestureFrame None] broken))) = true.
Proof.
  apply (nan_momentum_is_permanent (sweepFrame 1 1) [gestureFrame None] broken);
    reflexivity.
Defined.

(* ===================================================================== *)
(** * Part XIV: the particle cloud *)
(* ===================================================================== *)

Lemma unit_draw (u : float) :
  (0 <=? u) = true -> (u <? 1) = true ->
  is_finite u = true /\ (0 <= Ord u <= 2 ^ 1074)%Z.
Proof.
  intros H0 H1. apply leb_true in H0 as (_ & Nu & B0). apply ltb_true in H1 as (_ & _ & B1).
  change (Ord 0) with 0%Z in B0. change (Ord 1) with (2 ^ 1074)%Z in B1.
  split; [|lia]. apply is_finite_Ord. split; [exact Nu|].
  assert (2 ^ 1074 < INF)%Z by reflexivity. lia.
Qed.

Lemma twice_draw (u : float) :
  (0 <=? u) = true -> (u <? 1) = true ->
  is_finite (u * 2) = true /\ (0 <= Ord (u * 2) <= Ord 2)%Z.
Proof.
  intros H0 H1. destruct (unit_draw u H0 H1) as [Fu Bu].
  destruct (mul_between u 2 0 (2 ^ 1074) Fu eq_refl ltac:(vm_compute; discriminate) Bu)
    as [Hn [Lo Hi]].
  assert (E1 : rndz 1074 (0 * Ord 2) = 0%Z) by reflexivity.
  assert (E2 : rndz 1074 (2 ^ 1074 * Ord 2) = Ord 2) by (vm_compute; reflexivity).
  rewrite E1 in Lo. rewrite E2 in Hi.
  split; [|lia]. apply is_finite_Ord. split; [exact Hn|].
  assert (Ord 2 < INF)%Z by reflexivity. lia.
Qed.

Lemma radius_Ord_bounds (u : float) :
  (0 <=? u) = true -> (u <? 1) = true ->
  is_finite (Cloud.radius u) = true /\ (Ord 4 <= Ord (Cloud.radius u) <= Ord 6)%Z.
Proof.
  intros H0 H1. destruct (twice_draw u H0 H1) as [F2 B2]. unfold Cloud.radius.
  destruct (add_between 4 (u * 2) (Ord 4) (Ord 4) 0 (Ord 2) eq_refl F2
              ltac:(lia) B2) as [Hn [Lo Hi]].
  assert (E1 : rndz 0 (Ord 4 + 0) = Ord 4) by (vm_compute; reflexivity).
  assert (E2 : rndz 0 (Ord 4 + Ord 2) = Ord 6) by (vm_compute; reflexivity).
  rewrite E1 in Lo. rewrite E2 in Hi.
  split; [|lia]. apply is_finite_Ord. split; [exact Hn|].
  assert (0 < Ord 4)%Z by reflexivity. assert (Ord 6 < INF)%Z by reflexivity. lia.
Qed.

(** X22: Whatever [Math.random] returns (a number in [0, 1)): the radius drawn
    for a particle lies in [4, 6], the argument handed to [Math.acos] lies
    in [-1, 1], so that no NaN arises from its domain, and the angle theta
    lies between 0 and two pi. *)
Theorem cloud_sampling_ranges (u : float) :
  (0 <=? u) = true -> (u <? 1) = true ->
  ((4 <=? Cloud.radius u) = true /\ (Cloud.radius u <=? 6) = true) /\
  ((-1 <=? Cloud.cosPhi u) = true /\ (Cloud.cosPhi u <=? 1) = true) /\
  ((0 <=? Cloud.theta u) = true /\ (Cloud.theta u <=? Cloud.Math_PI * 2) = true).
Proof.
  intros H0 H1. destruct (unit_draw u H0 H1) as [Fu Bu].
  destruct (twice_draw u H0 H1) as [F2 B2].
  split; [|split].
  - destruct (radius_Ord_bounds u H0 H1) as [Fr [Lo Hi]].
    apply is_finite_Ord in Fr as [Nr _].
    split; apply leb_true; repeat split; auto.
  - unfold Cloud.cosPhi.
    destruct (sub_between (u * 2) 1 0 (Ord 2) (Ord 1) (Ord 1) F2 eq_refl
                B2 ltac:(lia)) as [Hn [Lo Hi]].
    assert (E1 : rndz 0 (0 - Ord 1) = Ord (-1)) by (vm_compute; reflexivity).
    assert (E2 : rndz 0 (Ord 2 - Ord 1) = Ord 1) by (vm_compute; reflexivity).
    rewrite E1 in Lo. rewrite E2 in Hi.
    split; apply leb_true; repeat split; auto.
  - unfold Cloud.theta.
    destruct (mul_between u Cloud.Math_PI 0 (2 ^ 1074) Fu eq_refl
                ltac:(vm_compute; discriminate) Bu) as [Hn [Lo Hi]].
    assert (E1 : rndz 1074 (0 * Ord Cloud.Math_PI) = 0%Z) by reflexivity.
    assert (E2 : rndz 1074 (2 ^ 1074 * Ord Cloud.Math_PI) = Ord Cloud.Math_PI)
      by (vm_compute; reflexivity).
    rewrite E1 in Lo. rewrite E2 in Hi.
    assert (HP : (Ord Cloud.Math_PI < INF)%Z) by reflexivity.
    assert (Fp : is_finite (u * Cloud.Math_PI) = true)
      by (apply is_finite_Ord; split; [exact Hn|lia]).
    destruct (mul_between (u * Cloud.Math_PI) 2 0 (Ord Cloud.Math_PI) Fp eq_refl
                ltac:(vm_compute; discriminate) ltac:(lia)) as [Hn' [Lo' Hi']].
    destruct (mul_Ord_fin Cloud.Math_PI 2 eq_refl eq_refl) as [Np Op].
    assert (E3 : rndz 1074 (0 * Ord 2) = 0%Z) by reflexivity.
    rewrite E3 in Lo'. rewrite <- Op in Hi'.
    split; apply leb_true; repeat split; auto.
Qed.

Lemma cloud_sampling_ranges_witness :
  (4 <=? Cloud.radius 0.75) = true /\ (Cloud.radius 0.75 <=? 6) = true.
Proof.
  apply (cloud_sampling_ranges 0.75); reflexivity.
Defined.

(** Multiplying by a factor of magnitude at most one does not increase
    the magnitude. *)
Lemma mul_unit_bound (a s : float) (B : Z) :
  is_finite a = true -> (Z.abs (Ord a) <= B)%Z ->
  (MathJS.Math_abs s <=? 1) = true ->
  is_finite (a * s) = true /\ (Z.abs (Ord (a * s)) <= B)%Z.
Proof.
  intros Fa Ba Hs. unfold MathJS.Math_abs in Hs.
  apply leb_true in Hs as (Ns & _ & Bs). rewrite abs_nan in Ns. rewrite abs_Ord in Bs.
  change (Ord 1) with (2 ^ 1074)%Z in Bs.
  assert (Fs : is_finite s = true).
  { apply is_finite_Ord. split; [exact Ns|]. assert (2 ^ 1074 < INF)%Z by reflexivity. lia. }
  destruct (mul_Ord_fin a s Fa Fs) as [Hn Ho].
  pose proof Fa as Fa'. apply is_finite_Ord in Fa' as [Na Ia].
  pose proof (rndz_id (abs a) 1074 ltac:(lia) ltac:(rewrite abs_nan; exact Na)) as Hid.
  rewrite abs_Ord in Hid.
  pose proof (rndz_mono 1074 (Ord a * Ord s) (Z.abs (Ord a) * 2 ^ 1074)
                ltac:(lia) ltac:(nia)) as U.
  pose proof (rndz_mono 1074 (- (Z.abs (Ord a) * 2 ^ 1074)) (Ord a * Ord s)
                ltac:(lia) ltac:(nia)) as L.
  rewrite rndz_opp in L. rewrite Hid in U, L.
  assert (Hb : (Z.abs (Ord (a * s)) <= Z.abs (Ord a))%Z) by (rewrite Ho; lia).
  split; [|lia]. apply is_finite_Ord. split; [exact Hn|lia].
Qed.

Lemma theta_finite (u : float) :
  (0 <=? u) = true -> (u <? 1) = true -> is_finite (Cloud.theta u) = true.
Proof.
  intros H0 H1. destruct (unit_draw u H0 H1) as [Fu Bu]. unfold Cloud.theta.
  assert (HP : (0 <= Ord Cloud.Math_PI <= 2 ^ 1076)%Z) by (vm_compute; split; discriminate).
  assert (HI : (2 ^ 1078 < INF)%Z) by reflexivity.
  destruct (mul_between u Cloud.Math_PI 0 (2 ^ 1074) Fu eq_refl ltac:(lia) Bu)
    as [Hn [Lo Hi]].
  assert (E1 : rndz 1074 (0 * Ord Cloud.Math_PI) = 0%Z) by reflexivity.
  assert (E2 : rndz 1074 (2 ^ 1074 * Ord Cloud.Math_PI) = Ord Cloud.Math_PI)
    by (vm_compute; reflexivity).
  rewrite E1 in Lo. rewrite E2 in Hi.
  assert (Fp : is_finite (u * Cloud.Math_PI) = true)
    by (apply is_finite_Ord; split; [exact Hn|lia]).
  destruct (mul_between (u * Cloud.Math_PI) 2 0 (Ord Cloud.Math_PI) Fp eq_refl
              ltac:(vm_compute; discriminate) ltac:(lia)) as [Hn' [Lo' Hi']].
  assert (E3 : rndz 1074 (0 * Ord 2) = 0%Z) by reflexivity.
  assert (E4 : (rndz 1074 (Ord Cloud.Math_PI * Ord 2) < INF)%Z) by reflexivity.
  rewrite E3 in Lo'.
  apply is_finite_Ord. split; [exact Hn'|lia].
Qed.

Lemma cosPhi_range (u : float) :
  (0 <=? u) = true -> (u <? 1) = true ->
  (-1 <=? Cloud.cosPhi u) = true /\ (Cloud.cosPhi u <=? 1) = true.
Proof.
  intros H0 H1. destruct (twice_draw u H0 H1) as [F2 B2]. unfold Cloud.cosPhi.
  destruct (sub_between (u * 2) 1 0 (Ord 2) (Ord 1) (Ord 1) F2 eq_refl
              B2 ltac:(lia)) as [Hn [Lo Hi]].
  assert (E1 : rndz 0 (0 - Ord 1) = Ord (-1)) by (vm_compute; reflexivity).
  assert (E2 : rndz 0 (Ord 2 - Ord 1) = Ord 1) by (vm_compute; reflexivity).
  rewrite E1 in Lo. rewrite E2 in Hi.
  split; apply leb_true; repeat split; auto.
Qed.

(** X23: The cloud fits in the cube of half-side 6.  Provided [Math.sin] and
    [Math.cos] return values of magnitude at most one on finite arguments
    and [Math.acos] a finite value on [-1, 1], each coordinate computed
    for a particle has magnitude at most 6; in particular none is NaN. *)
Theorem cloud_point_bounded
        (Math_sin Math_cos Math_acos : float -> float) (u1 u2 u3 : float) :
  (forall a, is_finite a = true -> (MathJS.Math_abs (Math_sin a) <=? 1) = true) ->
  (forall a, is_finite a = true -> (MathJS.Math_abs (Math_cos a) <=? 1) = true) ->
  (forall c, (-1 <=? c) = true -> (c <=? 1) = true -> is_finite (Math_acos c) = true) ->
  (0 <=? u1) = true -> (u1 <? 1) = true ->
  (0 <=? u2) = true -> (u2 <? 1) = true ->
  (0 <=? u3) = true -> (u3 <? 1) = true ->
  let p := Cloud.point Math_sin Math_cos Math_acos u1 u2 u3 in
  (MathJS.Math_abs (v3x p) <=? 6) = true /\
  (MathJS.Math_abs (v3y p) <=? 6) = true /\
  (MathJS.Math_abs (v3z p) <=? 6) = true.
Proof.
  intros Hsin Hcos Hacos A0 A1 B0 B1 C0 C1. cbv zeta. unfold Cloud.point. cbn [v3x v3y v3z].
  destruct (radius_Ord_bounds u3 C0 C1) as (Fr & Br0).
  assert (Br : (Z.abs (Ord (Cloud.radius u3)) <= Ord 6)%Z).
  { assert (0 < Ord 4)%Z by reflexivity. lia. }
  destruct (cosPhi_range u2 B0 B1) as [P0 P1].
  pose proof (Hacos _ P0 P1) as Fphi. pose proof (theta_finite u1 A0 A1) as Fth.
  set (phi := Math_acos (Cloud.cosPhi u2)) in *. set (th := Cloud.theta u1) in *.
  destruct (mul_unit_bound _ (Math_sin phi) (Ord 6) Fr Br (Hsin phi Fphi)) as [F1 B1'].
  destruct (mul_unit_bound _ (Math_cos th) (Ord 6) F1 B1' (Hcos th Fth)) as [Fx Bx].
  destruct (mul_unit_bound _ (Math_sin th) (Ord 6) F1 B1' (Hsin th Fth)) as [Fy By].
  destruct (mul_unit_bound _ (Math_cos phi) (Ord 6) Fr Br (Hcos phi Fphi)) as [Fz Bz].
  apply is_finite_Ord in Fx as [Nx _]. apply is_finite_Ord in Fy as [Ny _].
  apply is_finite_Ord in Fz as [Nz _].
  unfold MathJS.Math_abs.
  repeat split; apply leb_true; rewrite ?abs_nan, ?abs_Ord; repeat split; auto.
Qed.

Lemma cloud_point_bounded_witness :
  let p := Cloud.point (fun _ => 1) (fun _ => -1) (fun a => a) 0.25 0.5 0.75 in
  (MathJS.Math_abs (v3x p) <=? 6) = true /\
  (MathJS.Math_abs (v3y p) <=? 6) = true /\
  (MathJS.Math_abs (v3z p) <=? 6) = true.
Proof.
  apply (cloud_point_bounded (fun _ => 1) (fun _ => -1) (fun a => a) 0.25 0.5 0.75);
    try reflexivity.
  intros c H0 H1. exact (between_finite (-1) 1 c eq_refl eq_refl H0 H1).
Defined.

(* ===================================================================== *)
(** * Part XV: the set-up of the tracker *)
(* ===================================================================== *)

(** X24: The set-up of the tracker, outcome by outcome.  The camera is asked
    for only after both model files have loaded; a failed load and a
    refused camera each store their own message; a browser without
    [mediaDevices] stores none; the frames are only listened for when
    every step succeeded and the video element is mounted.  No other field
    of the store is written. *)
Theorem setup_outcomes (b : Setup.Browser) (s : Store.AppState) :
  let out := Setup.setupMediaPipe b (s, Setup.initial) in
  let loaded := Setup.visionLoads b && Setup.landmarkerLoads b in
  Setup.isLoaded (snd out) = loaded /\
  Setup.handLandmarker (snd out) = loaded /\
  Setup.cameraRequested (snd out) = loaded && Setup.hasMediaDevices b /\
  Setup.streamOpen (snd out) = loaded && Setup.hasMediaDevices b && Setup.cameraGranted b /\
  Setup.video (snd out)
  = loaded && Setup.hasMediaDevices b && Setup.cameraGranted b && Setup.videoMounted b /\
  Store.error (fst out)
  = (if negb loaded then Some Setup.load_error
     else if Setup.hasMediaDevices b && negb (Setup.cameraGranted b)
          then Some Setup.camera_error
          else Store.error s) /\
  fst out = Store.setError (Store.error (fst out)) s.
Proof.
  destruct b as [[] [] [] [] []], s; cbv; repeat split.
Qed.

(* ===================================================================== *)
(** * Part XVI: from the camera to the cloud *)
(* ===================================================================== *)

(** X25: From the camera to the cloud: once the tracker has processed a frame
    with a hand of which [n] of the four fingers are folded, sixty rendered
    frames showing that store bring the scale to within 0.001 of 0.4 for a
    fist ([n = 4]), of 1.3 for an open hand ([n <= 1]) and of 1.0
    otherwise. *)
Theorem gesture_drives_scale
        (hypot : float -> float -> float -> float)
        (f : Tracker.VideoFrame) (t : float) (s : Store.AppState)
        (hand : list Tracker.Landmark) (rest : list (list Tracker.Landmark))
        (wrist : Tracker.Landmark)
        (fs : list Particles.Frame) (r : Particles.Renderer) :
  Tracker.ready f = true ->
  (Tracker.currentTime f =? t) = false ->
  Tracker.landmarks f = Some (hand :: rest) ->
  (21 <= List.length hand)%nat ->
  hand !! 0%nat = Some wrist ->
  Forall (rendersStore (snd (Tracker.predictWebcam hypot f t s))) fs ->
  (60 <= List.length fs)%nat ->
  (0.4 <=? Particles.currentScale r) = true -> (Particles.currentScale r <=? 1.3) = true ->
  let n := foldedFingers hypot hand wrist in
  let target := if (4 <=? n)%nat then 0.4 else if (n <=? 1)%nat then 1.3 else 1.0 in
  (target - 0.001 <=? Particles.currentScale (Particles.run fs r)) = true /\
  (Particles.currentScale (Particles.run fs r) <=? target + 0.001) = true.
Proof.
  intros Hr Ht Hl Hlen Hw Hfs Hlen60 Hlo Hhi n target.
  assert (Hsame : Forall (fun fr => Particles.targetScale (Particles.isHandDetected fr)
                                      (Particles.gesture fr) = target) fs);
    [|destruct (run_last_sixty fs r target Hlo Hhi Hsame Hlen60)
        as (s0 & Slo & Shi & -> & Htarget); apply settle_sixty; assumption].
  revert Hfs. rewrite predictWebcam_eq, Hr, Ht, Hl. cbn [negb orb].
  destruct (handFound_ok hypot hand s Hlen) as (w & tip & Hw' & _ & ->).
  assert (w = wrist) by congruence. subst w. cbn [snd].
  intros Hfs. eapply Forall_impl; [exact Hfs|]. intros fr (_ & Hd & Hg).
  rewrite Hd, Hg. cbn [Store.isHandDetected Store.gesture Store.setGesture
                       Store.setHandPosition Store.setIsHandDetected].
  subst target. fold n. unfold Tracker.classify, Particles.targetScale.
  destruct (4 <=? n)%nat; [reflexivity|]. destruct (n <=? 1)%nat; reflexivity.
Qed.

Lemma gesture_drives_scale_witness :
  (0.4 - 0.001 <=? Particles.currentScale
                     (Particles.run (sixtyFramesOf fist_hand) (Particles.initial 2.0))) = true /\
  (Particles.currentScale (Particles.run (sixtyFramesOf fist_hand) (Particles.initial 2.0))
   <=? 0.4 + 0.001) = true.
Proof.
  assert (Hfs : Forall (rendersStore
                          (snd (Tracker.predictWebcam MathJS.Math_hypot
                                  (Tracker.mkVideoFrame true 0 (Some [fist_hand])) (-1)
                                  Store.initial)))
                       (sixtyFramesOf fist_hand)).
  { apply List.Forall_forall. intros fr Hin. apply List.repeat_spec in Hin. subst fr.
    repeat split. }
  exact (gesture_drives_scale MathJS.Math_hypot
           (Tracker.mkVideoFrame true 0 (Some [fist_hand])) (-1) Store.initial
           fist_hand [] (Tracker.mkLm 0.5 0.9 0)
           (sixtyFramesOf fist_hand) (Particles.initial 2.0)
           eq_refl eq_refl eq_refl ltac:(vm_compute; lia) eq_refl Hfs
           ltac:(vm_compute; lia) eq_refl eq_refl).
Defined.

Lemma run_noHand_last (fs : list Particles.Frame) :
  forall r : Particles.Renderer,
    forallb noHand fs = true -> fs <> [] ->
    Particles.lastHandPos (Particles.run fs r) = None.
Proof.
  induction fs as [|f fs IH]; intros r Hfs Hne; [congruence|].
  cbn [forallb] in Hfs. apply andb_true_iff in Hfs as [Hf Hfs].
  change (Particles.run (f :: fs) r) with (Particles.run fs (Particles.useFrame f r)).
  destruct fs as [|g fs]; [|apply IH; [exact Hfs|discriminate]].
  change (Particles.run [] (Particles.useFrame f r)) with (Particles.useFrame f r).
  unfold noHand in Hf. apply andb_true_iff in Hf as [Hm Hd]. apply negb_true_iff in Hd.
  unfold Particles.useFrame. rewrite Hm, Hd. reflexivity.
Qed.

(** X26: From the camera to the cloud, when the hand is lost: once the
    tracker has processed a frame without a hand, 423 rendered frames
    showing that store leave the cloud at rest (momentum zero, no last hand
    position) at a scale within 0.001 of 1.0. *)
Theorem lost_hand_releases_cloud
        (hypot : float -> float -> float -> float)
        (f : Tracker.VideoFrame) (t : float) (s : Store.AppState)
        (fs : list Particles.Frame) (r : Particles.Renderer) :
  Tracker.ready f = true ->
  (Tracker.currentTime f =? t) = false ->
  (Tracker.landmarks f = None \/ Tracker.landmarks f = Some []) ->
  Forall (rendersStore (snd (Tracker.predictWebcam hypot f t s))) fs ->
  forallb Particles.meshRef fs = true ->
  (423 <= List.length fs)%nat ->
  (0.4 <=? Particles.currentScale r) = true -> (Particles.currentScale r <=? 1.3) = true ->
  is_nan (v2x (Particles.momentum r)) = false ->
  is_nan (v2y (Particles.momentum r)) = false ->
  Particles.momentum (Particles.run fs r) = mkV2 0 0 /\
  Particles.lastHandPos (Particles.run fs r) = None /\
  (1.0 - 0.001 <=? Particles.currentScale (Particles.run fs r)) = true /\
  (Particles.currentScale (Particles.run fs r) <=? 1.0 + 0.001) = true.
Proof.
  intros Hr Ht Hl Hfs Hmesh Hlen Hlo Hhi Nx Ny.
  assert (Hlost : Forall (fun fr => Particles.isHandDetected fr = false) fs).
  { revert Hfs. rewrite predictWebcam_eq, Hr, Ht. cbn [negb orb].
    intros Hfs. eapply Forall_impl; [exact Hfs|]. intros fr (_ & Hd & _).
    rewrite Hd. destruct Hl as [-> | ->]; reflexivity. }
  assert (Hidle : forallb noHand fs = true).
  { clear - Hlost Hmesh. induction fs as [|fr fs IH]; [reflexivity|].
    apply Forall_cons in Hlost as [Hd Hlost]. cbn [forallb] in *.
    apply andb_true_iff in Hmesh as [Hm Hmesh].
    rewrite IH by assumption. unfold noHand. rewrite Hm, Hd. reflexivity. }
  split; [|split].
  - rewrite run_noHand by exact Hidle. f_equal.
    + apply (idle_iter_ge 423); [|exact Hlen].
      apply (idle_iter_zero 422 _ infinity Nx eq_refl); [|exact idle_423_infinity].
      pose proof (Ord_bounds (v2x (Particles.momentum r))).
      change (Z.abs (Ord infinity)) with INF. lia.
    + apply (idle_iter_ge 423); [|exact Hlen].
      apply (idle_iter_zero 422 _ infinity Ny eq_refl); [|exact idle_423_infinity].
      pose proof (Ord_bounds (v2y (Particles.momentum r))).
      change (Z.abs (Ord infinity)) with INF. lia.
  - apply run_noHand_last; [exact Hidle|]. intros E. rewrite E in Hlen. cbn in Hlen. lia.
  - assert (Hsame : Forall (fun fr => Particles.targetScale (Particles.isHandDetected fr)
                                        (Particles.gesture fr) = 1.0) fs).
    { eapply Forall_impl; [exact Hlost|]. intros fr Hd. cbn beta. rewrite Hd. reflexivity. }
    destruct (run_last_sixty fs r 1.0 Hlo Hhi Hsame ltac:(lia))
      as (s0 & Slo & Shi & -> & Htarget).
    apply settle_sixty; assumption.
Qed.

Lemma lost_hand_releases_cloud_witness :
  Particles.momentum (Particles.run (framesAfterLoss 423) spinning) = mkV2 0 0 /\
  Particles.lastHandPos (Particles.run (framesAfterLoss 423) spinning) = None /\
  (1.0 - 0.001 <=? Particles.currentScale (Particles.run (framesAfterLoss 423) spinning))
  = true /\
  (Particles.currentScale (Particles.run (framesAfterLoss 423) spinning) <=? 1.0 + 0.001)
  = true.
Proof.
  assert (Hfs : Forall (rendersStore
                          (snd (Tracker.predictWebcam MathJS.Math_hypot
                                  (Tracker.mkVideoFrame true 0 None) (-1)
                                  (Store.mkApp (Some (mkV3 1 2 3)) true (Some Store.OPEN)
                                               Store.DEFAULT_CONFIG false None))))
                       (framesAfterLoss 423)).
  { apply List.Forall_forall. intros fr Hin. apply List.repeat_spec in Hin. subst fr.
    repeat split. }
  exact (lost_hand_releases_cloud MathJS.Math_hypot
           (Tracker.mkVideoFrame true 0 None) (-1)
           (Store.mkApp (Some (mkV3 1 2 3)) true (Some Store.OPEN)
                        Store.DEFAULT_CONFIG false None)
           (framesAfterLoss 423) spinning
           eq_refl eq_refl (or_introl eq_refl) Hfs eq_refl ltac:(vm_compute; lia)
           eq_refl eq_refl eq_refl eq_refl).
Defined.
